(** * SIDTools / kestrel_scripts / s_rerun_imp2.py

    A shallow embedding of the convergence-check-and-resubmit script and
    the properties its specification states about it.

    Python [str] values are Rocq [string]s; a character is a code point
    in U+0000..U+00FF.  The file system is a tree of directories and
    regular files without symbolic links; the kernel's name resolution is
    lexical ([..] steps back one component).  Every function of the script
    that touches the file system or prints is a computation in a small
    state / error / log monad. *)

From Stdlib Require Import List String Ascii ZArith Lia Bool.
From Stdlib Require Import Permutation Sorted DecimalString.
Import ListNotations.
Open Scope string_scope.
Set Warnings "-register-all".

(* ================================================================== *)
(** * Python strings *)
(* ================================================================== *)

Module PyStr.

Definition LF : ascii := "010"%char.
Definition CR : ascii := "013"%char.
Definition nl : string := String LF EmptyString.

(** [s.startswith(p)] *)
Fixpoint startswith (s p : string) {struct p} : bool :=
  match p, s with
  | EmptyString, _ => true
  | String _ _, EmptyString => false
  | String b p', String a s' => Ascii.eqb a b && startswith s' p'
  end.

(** [s.endswith(c)] for a one-character [c] *)
Fixpoint endswith_char (s : string) (c : ascii) : bool :=
  match s with
  | EmptyString => false
  | String a EmptyString => Ascii.eqb a c
  | String _ s' => endswith_char s' c
  end.

(** [needle in hay] *)
Fixpoint str_in (needle hay : string) : bool :=
  startswith hay needle ||
  match hay with
  | EmptyString => false
  | String _ hay' => str_in needle hay'
  end.

(** What [str_in] decides. *)
Definition occurs (needle hay : string) : Prop :=
  exists pre post, hay = pre ++ needle ++ post.

(** Put a character in front of the first string of a list. *)
Definition cons_head (c : ascii) (l : list string) : list string :=
  match l with
  | [] => [String c EmptyString]
  | h :: t => String c h :: t
  end.

(** [s.split(sep)] for a one-character separator: never empty. *)
Fixpoint split (sep : ascii) (s : string) : list string :=
  match s with
  | EmptyString => [EmptyString]
  | String c s' =>
      if Ascii.eqb c sep then EmptyString :: split sep s'
      else cons_head c (split sep s')
  end.

(** The lines a text-mode file object yields with universal newlines:
    a line ends at [\n], [\r\n] or a lone [\r], each delivered as [\n];
    the last line may lack a terminator. *)
Fixpoint text_lines (s : string) : list string :=
  match s with
  | EmptyString => []
  | String c s' =>
      if Ascii.eqb c LF then nl :: text_lines s'
      else if Ascii.eqb c CR then
        match s' with
        | String c' s'' =>
            if Ascii.eqb c' LF then nl :: text_lines s''
            else nl :: text_lines s'
        | EmptyString => [nl]
        end
      else cons_head c (text_lines s')
  end.

(** [c.isdigit()] on U+0000..U+00FF: the ten decimal digits and the
    superscripts U+00B2, U+00B3, U+00B9 (Numeric_Type=Digit). *)
Definition is_decimal (c : ascii) : bool :=
  let n := nat_of_ascii c in Nat.leb 48 n && Nat.leb n 57.

Definition is_superscript_digit (c : ascii) : bool :=
  let n := nat_of_ascii c in
  Nat.eqb n 178 || Nat.eqb n 179 || Nat.eqb n 185.

Definition char_isdigit (c : ascii) : bool :=
  is_decimal c || is_superscript_digit c.

Fixpoint all_chars (f : ascii -> bool) (s : string) : bool :=
  match s with
  | EmptyString => true
  | String c s' => f c && all_chars f s'
  end.

(** [s.isdigit()]: at least one character and all of them digits. *)
Definition isdigit (s : string) : bool :=
  match s with
  | EmptyString => false
  | _ => all_chars char_isdigit s
  end.

Definition digit_value (c : ascii) : Z := Z.of_nat (nat_of_ascii c) - 48.

Fixpoint int_acc (acc : Z) (s : string) : option Z :=
  match s with
  | EmptyString => Some acc
  | String c s' =>
      if is_decimal c then int_acc (10 * acc + digit_value c) s'
      else None
  end.

(** [int(s)] on the strings the script passes to it (those with
    [s.isdigit()]): the value in base ten, or [None] for the ValueError
    that a non-decimal digit raises. *)
Definition int (s : string) : option Z :=
  match s with
  | EmptyString => None
  | _ => int_acc 0 s
  end.

(** [str(n)] for an integer. *)
Definition str_of_Z (n : Z) : string := NilZero.string_of_int (Z.to_int n).

(** Whitespace of [str.strip()] on U+0000..U+00FF. *)
Definition is_space (c : ascii) : bool :=
  let n := nat_of_ascii c in
  (Nat.leb 9 n && Nat.leb n 13) || (Nat.leb 28 n && Nat.leb n 32)
  || Nat.eqb n 133 || Nat.eqb n 160.

Fixpoint lstrip (s : string) : string :=
  match s with
  | EmptyString => EmptyString
  | String c s' => if is_space c then lstrip s' else s
  end.

Fixpoint rstrip (s : string) : string :=
  match s with
  | EmptyString => EmptyString
  | String c s' =>
      match rstrip s' with
      | EmptyString => if is_space c then EmptyString else String c EmptyString
      | r => String c r
      end
  end.

Definition strip (s : string) : string := rstrip (lstrip s).

(** UTF-8 encoding of a text of code points below U+0100. *)
Fixpoint encode_utf8 (s : string) : string :=
  match s with
  | EmptyString => EmptyString
  | String c s' =>
      let n := nat_of_ascii c in
      if Nat.ltb n 128 then String c (encode_utf8 s')
      else String (ascii_of_nat (192 + n / 64))
             (String (ascii_of_nat (128 + n mod 64)) (encode_utf8 s'))
  end.

(** [sep.join(l)] *)
Fixpoint join_with (sep : string) (l : list string) : string :=
  match l with
  | [] => EmptyString
  | [x] => x
  | x :: l' => x ++ sep ++ join_with sep l'
  end.


End PyStr.

(* ================================================================== *)
(** * [os.path] on POSIX *)
(* ================================================================== *)

Module OsPath.
Import PyStr.

(** [os.path.join(a, b)] *)
Definition join (a b : string) : string :=
  if startswith b "/" then b
  else if String.eqb a EmptyString || endswith_char a "/" then a ++ b
  else a ++ "/" ++ b.

(** [os.path.basename(p)]: what follows the last slash. *)
Definition basename (p : string) : string := last (split "/" p) EmptyString.

Definition isabs (p : string) : bool := startswith p "/".

(** [s.rstrip('/')] *)
Fixpoint rstrip_slash (s : string) : string :=
  match s with
  | EmptyString => EmptyString
  | String c s' =>
      match rstrip_slash s' with
      | EmptyString => if Ascii.eqb c "/" then EmptyString else String c EmptyString
      | r => String c r
      end
  end.

(** [os.path.dirname(p)] *)
Definition dirname (p : string) : string :=
  match removelast (split "/" p) with
  | [] => EmptyString
  | front =>
      let head := join_with "/" front ++ "/" in
      if all_chars (Ascii.eqb "/") head then head else rstrip_slash head
  end.

(** One step of the component loop of [normpath]. *)
Definition norm_step (rooted : bool) (acc : list string) (comp : string)
  : list string :=
  if String.eqb comp EmptyString || String.eqb comp "." then acc
  else if negb (String.eqb comp "..")
          || (negb rooted && match acc with [] => true | _ => false end)
          || String.eqb (last acc EmptyString) ".."
       then acc ++ [comp]
       else removelast acc.

(** [os.path.normpath(p)] *)
Definition normpath (p : string) : string :=
  match p with
  | EmptyString => "."
  | _ =>
      let slashes :=
        if startswith p "//" && negb (startswith p "///") then "//"
        else if startswith p "/" then "/" else EmptyString in
      let comps := fold_left (norm_step (isabs p)) (split "/" p) [] in
      match slashes ++ join_with "/" comps with
      | EmptyString => "."
      | r => r
      end
  end.

(** How the kernel walks the components of an absolute path: empty and
    [.] components stay in place, [..] steps back (and stays at the
    root), a name steps down. *)
Definition walk_step (acc : list string) (comp : string) : list string :=
  if String.eqb comp EmptyString || String.eqb comp "." then acc
  else if String.eqb comp ".." then removelast acc
  else acc ++ [comp].

Definition walk (p : string) : list string :=
  fold_left walk_step (split "/" p) [].

(** A string without a slash. *)
Definition no_slash (s : string) : bool :=
  all_chars (fun c => negb (Ascii.eqb c "/")) s.

(** The name of a directory entry: not empty, without slash, neither
    [.] nor [..]. *)
Definition simple_name (n : string) : bool :=
  no_slash n && negb (String.eqb n EmptyString)
  && negb (String.eqb n ".") && negb (String.eqb n "..").

End OsPath.

(* ================================================================== *)
(** * The file system *)
(* ================================================================== *)

(** The exceptions of the script's world.  Only a [FileNotFoundError]
    is ever printed, so only it carries its message. *)
Inductive exn : Type :=
| FileNotFoundError (msg : string)
| FileExistsError
| NotADirectoryError
| IsADirectoryError
| SameFileError
| ValueError.

Inductive result (A : Type) : Type :=
| Ok (a : A)
| Raise (e : exn).
Arguments Ok {A} a.
Arguments Raise {A} e.

Module Fs.

(** A regular file has its bytes and its permission bits; a directory
    has its entries in listing order. *)
Inductive node : Type :=
| File (data : string) (perm : Z)
| Dir (entries : list (string * node)).

Definition is_dir (n : node) : bool :=
  match n with Dir _ => true | File _ _ => false end.

Definition is_file (n : node) : bool :=
  match n with File _ _ => true | Dir _ => false end.

Fixpoint assoc (k : string) (es : list (string * node)) : option node :=
  match es with
  | [] => None
  | (k', v) :: es' => if String.eqb k k' then Some v else assoc k es'
  end.

(** Replace the binding of [k] where it stands, or add one at the end. *)
Fixpoint upsert (k : string) (v : node) (es : list (string * node))
  : list (string * node) :=
  match es with
  | [] => [(k, v)]
  | (k', v') :: es' =>
      if String.eqb k k' then (k, v) :: es' else (k', v') :: upsert k v es'
  end.

(** The node a list of components leads to. *)
Fixpoint get (p : list string) (n : node) {struct p} : option node :=
  match p with
  | [] => Some n
  | c :: p' =>
      match n with
      | Dir es =>
          match assoc c es with
          | Some m => get p' m
          | None => None
          end
      | File _ _ => None
      end
  end.

(** [mkdir -p]: every missing directory on the way is created; a regular
    file on the way or at the end is an error. *)
Fixpoint mkdirs (p : list string) (n : node) {struct p} : result node :=
  match p with
  | [] =>
      match n with
      | Dir _ => Ok n
      | File _ _ => Raise FileExistsError
      end
  | c :: p' =>
      match n with
      | File _ _ => Raise NotADirectoryError
      | Dir es =>
          match mkdirs p' (match assoc c es with
                           | Some m => m
                           | None => Dir []
                           end) with
          | Ok m' => Ok (Dir (upsert c m' es))
          | Raise e => Raise e
          end
      end
  end.

(** Change the node at [p] with [f], which also says what to create when
    the last component is missing ([f None]). The parent must be a
    directory. [missing] is raised when a directory on the way is absent. *)
Fixpoint update (missing : exn) (f : option node -> result node)
  (p : list string) (n : node) {struct p} : result node :=
  match p with
  | [] => f (Some n)
  | c :: p' =>
      match n with
      | File _ _ => Raise NotADirectoryError
      | Dir es =>
          match assoc c es, p' with
          | Some m, _ =>
              match update missing f p' m with
              | Ok m' => Ok (Dir (upsert c m' es))
              | Raise e => Raise e
              end
          | None, [] =>
              match f None with
              | Ok m' => Ok (Dir (upsert c m' es))
              | Raise e => Raise e
              end
          | None, _ :: _ => Raise missing
          end
      end
  end.

(** What is at a place. *)
Definition is_dir_at (q : list string) (n : node) : bool :=
  match get q n with Some (Dir _) => true | _ => false end.

Definition is_file_at (q : list string) (n : node) : bool :=
  match get q n with Some (File _ _) => true | _ => false end.

(** The names a directory lists. *)
Definition entry_names (q : list string) (n : node) : option (list string) :=
  match get q n with
  | Some (Dir es) => Some (map fst es)
  | _ => None
  end.

(** [p] leads to [q] or above it. *)
Definition prefix_of (p q : list string) : Prop := exists r, q = (p ++ r)%list.

(** Neither place is on the way to the other. *)
Definition apart (p q : list string) : Prop :=
  ~ prefix_of p q /\ ~ prefix_of q p.

Fixpoint is_prefix (p q : list string) : bool :=
  match p, q with
  | [], _ => true
  | _ :: _, [] => false
  | a :: p', b :: q' => String.eqb a b && is_prefix p' q'
  end.

Definition apartb (p q : list string) : bool :=
  negb (is_prefix p q) && negb (is_prefix q p).

(** Nothing goes away and nothing changes its kind: a directory of [n]
    is a directory of [n'], a regular file of [n] a regular file of
    [n']. *)
Definition grows (n n' : node) : Prop :=
  forall q,
    (is_dir_at q n = true -> is_dir_at q n' = true) /\
    (is_file_at q n = true -> is_file_at q n' = true).

End Fs.

(* ================================================================== *)
(** * The process environment and the system calls *)
(* ================================================================== *)

(** What the script finds around it and does not own. *)
Record env : Type := {
  (** the components of the working directory, [os.getcwd()] *)
  cwd : list string;
  (** the value of [__file__] *)
  script_file : string;
  (** the locale's codec with [errors="ignore"]: total on bytes *)
  decode : string -> string;
  (** permission bits of a file that [open(.., "w")] creates *)
  new_file_perm : Z;
  (** [st_mode] of a directory (directory permissions are not kept) *)
  dir_mode : Z;
  (** the scheduler's submit command run in a directory: [None] when
      there is no [sbatch] in PATH, else return code, stdout, stderr *)
  sbatch : Fs.node -> string -> option (Z * string * string)
}.

Module Os.
Import PyStr OsPath Fs.

Section WithEnv.
Variable E : env.

Definition getcwd : string := "/" ++ join_with "/" (cwd E).

(** [os.path.abspath(p)] *)
Definition abspath (p : string) : string :=
  normpath (if isabs p then p else join getcwd p).

(** The components a path string names; the empty path names nothing. *)
Definition resolve (p : string) : option (list string) :=
  match p with
  | EmptyString => None
  | _ => Some (fold_left walk_step (split "/" p)
                 (if isabs p then [] else cwd E))
  end.

Definition lookup (fs : node) (p : string) : option node :=
  match resolve p with
  | Some q => get q fs
  | None => None
  end.

(** [os.path.isdir], [os.path.isfile], [os.path.exists] *)
Definition isdir (fs : node) (p : string) : bool :=
  match lookup fs p with Some (Dir _) => true | _ => false end.

Definition isfile (fs : node) (p : string) : bool :=
  match lookup fs p with Some (File _ _) => true | _ => false end.

Definition exists_ (fs : node) (p : string) : bool :=
  match lookup fs p with Some _ => true | None => false end.

(** The text of the ENOENT error. *)
Definition enoent (p : string) : exn :=
  FileNotFoundError ("[Errno 2] No such file or directory: '" ++ p ++ "'").

(** [os.listdir(p)]: the names in the order the directory has them. *)
Definition listdir (fs : node) (p : string) : result (list string) :=
  match lookup fs p with
  | Some (Dir es) => Ok (map fst es)
  | Some (File _ _) => Raise NotADirectoryError
  | None => Raise (enoent p)
  end.

(** [open(p, "r", errors="ignore")] read to the end: the decoded text. *)
Definition read_text (fs : node) (p : string) : result string :=
  match lookup fs p with
  | Some (File data _) => Ok (decode E data)
  | Some (Dir _) => Raise IsADirectoryError
  | None => Raise (enoent p)
  end.

(** [os.makedirs(p, exist_ok=True)] *)
Definition makedirs (fs : node) (p : string) : result node :=
  match resolve p with
  | Some q => mkdirs q fs
  | None => Raise (enoent p)
  end.

(** Put bytes (and, with [perm], permission bits) into the regular file
    at [p], creating it when only its last component is missing. *)
Definition store (data : string) (perm : option Z) (old : option node)
  : result node :=
  match old with
  | Some (Dir _) => Raise IsADirectoryError
  | Some (File _ m) =>
      Ok (File data (match perm with Some m' => m' | None => m end))
  | None =>
      Ok (File data (match perm with
                     | Some m' => m'
                     | None => new_file_perm E
                     end))
  end.

Definition write_bytes (fs : node) (p : string) (data : string)
  (perm : option Z) : result node :=
  match resolve p with
  | Some q => update (enoent p) (store data perm) q fs
  | None => Raise (enoent p)
  end.

(** [with open(p, "w", encoding="utf-8") as f: f.write(text)] *)
Definition write_text (fs : node) (p : string) (text : string)
  : result node :=
  write_bytes fs p (encode_utf8 text) None.

(** [os.path.samefile] as [shutil] uses it: false when either is absent. *)
Definition samefile (fs : node) (a b : string) : bool :=
  match resolve a, resolve b with
  | Some qa, Some qb =>
      exists_ fs a && exists_ fs b
      && if list_eq_dec string_dec qa qb then true else false
  | _, _ => false
  end.

(** [shutil.copy2(src, dst)]: into [dst] when it is a directory; bytes
    and permission bits are copied. *)
Definition copy2 (fs : node) (src dst : string) : result node :=
  let dst := if isdir fs dst then join dst (basename src) else dst in
  if samefile fs src dst then Raise SameFileError
  else
    match lookup fs src with
    | Some (File data perm) => write_bytes fs dst data (Some perm)
    | Some (Dir _) => Raise IsADirectoryError
    | None => Raise (enoent src)
    end.

(** [shutil.copytree(src, dst)]: [dst] must not exist; its missing
    parents are created; it receives the tree that [src] is when the
    copy starts. *)
Definition copytree (fs : node) (src dst : string) : result node :=
  match lookup fs src with
  | Some (Dir es) =>
      match resolve dst with
      | Some q =>
          if exists_ fs dst then Raise FileExistsError
          else
            match mkdirs q fs with
            | Ok fs' =>
                update (enoent dst) (fun _ => Ok (Dir es)) q fs'
            | Raise e => Raise e
            end
      | None => Raise (enoent dst)
      end
  | Some (File _ _) => Raise NotADirectoryError
  | None => Raise (enoent src)
  end.

(** [os.stat(p).st_mode] *)
Definition stat_mode (fs : node) (p : string) : result Z :=
  match lookup fs p with
  | Some (File _ perm) => Ok (Z.lor 32768 perm)
  | Some (Dir _) => Ok (dir_mode E)
  | None => Raise (enoent p)
  end.

(** [os.chmod(p, mode)]: the permission bits of [mode] become the
    file's. *)
Definition chmod (fs : node) (p : string) (mode : Z) : result node :=
  match lookup fs p, resolve p with
  | Some (File data _), Some q =>
      update (enoent p) (fun _ => Ok (File data (Z.land mode 4095))) q fs
  | Some (Dir _), _ => Ok fs
  | _, _ => Raise (enoent p)
  end.

End WithEnv.
End Os.

(* ================================================================== *)
(** * Computations: file-system state, exceptions, and a log *)
(* ================================================================== *)

(** What a run does that can be observed from outside, in order.  A
    system call is logged when it is made, whether or not it succeeds. *)
Inductive event : Type :=
| Print (line : string)
| Makedirs (path : string)
| WriteFile (path : string) (bytes : string)
| Copy2 (src dst : string)
| Copytree (src dst : string)
| Chmod (path : string) (mode : Z)
| Sbatch (workdir : string).

Module Eff.
Import Fs.

Record outcome (A : Type) : Type := Out {
  out_fs : node;
  out_log : list event;
  out_res : result A
}.
Arguments Out {A} _ _ _.
Arguments out_fs {A} _.
Arguments out_log {A} _.
Arguments out_res {A} _.

Definition M (A : Type) : Type := node -> outcome A.

Definition ret {A} (a : A) : M A := fun fs => Out fs [] (Ok a).

Definition raise {A} (e : exn) : M A := fun fs => Out fs [] (Raise e).

Definition bind {A B} (m : M A) (k : A -> M B) : M B :=
  fun fs =>
    let o := m fs in
    match out_res o with
    | Ok a =>
        let o' := k a (out_fs o) in
        Out (out_fs o') (out_log o ++ out_log o') (out_res o')
    | Raise e => Out (out_fs o) (out_log o) (Raise e)
    end.

(** Look at the file system. *)
Definition gets {A} (f : node -> A) : M A := fun fs => Out fs [] (Ok (f fs)).

(** A call that reads and may fail. *)
Definition reads {A} (f : node -> result A) : M A :=
  fun fs => Out fs [] (f fs).

(** A logged call that changes the file system or fails leaving it as
    it was. *)
Definition writes (ev : event) (f : node -> result node) : M unit :=
  fun fs =>
    match f fs with
    | Ok fs' => Out fs' [ev] (Ok tt)
    | Raise e => Out fs [ev] (Raise e)
    end.

Definition emit (ev : event) : M unit := fun fs => Out fs [ev] (Ok tt).

Definition print (line : string) : M unit := emit (Print line).

(** [try: m except FileNotFoundError as e: h(str(e))] *)
Definition except_FileNotFoundError {A} (m : M A) (h : string -> M A)
  : M A :=
  fun fs =>
    let o := m fs in
    match out_res o with
    | Raise (FileNotFoundError msg) =>
        let o' := h msg (out_fs o) in
        Out (out_fs o') (out_log o ++ out_log o') (out_res o')
    | _ => o
    end.

(** [try: m except Exception: h] *)
Definition except_Exception {A} (m : M A) (h : M A) : M A :=
  fun fs =>
    let o := m fs in
    match out_res o with
    | Raise _ =>
        let o' := h (out_fs o) in
        Out (out_fs o') (out_log o ++ out_log o') (out_res o')
    | Ok _ => o
    end.

(** [for x in l: body(x)] *)
Fixpoint for_each {A} (body : A -> M unit) (l : list A) : M unit :=
  match l with
  | [] => ret tt
  | x :: l' => bind (body x) (fun _ => for_each body l')
  end.

End Eff.

Declare Scope eff_scope.
Delimit Scope eff_scope with eff.
Notation "x <- m ;; k" := (Eff.bind m (fun x => k))
  (at level 61, m at next level, right associativity) : eff_scope.
Notation "m ;; k" := (Eff.bind m (fun _ => k))
  (at level 61, right associativity) : eff_scope.

(* ================================================================== *)
(** * Sorting as [sorted(l, key=f)] does *)
(* ================================================================== *)

Module Sorting.

(** The keys of the script: an integer or [float("inf")]. *)
Inductive key : Type :=
| KInt (n : Z)
| KInf.

(** [a <= b] between such keys. *)
Definition key_leb (a b : key) : bool :=
  match a, b with
  | KInt x, KInt y => Z.leb x y
  | _, KInf => true
  | KInf, KInt _ => false
  end.

Definition key_eqb (a b : key) : bool :=
  match a, b with
  | KInt x, KInt y => Z.eqb x y
  | KInf, KInf => true
  | _, _ => false
  end.

Section Sorted.
Context {A : Type}.

(** The keys are computed first, left to right; the first exception
    ends the call. *)
Fixpoint decorate (f : A -> result key) (l : list A)
  : result (list (key * A)) :=
  match l with
  | [] => Ok []
  | x :: l' =>
      match f x with
      | Raise e => Raise e
      | Ok k =>
          match decorate f l' with
          | Raise e => Raise e
          | Ok d => Ok ((k, x) :: d)
          end
      end
  end.

(** An element goes in front of the first one whose key is not smaller:
    elements with equal keys keep the order they came in. *)
Fixpoint insert (kx : key * A) (l : list (key * A)) : list (key * A) :=
  match l with
  | [] => [kx]
  | ky :: l' =>
      if key_leb (fst kx) (fst ky) then kx :: l else ky :: insert kx l'
  end.

Fixpoint stable_sort (l : list (key * A)) : list (key * A) :=
  match l with
  | [] => []
  | kx :: l' => insert kx (stable_sort l')
  end.

Definition sorted (f : A -> result key) (l : list A) : result (list A) :=
  match decorate f l with
  | Ok d => Ok (map snd (stable_sort d))
  | Raise e => Raise e
  end.

(** Vocabulary for what the sort guarantees. *)
Definition by_key : key * A -> key * A -> Prop :=
  fun a b => key_leb (fst a) (fst b) = true.

(** [x] comes no later than [y] by their keys. *)
Definition key_order (f : A -> result key) (x y : A) : Prop :=
  exists kx ky, f x = Ok kx /\ f y = Ok ky /\ key_leb kx ky = true.

(** [x] has the key [k]. *)
Definition has_key (f : A -> result key) (k : key) (x : A) : bool :=
  match f x with
  | Ok k' => key_eqb k' k
  | Raise _ => false
  end.

End Sorted.
End Sorting.

(* ================================================================== *)
(** * The script: [s_rerun_imp2.py] *)
(* ================================================================== *)

Module Script.
Import PyStr OsPath Fs Os Eff Sorting.
Local Open Scope eff_scope.

Definition CONVERGENCE_MARKER : string :=
  "reached required accuracy - stopping structural energy minimisation".

Section WithEnv.
Variable E : env.

(** [find_helper_file(filename, helpers_dir)] *)
Definition find_helper_file (filename : string)
  (helpers_dir : option string) (fs : node) : result string :=
  let from_helpers :=
    match helpers_dir with
    | None | Some EmptyString => None
    | Some d =>
        let helpers_candidate := abspath E (join d filename) in
        if isfile E fs helpers_candidate then Some helpers_candidate
        else None
    end in
  match from_helpers with
  | Some found => Ok found
  | None =>
      let cwd_candidate := abspath E (join (getcwd E) filename) in
      if isfile E fs cwd_candidate then Ok cwd_candidate
      else
        let script_dir := dirname (abspath E (script_file E)) in
        let script_candidate := join script_dir filename in
        if isfile E fs script_candidate then Ok script_candidate
        else Raise (FileNotFoundError
                      ("Could not find required file: " ++ filename))
  end.

(** [is_converged(outcar_path)] *)
Definition is_converged (outcar_path : string) (fs : node) : bool :=
  match read_text E fs outcar_path with
  | Ok text => existsb (str_in CONVERGENCE_MARKER) (text_lines text)
  | Raise _ => false
  end.

(** The text of [submit_contents] for a value of [run_folder_basename]. *)
Definition submit_contents (run_folder_basename : string) : string :=
  "import os, sys" ++ nl ++
  "print(os.getcwd())" ++ nl ++
  "from ase import io" ++ nl ++
  "from src.kul_tools import KulTools as KT" ++ nl ++ nl ++
  "def main():" ++ nl ++
  "    target = '" ++ run_folder_basename ++ "/CONTCAR'" ++ nl ++
  "    try:" ++ nl ++
  "        atoms = io.read(target)" ++ nl ++
  "    except Exception as e:" ++ nl ++
  "        print(f'Failed to read CONTCAR at {target}: {e}')" ++ nl ++
  "        return 1" ++ nl ++
  "    atoms.pbc=True" ++ nl ++
  "    kt = KT(gamma_only=False,structure_type='zeo')" ++ nl ++
  "    kt.set_calculation_type('opt')" ++ nl ++
  "    kt.set_structure(atoms)" ++ nl ++
  "    kt.set_overall_vasp_params({'gga':'RP','encut':400,'lreal':'Auto', 'algo':'fast', 'isif':3, 'kpts':(1,1,1)})" ++ nl ++
  "    kt.run()" ++ nl ++
  "    return 0" ++ nl ++ nl ++
  "if __name__ == '__main__':" ++ nl ++
  "    raise SystemExit(main())" ++ nl.

Definition os_makedirs (p : string) : M unit :=
  writes (Makedirs p) (fun fs => makedirs E fs p).

Definition write_file (p text : string) : M unit :=
  writes (WriteFile p (encode_utf8 text)) (fun fs => write_text E fs p text).

Definition shutil_copy2 (src dst : string) : M unit :=
  writes (Copy2 src dst) (fun fs => copy2 E fs src dst).

Definition shutil_copytree (src dst : string) : M unit :=
  writes (Copytree src dst) (fun fs => copytree E fs src dst).

Definition os_chmod (p : string) (mode : Z) : M unit :=
  writes (Chmod p mode) (fun fs => chmod E fs p mode).

(** [subprocess.run(["sbatch", "script_rerun.sh"], cwd=...)] inside its
    [try ... except FileNotFoundError]. *)
Definition submit (trajectory_dir : string) : M unit :=
  emit (Sbatch trajectory_dir) ;;
  result <- gets (fun fs => sbatch E fs trajectory_dir) ;;
  match result with
  | Some (returncode, stdout, stderr) =>
      print ("Submitted sbatch in " ++ trajectory_dir ++ " -> returncode="
             ++ str_of_Z returncode) ;;
      (match stdout with
       | EmptyString => ret tt
       | _ => print (strip stdout)
       end) ;;
      match stderr with
      | EmptyString => ret tt
      | _ => print (strip stderr)
      end
  | None =>
      print "Error: 'sbatch' command not found in PATH. Submit manually or load Slurm."
  end.

(** [prepare_and_submit_rerun(source_dir, run_dir, trajectory_dir,
    helpers_dir, copy_to_run_dir, dry_run)] *)
Definition prepare_and_submit_rerun (source_dir run_dir trajectory_dir : string)
  (helpers_dir : option string) (copy_to_run_dir dry_run : bool) : M unit :=
  os_makedirs run_dir ;;
  os_makedirs trajectory_dir ;;
  let dst_submit_traj := join trajectory_dir "01_submit_rerun.py" in
  let dst_script_traj := join trajectory_dir "script_rerun.sh" in
  let run_folder_basename := basename run_dir in
  let contents := submit_contents run_folder_basename in
  write_file dst_submit_traj contents ;;
  src_script <- reads (find_helper_file "script_rerun.sh" helpers_dir) ;;
  shutil_copy2 src_script dst_script_traj ;;
  (if copy_to_run_dir then
     let dst_submit_run := join run_dir "01_submit_rerun.py" in
     let dst_script_run := join run_dir "script_rerun.sh" in
     write_file dst_submit_run contents ;;
     shutil_copy2 src_script dst_script_run
   else ret tt) ;;
  except_Exception
    (mode_traj <- reads (fun fs => stat_mode E fs dst_script_traj) ;;
     os_chmod dst_script_traj (Z.lor mode_traj 73))
    (ret tt) ;;
  if dry_run then
    print ("[DRY-RUN] Would submit: sbatch script_rerun.sh (cwd="
           ++ trajectory_dir ++ ")")
  else submit trajectory_dir.

(** The key of the sort in [process]. *)
Definition trajectory_key (x : string) : result key :=
  let suffix := last (split "_" x) EmptyString in
  if isdigit suffix then
    match int suffix with
    | Some n => Ok (KInt n)
    | None => Raise ValueError
    end
  else Ok KInf.

(** The list that the comprehension of [process] keeps. *)
Definition trajectory_candidates (base_folder : string) (fs : node)
  (names : list string) : list string :=
  filter (fun d => isdir E fs (join base_folder d)
                   && startswith d "trajectory_") names.

Section Process.
Variables (base_folder subfolder_name : string) (run_index : Z)
  (helpers_dir : option string) (dry_run : bool).

(** The body of the loop of [process] for one [folder]. *)
Definition process_folder (folder : string) : M unit :=
  let traj_dir := join base_folder folder in
  let source_dir := join traj_dir subfolder_name in
  let outcar_path := join source_dir "OUTCAR" in
  has_source <- gets (fun fs => isdir E fs source_dir) ;;
  if negb has_source then
    print ("Skipping " ++ folder ++ ": missing subfolder '"
           ++ subfolder_name ++ "'.")
  else
  has_outcar <- gets (fun fs => isfile E fs outcar_path) ;;
  if negb has_outcar then
    print ("Skipping " ++ folder ++ ": missing OUTCAR in '"
           ++ subfolder_name ++ "'.")
  else
  converged <- gets (is_converged outcar_path) ;;
  if converged then
    print ("Converged: " ++ folder ++ "/" ++ subfolder_name)
  else
  print ("Not converged: " ++ folder ++ "/" ++ subfolder_name
         ++ " -> creating rerun folder") ;;
  let rerun_dir_name := subfolder_name ++ "_run" ++ str_of_Z run_index in
  let rerun_dir := join traj_dir rerun_dir_name in
  rerun_exists <- gets (fun fs => exists_ E fs rerun_dir) ;;
  (if rerun_exists then
     print ("Rerun folder already exists: " ++ folder ++ "/"
            ++ rerun_dir_name ++ ". Will reuse it.")
   else if dry_run then
     print ("[DRY-RUN] Would copy folder: " ++ source_dir ++ " -> "
            ++ rerun_dir)
   else shutil_copytree source_dir rerun_dir) ;;
  except_FileNotFoundError
    (prepare_and_submit_rerun source_dir rerun_dir traj_dir helpers_dir
       false dry_run)
    (fun msg =>
       print msg ;;
       print ("Skipping submission for " ++ folder ++ "/" ++ rerun_dir_name
              ++ " due to missing helper file(s).")).

(** [process(base_folder, subfolder_name, run_index, helpers_dir,
    dry_run)] *)
Definition process : M unit :=
  names <- reads (fun fs => listdir E fs base_folder) ;;
  candidates <- gets (fun fs => trajectory_candidates base_folder fs names) ;;
  trajectory_dirs <- reads (fun _ => sorted trajectory_key candidates) ;;
  for_each process_folder trajectory_dirs.

End Process.
End WithEnv.
End Script.

(* ================================================================== *)
(** * Vocabulary of the specification *)
(* ================================================================== *)

Module Spec.
Import PyStr OsPath Fs Os Eff Sorting Script.

(** The places the Helper Locator looks at, in order: the explicit
    directory when one is given, the working directory, the directory
    the script is installed in. *)
Definition helper_locations (E : env) (name : string)
  (explicit_dir : option string) : list string :=
  (match explicit_dir with
   | Some d => [abspath E (join d name)]
   | None => []
   end ++
   [abspath E (join (getcwd E) name);
    join (dirname (abspath E (script_file E))) name])%list.

(** The error of a Helper Locator that finds nothing. *)
Definition NotFound (name : string) : exn :=
  FileNotFoundError ("Could not find required file: " ++ name).



(** The diagnostics of a log: what was printed. *)
Fixpoint diagnostics (log : list event) : list string :=
  match log with
  | [] => []
  | Print line :: log' => line :: diagnostics log'
  | _ :: log' => diagnostics log'
  end.

(** Every event a computation logs satisfies [P], whatever the state it
    starts in. *)
Definition logs_only {A} (P : event -> Prop) (m : M A) : Prop :=
  forall fs, Forall P (out_log (m fs)).

(** The bytes of a write of the entry-point script are [bytes]. *)
Definition writes_script (bytes : string) (ev : event) : Prop :=
  match ev with
  | WriteFile _ b => b = bytes
  | _ => True
  end.

(** The errors of the system calls, as opposed to the Helper Locator's
    own [NotFound] and to the ValueError of [int]. *)
Definition os_error (e : exn) : bool :=
  match e with
  | FileNotFoundError msg => startswith msg "[Errno 2]"
  | ValueError => false
  | _ => true
  end.

(** Every exception a computation can end with satisfies [P]. *)
Definition raises_only {A} (P : exn -> Prop) (m : M A) : Prop :=
  forall fs e, out_res (m fs) = Raise e -> P e.

(** Names for parts of the script's functions, to speak about the
    states in between. *)
Section Parts.
Variable E : env.
Local Open Scope eff_scope.

(** The end of the Rerun Preparer: the permission bits and the
    submission. *)
Definition prepare_finish (trajectory_dir : string) (dry_run : bool)
  : M unit :=
  let dst_script_traj := join trajectory_dir "script_rerun.sh" in
  except_Exception
    (mode_traj <- reads (fun fs => stat_mode E fs dst_script_traj) ;;
     os_chmod E dst_script_traj (Z.lor mode_traj 73))
    (ret tt) ;;
  if dry_run then
    print ("[DRY-RUN] Would submit: sbatch script_rerun.sh (cwd="
           ++ trajectory_dir ++ ")")
  else submit E trajectory_dir.

(** The Rerun Preparer from the copy of the scheduler script on. *)
Definition prepare_tail (run_dir trajectory_dir : string)
  (copy_to_run_dir dry_run : bool) (src_script : string) : M unit :=
  let dst_script_traj := join trajectory_dir "script_rerun.sh" in
  shutil_copy2 E src_script dst_script_traj ;;
  (if copy_to_run_dir then
     write_file E (join run_dir "01_submit_rerun.py")
       (submit_contents (basename run_dir)) ;;
     shutil_copy2 E src_script (join run_dir "script_rerun.sh")
   else ret tt) ;;
  prepare_finish trajectory_dir dry_run.

Variables (base_folder subfolder_name : string) (run_index : Z)
  (helpers_dir : option string) (dry_run : bool).

Definition rerun_dir_name : string :=
  subfolder_name ++ "_run" ++ str_of_Z run_index.

(** The staging of the rerun directory of [folder]: reuse, report or
    copy. *)
Definition stage (folder : string) : M unit :=
  let traj_dir := join base_folder folder in
  let source_dir := join traj_dir subfolder_name in
  let rerun_dir := join traj_dir rerun_dir_name in
  rerun_exists <- gets (fun fs => exists_ E fs rerun_dir) ;;
  if rerun_exists then
    print ("Rerun folder already exists: " ++ folder ++ "/"
           ++ rerun_dir_name ++ ". Will reuse it.")
  else if dry_run then
    print ("[DRY-RUN] Would copy folder: " ++ source_dir ++ " -> "
           ++ rerun_dir)
  else shutil_copytree E source_dir rerun_dir.

(** What the loop does when the Rerun Preparer raises
    FileNotFoundError. *)
Definition skip_submission (folder msg : string) : M unit :=
  print msg ;;
  print ("Skipping submission for " ++ folder ++ "/" ++ rerun_dir_name
         ++ " due to missing helper file(s).").

(** The call of the Rerun Preparer for [folder] inside its [try]. *)
Definition attempt (folder : string) : M unit :=
  let traj_dir := join base_folder folder in
  except_FileNotFoundError
    (prepare_and_submit_rerun E (join traj_dir subfolder_name)
       (join traj_dir rerun_dir_name) traj_dir helpers_dir false dry_run)
    (skip_submission folder).


End Parts.

(** The places where the Helper Locator looks for [name] are neither
    in nor above the base directory. *)
Definition helpers_outside (E : env) (base name : string)
  (explicit_dir : option string) : bool :=
  match resolve E base with
  | Some B =>
      forallb (fun c => match resolve E c with
                        | Some h => apartb B h
                        | None => false
                        end)
        (helper_locations E name explicit_dir)
  | None => false
  end.

(** The names of what the script makes in a trajectory directory. *)
Definition generated_names (sub : string) (idx : Z) : list string :=
  [rerun_dir_name sub idx; "01_submit_rerun.py"; "script_rerun.sh"].

(** [t] comes from [s] by changes at or below places [B/T/x], with [x]
    among the names [X]: the tree has grown, everything that is apart
    from all these places is as it was, and [B] lists the same names. *)
Definition extends (B X : list string) (s t : node) : Prop :=
  grows s t /\
  (forall q, (forall T x, In x X -> apart (B ++ [T; x]) q) ->
             get q t = get q s) /\
  entry_names B t = entry_names B s.

(** A place at or below [B/T/x] with [x] among [X]. *)
Definition below_generated (B X : list string) (T : string)
  (p : list string) : Prop :=
  exists x r, In x X /\ p = (B ++ [T; x] ++ r)%list.

(** [extends], from a state in which the trajectory directory [B/T] is
    there. *)
Definition later (B X : list string) (T : string) (s s' : node) : Prop :=
  is_dir_at (B ++ [T])%list s = true -> extends B X s s'.


(** Whatever the state a computation starts in, the state it ends in
    is related to it by [R]. *)
Definition steps {A} (R : node -> node -> Prop) (m : M A) : Prop :=
  forall fs, R fs (out_fs (m fs)).



End Spec.

(* ================================================================== *)
(** * Concrete worlds, used to run the script *)
(* ================================================================== *)

Module Scenario.
Import PyStr Fs Eff.

(** Working directory [/work]; the script is installed in [/opt/tools];
    an ASCII locale; the scheduler accepts every job. *)
Definition world : env := {|
  cwd := ["work"];
  script_file := "/opt/tools/s_rerun_imp2.py";
  decode := fun bytes => bytes;
  new_file_perm := 420;
  dir_mode := 16877;
  sbatch := fun _ _ => Some (0%Z, "Submitted batch job 1" ++ nl, EmptyString)
|}.

Definition outcar_running : string :=
  " energy without entropy" ++ nl ++ " General timing" ++ nl.

Definition outcar_done : string :=
  " step 41" ++ nl ++
  " reached required accuracy - stopping structural energy minimisation"
  ++ nl.

Definition tools (helpers : list (string * node)) : string * node :=
  ("opt", Dir [("tools", Dir (("s_rerun_imp2.py", File "#!python" 420)
                              :: helpers))]).

Definition helper_script : string * node :=
  ("script_rerun.sh", File "#!/bin/bash" 420).

(** [/work/base] holds the given trajectory directories. *)
Definition root_with (helpers trajectories : list (string * node)) : node :=
  Dir [tools helpers; ("work", Dir [("base", Dir trajectories)])].

Definition opt_running : string * node :=
  ("opt", Dir [("OUTCAR", File outcar_running 420);
               ("CONTCAR", File "Si" 420)]).

Definition opt_done : string * node :=
  ("opt", Dir [("OUTCAR", File outcar_done 420)]).

(** The same world, entered from inside the first trajectory
    directory. *)
Definition world_inside : env := {|
  cwd := ["work"; "base"; "trajectory_0"];
  script_file := script_file world;
  decode := decode world;
  new_file_perm := new_file_perm world;
  dir_mode := dir_mode world;
  sbatch := sbatch world
|}.

(** One trajectory that has not converged. *)
Definition fs_one : node :=
  root_with [helper_script] [("trajectory_0", Dir [opt_running])].

(** The same without the scheduler script anywhere. *)
Definition fs_no_helper : node :=
  root_with [] [("trajectory_0", Dir [opt_running]);
                ("trajectory_1", Dir [opt_running])].

(** A converged trajectory, a file, a running one and an empty one. *)
Definition fs_mixed : node :=
  root_with [helper_script]
    [("trajectory_10", Dir [opt_done]);
     ("notes.txt", File "n" 420);
     ("trajectory_2", Dir [opt_running]);
     ("trajectory_x", Dir [])].

(** U+00B2, SUPERSCRIPT TWO *)
Definition superscript_two : string := String "178"%char EmptyString.

(** A directory whose name ends in a superscript digit. *)
Definition fs_superscript : node :=
  root_with [helper_script]
    [("trajectory_1", Dir [opt_running]);
     ("trajectory_" ++ superscript_two, Dir [opt_running])].

End Scenario.

(* ================================================================== *)
(** * The rest of the script, and more vocabulary *)
(* ================================================================== *)

Module Deprecated.
Import Eff.

(** [update_submit_io_read(trajectory_dir, target_subpath)]: left in the
    script for callers of its earlier version; it only prints. *)
Definition update_submit_io_read (trajectory_dir target_subpath : string)
  : M unit :=
  print ("Info: Skipping regex edit; 01_submit_rerun.py is rewritten to use "
         ++ target_subpath ++ ".").

End Deprecated.

Module Trace.
Import PyStr OsPath Fs Os Eff Sorting Script Spec.

(** The line with which the loop of [process] reports on [folder]. *)
Definition verdict (folder sub line : string) : Prop :=
  line = "Skipping " ++ folder ++ ": missing subfolder '" ++ sub ++ "'." \/
  line = "Skipping " ++ folder ++ ": missing OUTCAR in '" ++ sub ++ "'." \/
  line = "Converged: " ++ folder ++ "/" ++ sub \/
  line = "Not converged: " ++ folder ++ "/" ++ sub
         ++ " -> creating rerun folder".

(** What the loop body for [folder] may do: it prints, and its calls go
    to the trajectory directory [base/folder], to the rerun directory and
    the two scripts in it. *)
Definition in_trajectory (base sub : string) (idx : Z) (folder : string)
  (ev : event) : Prop :=
  let traj := join base folder in
  let rerun := join traj (rerun_dir_name sub idx) in
  match ev with
  | Print _ => True
  | Makedirs p => p = rerun \/ p = traj
  | WriteFile p bytes =>
      p = join traj "01_submit_rerun.py" /\
      bytes = encode_utf8 (submit_contents (basename rerun))
  | Copy2 _ dst => dst = join traj "script_rerun.sh"
  | Copytree src dst => src = join traj sub /\ dst = rerun
  | Chmod p mode => p = join traj "script_rerun.sh" /\ Z.land mode 73 = 73%Z
  | Sbatch workdir => workdir = traj
  end.

(** The same for a batch over [folders]. *)
Definition in_trajectories (base sub : string) (idx : Z)
  (folders : list string) (ev : event) : Prop :=
  match ev with
  | Print _ => True
  | _ => exists folder, In folder folders /\ in_trajectory base sub idx folder ev
  end.

End Trace.

Module Worlds.


End Worlds.

Module Cases.
Import Fs.

(** The place of the rerun directory of the first trajectory is taken by
    a regular file. *)
Definition fs_stray : node :=
  Scenario.root_with [Scenario.helper_script]
    [("trajectory_0", Dir [Scenario.opt_running; ("opt_run1", File "x" 420)]);
     ("trajectory_1", Dir [Scenario.opt_running])].

(** A converged trajectory and one without the subfolder. *)
Definition fs_settled : node :=
  Scenario.root_with [Scenario.helper_script]
    [("trajectory_10", Dir [Scenario.opt_done]); ("trajectory_x", Dir [])].

(** A base directory without trajectory directories. *)
Definition fs_plain : node :=
  Scenario.root_with [] [("notes.txt", File "n" 420)].

End Cases.

Module Counting.
Import PyStr OsPath Fs Os Eff Sorting Script Spec.

(** How many events of a log satisfy [p]. *)
Definition count (p : event -> bool) (log : list event) : nat :=
  List.length (filter p log).

Definition is_submission (ev : event) : bool :=
  match ev with Sbatch _ => true | _ => false end.

Definition is_tree_copy (ev : event) : bool :=
  match ev with Copytree _ _ => true | _ => false end.

(** Whatever the state it starts in, a computation logs at most [n]
    events that satisfy [p]. *)
Definition at_most {A} (p : event -> bool) (n : nat) (m : M A) : Prop :=
  forall fs, (count p (out_log (m fs)) <= n)%nat.

(** The line that the loop of [process] has to print first for [folder]
    in the state [fs]. *)
Definition expected_verdict (E : env) (fs : node) (base sub folder : string)
  : string :=
  let source_dir := join (join base folder) sub in
  let outcar_path := join source_dir "OUTCAR" in
  if negb (isdir E fs source_dir) then
    "Skipping " ++ folder ++ ": missing subfolder '" ++ sub ++ "'."
  else if negb (isfile E fs outcar_path) then
    "Skipping " ++ folder ++ ": missing OUTCAR in '" ++ sub ++ "'."
  else if is_converged E outcar_path fs then
    "Converged: " ++ folder ++ "/" ++ sub
  else
    "Not converged: " ++ folder ++ "/" ++ sub ++ " -> creating rerun folder".

End Counting.

(* ================================================================== *)
(** * Facts about strings *)
(* ================================================================== *)

Module PyStrFacts.
Import PyStr.

Lemma startswith_spec (s p : string) :
  startswith s p = true <-> exists t, s = p ++ t.
Proof.
  revert s; induction p as [|b p IH]; intros s; simpl.
  - split; [intros _; now exists s | reflexivity].
  - destruct s as [|a s]; simpl.
    + split; [discriminate | intros [t H]; discriminate].
    + rewrite andb_true_iff, Ascii.eqb_eq, IH. split.
      * intros [-> [t ->]]. now exists t.
      * intros [t H]. injection H as -> ->. split; [reflexivity | now exists t].
Qed.

Lemma str_in_spec (needle hay : string) :
  str_in needle hay = true <-> occurs needle hay.
Proof.
  unfold occurs. induction hay as [|c hay IH]; simpl.
  - rewrite orb_false_r, startswith_spec. split.
    + intros [t H]. exists EmptyString, t. exact H.
    + intros [[|a pre] [post H]]; [now exists post | discriminate].
  - rewrite orb_true_iff, startswith_spec, IH. split.
    + intros [[t H] | [pre [post H]]].
      * exists EmptyString, t. exact H.
      * exists (String c pre), post. simpl. now rewrite H.
    + intros [[|a pre] [post H]].
      * left. now exists post.
      * right. injection H as -> ->. now exists pre, post.
Qed.







End PyStrFacts.

Module SplitFacts.
Import PyStr.
Local Open Scope list_scope.

Lemma split_not_nil (sep : ascii) (s : string) : split sep s <> [].
Proof.
  destruct s as [|c s]; simpl; [discriminate|].
  destruct (Ascii.eqb c sep); [discriminate|].
  destruct (split sep s); discriminate.
Qed.

Lemma cons_head_app (c : ascii) (l1 l2 : list string) :
  l1 <> [] -> cons_head c (l1 ++ l2) = cons_head c l1 ++ l2.
Proof. destruct l1; [congruence | reflexivity]. Qed.

(** Splitting at a separator splits the list of components. *)
Lemma split_app_sep (sep : ascii) (a b : string) :
  split sep (a ++ String sep b)%string = split sep a ++ split sep b.
Proof.
  induction a as [|c a IH]; simpl.
  - now rewrite Ascii.eqb_refl.
  - destruct (Ascii.eqb c sep); rewrite IH; [reflexivity|].
    apply cons_head_app, split_not_nil.
Qed.

(** A string without the separator is its own single component. *)
Lemma split_no_sep (sep : ascii) (s : string) :
  all_chars (fun c => negb (Ascii.eqb c sep)) s = true ->
  split sep s = [s].
Proof.
  induction s as [|c s IH]; simpl; [reflexivity|].
  intros H. apply andb_true_iff in H as [Hc Hs].
  apply negb_true_iff in Hc. rewrite Hc, (IH Hs). reflexivity.
Qed.

(** Appending a string without separator extends the last component. *)
Lemma split_app_no_sep (sep : ascii) (a b : string) :
  all_chars (fun c => negb (Ascii.eqb c sep)) b = true ->
  split sep (a ++ b)%string =
  removelast (split sep a) ++ [(last (split sep a) EmptyString ++ b)%string].
Proof.
  intros Hb. induction a as [|c a IH].
  - simpl. now apply split_no_sep.
  - cbn [append split]. destruct (Ascii.eqb c sep).
    + rewrite IH.
      pose proof (split_not_nil sep a) as Hne.
      destruct (split sep a) as [|x l]; [congruence|]. reflexivity.
    + rewrite IH.
      pose proof (split_not_nil sep a) as Hne.
      destruct (split sep a) as [|x [|y l]]; [congruence| |]; reflexivity.
Qed.

Lemma last_app_cons {A} (l1 l2 : list A) (x d : A) :
  last (l1 ++ x :: l2) d = last (x :: l2) d.
Proof.
  induction l1 as [|a l1 IH]; [reflexivity|].
  cbn [app]. rewrite <- IH. destruct (l1 ++ x :: l2) eqn:E; [|reflexivity].
  destruct l1; discriminate.
Qed.

(** The last component of [pre ++ sep ++ c] is [c] when [c] has no
    separator. *)
Lemma last_split_suffix (sep : ascii) (pre c : string) :
  all_chars (fun x => negb (Ascii.eqb x sep)) c = true ->
  last (split sep (pre ++ String sep c)%string) EmptyString = c.
Proof.
  intros Hc. rewrite split_app_sep, (split_no_sep _ _ Hc).
  now rewrite last_app_cons.
Qed.

End SplitFacts.

(* ================================================================== *)
(** * Facts about the sort *)
(* ================================================================== *)

Module SortingFacts.
Import Sorting.

Lemma key_leb_refl (k : key) : key_leb k k = true.
Proof. destruct k; simpl; [apply Z.leb_refl | reflexivity]. Qed.

Lemma key_leb_total (a b : key) : key_leb a b = false -> key_leb b a = true.
Proof.
  destruct a, b; simpl; try congruence.
  rewrite Z.leb_gt, Z.leb_le. lia.
Qed.

Lemma key_leb_trans (a b c : key) :
  key_leb a b = true -> key_leb b c = true -> key_leb a c = true.
Proof.
  destruct a, b, c; simpl; try congruence.
  rewrite !Z.leb_le. lia.
Qed.

Lemma key_eqb_eq (a b : key) : key_eqb a b = true <-> a = b.
Proof.
  destruct a, b; simpl; try (split; congruence).
  rewrite Z.eqb_eq. split; congruence.
Qed.

Section Facts.
Context {A : Type}.
Implicit Types (l d : list (key * A)) (kx : key * A).

Lemma insert_perm kx l : Permutation (kx :: l) (insert kx l).
Proof.
  induction l as [|ky l IH]; simpl; [reflexivity|].
  destruct (key_leb (fst kx) (fst ky)); [reflexivity|].
  rewrite perm_swap. now constructor.
Qed.

Lemma stable_sort_perm l : Permutation l (stable_sort l).
Proof.
  induction l as [|kx l IH]; simpl; [constructor|].
  rewrite <- insert_perm. now constructor.
Qed.

Lemma insert_sorted kx l :
  StronglySorted by_key l -> StronglySorted by_key (insert kx l).
Proof.
  induction 1 as [|ky l Hs IH Hall]; simpl.
  - repeat constructor.
  - destruct (key_leb (fst kx) (fst ky)) eqn:Hle.
    + constructor; [now constructor|].
      constructor; [exact Hle|].
      eapply Forall_impl; [|exact Hall].
      intros kz Hz. unfold by_key in *. eapply key_leb_trans; eauto.
    + constructor; [exact IH|].
      eapply Permutation_Forall; [apply insert_perm|].
      constructor; [|exact Hall].
      now apply key_leb_total.
Qed.

Lemma stable_sort_sorted l : StronglySorted by_key (stable_sort l).
Proof.
  induction l as [|kx l IH]; simpl; [constructor|].
  now apply insert_sorted.
Qed.

(** Inserting does not change the order among the elements of one key. *)
Lemma insert_filter (k : key) kx l :
  filter (fun a => key_eqb (fst a) k) (insert kx l) =
  filter (fun a => key_eqb (fst a) k) (kx :: l).
Proof.
  induction l as [|ky l IH]; [reflexivity|].
  cbn [insert]. destruct (key_leb (fst kx) (fst ky)) eqn:Hle; [reflexivity|].
  cbn [filter] in *. rewrite IH.
  destruct (key_eqb (fst kx) k) eqn:Ex, (key_eqb (fst ky) k) eqn:Ey;
    try reflexivity.
  apply key_eqb_eq in Ex, Ey. rewrite Ex, Ey, key_leb_refl in Hle.
  discriminate.
Qed.

Lemma stable_sort_filter (k : key) l :
  filter (fun a => key_eqb (fst a) k) (stable_sort l) =
  filter (fun a => key_eqb (fst a) k) l.
Proof.
  induction l as [|kx l IH]; [reflexivity|].
  cbn [stable_sort]. rewrite insert_filter. cbn [filter]. now rewrite IH.
Qed.

Variable f : A -> result key.

Lemma decorate_ok (xs : list A) d :
  decorate f xs = Ok d ->
  map snd d = xs /\ Forall (fun kx => f (snd kx) = Ok (fst kx)) d.
Proof.
  revert d. induction xs as [|x xs IH]; simpl; intros d H.
  - injection H as <-. split; constructor.
  - destruct (f x) as [k|] eqn:Hf; [|discriminate].
    destruct (decorate f xs) as [d'|]; [|discriminate].
    injection H as <-. destruct (IH d' eq_refl) as [Hm Hall].
    simpl. split; [now rewrite Hm | now constructor].
Qed.

(** The call fails exactly when a key fails. *)
Lemma decorate_total (xs : list A) :
  Forall (fun x => exists k, f x = Ok k) xs -> exists d, decorate f xs = Ok d.
Proof.
  induction 1 as [|x xs [k Hk] _ [d Hd]]; simpl.
  - now exists [].
  - rewrite Hk, Hd. now eexists.
Qed.

Lemma decorate_raise (xs : list A) (e : exn) :
  decorate f xs = Raise e -> exists x, In x xs /\ f x = Raise e.
Proof.
  induction xs as [|x xs IH]; simpl; [discriminate|].
  destruct (f x) as [k|e'] eqn:Hf.
  - destruct (decorate f xs) as [d|e']; [discriminate|].
    intros H. injection H as ->. destruct (IH eq_refl) as [y [Hy He]].
    exists y. auto.
  - intros H. injection H as ->. exists x. auto.
Qed.

Lemma undecorate_sorted d :
  Forall (fun kx => f (snd kx) = Ok (fst kx)) d ->
  StronglySorted by_key d -> StronglySorted (key_order f) (map snd d).
Proof.
  intros Hd Hs. induction Hs as [|kx d Hs IH Hall]; simpl; [constructor|].
  inversion Hd as [|? ? Hkx Hd']; subst.
  constructor; [now apply IH|].
  apply Forall_map. rewrite Forall_forall in *.
  intros ky Hy. exists (fst kx), (fst ky).
  repeat split; auto. now apply Hall.
Qed.

Lemma undecorate_filter (k : key) d :
  Forall (fun kx => f (snd kx) = Ok (fst kx)) d ->
  map snd (filter (fun a => key_eqb (fst a) k) d) =
  filter (has_key f k) (map snd d).
Proof.
  induction 1 as [|kx d Hkx _ IH]; [reflexivity|].
  cbn [filter map]. unfold has_key at 1. rewrite Hkx.
  destruct (key_eqb (fst kx) k); simpl; now rewrite IH.
Qed.

(** What [sorted(l, key=f)] returns: the same elements, in an order that
    does not decrease by key, those of equal key in the order they came. *)
Lemma sorted_spec (xs ys : list A) :
  sorted f xs = Ok ys ->
  Permutation xs ys /\ StronglySorted (key_order f) ys /\
  forall k, filter (has_key f k) ys = filter (has_key f k) xs.
Proof.
  unfold sorted. destruct (decorate f xs) as [d|] eqn:Hd; [|discriminate].
  intros H. injection H as <-.
  destruct (decorate_ok _ _ Hd) as [Hm Hall].
  assert (Hall' : Forall (fun kx => f (snd kx) = Ok (fst kx)) (stable_sort d)).
  { eapply Permutation_Forall; [apply stable_sort_perm | exact Hall]. }
  split; [|split].
  - rewrite <- Hm. apply Permutation_map, stable_sort_perm.
  - apply undecorate_sorted; [exact Hall' | apply stable_sort_sorted].
  - intros k. rewrite <- (undecorate_filter k _ Hall').
    rewrite stable_sort_filter, (undecorate_filter k _ Hall). now rewrite Hm.
Qed.

Lemma sorted_total (xs : list A) :
  Forall (fun x => exists k, f x = Ok k) xs -> exists ys, sorted f xs = Ok ys.
Proof.
  intros H. destruct (decorate_total _ H) as [d Hd].
  unfold sorted. rewrite Hd. now eexists.
Qed.

Lemma sorted_raise (xs : list A) (e : exn) :
  sorted f xs = Raise e -> exists x, In x xs /\ f x = Raise e.
Proof.
  unfold sorted. destruct (decorate f xs) eqn:Hd; [discriminate|].
  intros H. injection H as ->. now apply decorate_raise.
Qed.

End Facts.
End SortingFacts.

(* ================================================================== *)
(** * The Convergence Oracle *)
(* ================================================================== *)

Module OracleFacts.
Import PyStr OsPath Fs Os Eff Script Spec PyStrFacts.




(** The oracle says yes only for a regular file. *)
Lemma is_converged_file (E : env) (fs : node) (path : string) :
  is_converged E path fs = true ->
  exists bytes perm, lookup E fs path = Some (File bytes perm).
Proof.
  unfold is_converged, read_text.
  destruct (lookup E fs path) as [[bytes perm | es] |]; try discriminate.
  intros _. now exists bytes, perm.
Qed.


End OracleFacts.

(* ================================================================== *)
(** * The Helper Locator *)
(* ================================================================== *)

Module LocatorFacts.
Import PyStr OsPath Fs Os Eff Script Spec PyStrFacts.

Lemma join_empty (b : string) : join EmptyString b = b.
Proof. unfold join. destruct (startswith b "/"); reflexivity. Qed.

Lemma getcwd_isabs (E : env) (t : string) : isabs (getcwd E ++ t) = true.
Proof. reflexivity. Qed.

Lemma join_getcwd_isabs (E : env) (b : string) :
  isabs (join (getcwd E) b) = true.
Proof.
  unfold join. destruct (startswith b "/") eqn:Hb; [exact Hb|].
  destruct (_ || _); apply getcwd_isabs.
Qed.

(** Joining the working directory in front changes nothing for
    [abspath]. *)
Lemma abspath_join_getcwd (E : env) (p : string) :
  abspath E (join (getcwd E) p) = abspath E p.
Proof.
  unfold abspath at 1. rewrite join_getcwd_isabs.
  unfold abspath. destruct (isabs p) eqn:Hp; [|reflexivity].
  unfold join. unfold isabs in Hp. now rewrite Hp.
Qed.

(** The locator is a search through its locations. *)
Lemma find_helper_file_find (E : env) (name : string)
  (explicit_dir : option string) (fs : node) :
  find_helper_file E name explicit_dir fs =
  match find (isfile E fs) (helper_locations E name explicit_dir) with
  | Some path => Ok path
  | None => Raise (NotFound name)
  end.
Proof.
  unfold find_helper_file, helper_locations, NotFound.
  destruct explicit_dir as [[|c d]|]; cbn [app find].
  - rewrite join_empty, abspath_join_getcwd.
    destruct (isfile E fs (abspath E name)); [reflexivity|].
    destruct (isfile E fs _); reflexivity.
  - destruct (isfile E fs (abspath E (join (String c d) name)));
      [reflexivity|].
    destruct (isfile E fs (abspath E (join (getcwd E) name)));
      [reflexivity|].
    destruct (isfile E fs _); reflexivity.
  - destruct (isfile E fs (abspath E (join (getcwd E) name)));
      [reflexivity|].
    destruct (isfile E fs _); reflexivity.
Qed.

(** C5. The Helper Locator looks at the explicit directory (when one is
    given), then the working directory, then the script's directory, and
    returns the path of the first of these that is a regular file,
    whatever the later ones hold; when none is, it raises
    FileNotFoundError. It leaves the file system as it is. *)
Theorem find_helper_file_first_match (E : env) (name : string)
  (explicit_dir : option string) (fs : node) :
  find_helper_file E name explicit_dir fs =
  match find (isfile E fs) (helper_locations E name explicit_dir) with
  | Some path => Ok path
  | None => Raise (FileNotFoundError
                     ("Could not find required file: " ++ name))
  end.
Proof. apply find_helper_file_find. Qed.

(** The locator raises nothing but its own error. *)
Lemma find_helper_file_raise (E : env) (name : string)
  (explicit_dir : option string) (fs : node) (e : exn) :
  find_helper_file E name explicit_dir fs = Raise e -> e = NotFound name.
Proof.
  rewrite find_helper_file_find.
  destruct (find _ _); [discriminate | congruence].
Qed.

Lemma find_helper_file_isfile (E : env) (name : string)
  (explicit_dir : option string) (fs : node) (path : string) :
  find_helper_file E name explicit_dir fs = Ok path ->
  isfile E fs path = true.
Proof.
  rewrite find_helper_file_find.
  destruct (find _ _) eqn:Hf; [|discriminate].
  intros H. injection H as <-. now apply find_some in Hf.
Qed.

End LocatorFacts.

(* ================================================================== *)
(** * Which directories are processed, and in which order *)
(* ================================================================== *)

Module OrderFacts.
Import PyStr OsPath Fs Os Eff Sorting Script Spec.
Import PyStrFacts SplitFacts SortingFacts.

Lemma int_acc_decimal (s : string) (acc n : Z) :
  int_acc acc s = Some n -> all_chars is_decimal s = true.
Proof.
  revert acc. induction s as [|c s IH]; intros acc; simpl; [reflexivity|].
  destruct (is_decimal c); [|discriminate].
  intros H. simpl. now apply IH in H.
Qed.

Lemma int_decimal (s : string) (n : Z) :
  int s = Some n -> s <> EmptyString /\ all_chars is_decimal s = true.
Proof.
  destruct s as [|c s]; [discriminate|]. unfold int. intros H.
  split; [discriminate | now apply int_acc_decimal in H].
Qed.

Lemma all_chars_impl (f g : ascii -> bool) (s : string) :
  (forall c, f c = true -> g c = true) ->
  all_chars f s = true -> all_chars g s = true.
Proof.
  intros Hfg. induction s as [|c s IH]; simpl; [reflexivity|].
  rewrite !andb_true_iff. intros [Hc Hs]. auto.
Qed.

Lemma decimal_not_underscore (c : ascii) :
  is_decimal c = true -> negb (Ascii.eqb c "_") = true.
Proof.
  intros H. apply negb_true_iff, Ascii.eqb_neq. intros ->. discriminate.
Qed.

(** The key looks at nothing but the last component. *)
Lemma trajectory_key_suffix (pre c : string) :
  all_chars (fun x => negb (Ascii.eqb x "_")) c = true ->
  trajectory_key (pre ++ "_" ++ c) =
  if isdigit c then
    match int c with Some n => Ok (KInt n) | None => Raise ValueError end
  else Ok KInf.
Proof.
  intros Hc. unfold trajectory_key.
  change (pre ++ "_" ++ c) with (pre ++ String "_" c).
  now rewrite (last_split_suffix _ _ _ Hc).
Qed.

Lemma trajectory_key_int (pre c : string) (n : Z) :
  int c = Some n -> trajectory_key (pre ++ "_" ++ c) = Ok (KInt n).
Proof.
  intros Hn. destruct (int_decimal _ _ Hn) as [Hne Hdec].
  rewrite trajectory_key_suffix.
  - rewrite Hn. unfold isdigit. destruct c as [|a c]; [congruence|].
    erewrite all_chars_impl; [reflexivity | | exact Hdec].
    intros x Hx. unfold char_isdigit. now rewrite Hx.
  - eapply all_chars_impl; [|exact Hdec]. apply decimal_not_underscore.
Qed.

(** C10. The comprehension of [process] keeps every listed name that is
    a directory and starts with [trajectory_], whatever follows the
    prefix (nothing, or something that is no number); the sort key is the
    integer value of the last component between underscores alone, and
    [float("inf")] when that component is not made of digits. *)
Theorem trajectory_selection_and_key :
  (forall E base fs names d,
     In d (trajectory_candidates E base fs names) <->
     In d names /\ isdir E fs (join base d) = true /\
     exists rest, d = "trajectory_" ++ rest) /\
  (forall pre c n,
     int c = Some n -> trajectory_key (pre ++ "_" ++ c) = Ok (KInt n)) /\
  (forall pre c,
     all_chars (fun x => negb (Ascii.eqb x "_")) c = true ->
     isdigit c = false -> trajectory_key (pre ++ "_" ++ c) = Ok KInf).
Proof.
  split; [|split].
  - intros E base fs names d. unfold trajectory_candidates.
    rewrite filter_In, andb_true_iff, startswith_spec. tauto.
  - intros pre c n. apply trajectory_key_int.
  - intros pre c Hc Hd. rewrite (trajectory_key_suffix _ _ Hc). now rewrite Hd.
Qed.

(** Names with an empty or a non-numeric suffix are kept, a name with
    several underscores is ordered by its last component. *)
Lemma trajectory_selection_and_key_witness :
  In "trajectory_abc"
    (trajectory_candidates Scenario.world "base"
       (Scenario.root_with [] [("trajectory_abc", Dir []); ("trajectory_", Dir [])])
       ["trajectory_abc"; "trajectory_"; "other_1"]) /\
  trajectory_key ("trajectory_3" ++ "_" ++ "007") = Ok (KInt 7) /\
  trajectory_key ("trajectory" ++ "_" ++ "abc") = Ok KInf /\
  trajectory_key ("trajectory" ++ "_" ++ EmptyString) = Ok KInf.
Proof.
  destruct trajectory_selection_and_key as [Hsel [Hint Hinf]].
  split; [|split; [|split]].
  - apply Hsel. split; [now left|]. split; [reflexivity|]. now exists "abc".
  - apply Hint. reflexivity.
  - apply Hinf; reflexivity.
  - apply Hinf; reflexivity.
Defined.

(** What the sort of [process] gives when it returns: the directories
    in an order that does not decrease by key, so that the numbered ones
    come in the order of their numbers and before all the others, which
    stay in the order of the listing. *)
Lemma trajectory_order (names sorted_names : list string) :
  sorted trajectory_key names = Ok sorted_names ->
  Permutation names sorted_names /\
  StronglySorted (key_order trajectory_key) sorted_names /\
  filter (has_key trajectory_key KInf) sorted_names =
  filter (has_key trajectory_key KInf) names.
Proof.
  intros H. destruct (sorted_spec _ _ _ H) as [Hp [Hs Hf]]. auto.
Qed.

(** The sort fails only on a name whose last component [isdigit] accepts
    and [int] refuses. *)
Lemma trajectory_order_raise (names : list string) (e : exn) :
  sorted trajectory_key names = Raise e ->
  e = ValueError /\
  exists x, In x names /\
    isdigit (last (split "_" x) EmptyString) = true /\
    int (last (split "_" x) EmptyString) = None.
Proof.
  intros H. apply sorted_raise in H as [x [Hin Hx]].
  unfold trajectory_key in Hx.
  destruct (isdigit _) eqn:Hd; [|discriminate].
  destruct (int _) eqn:Hi; [discriminate|].
  injection Hx as <-. split; [reflexivity|]. now exists x.
Qed.

(** C4 (defect). With a directory named [trajectory_] followed by U+00B2
    in the base directory, the sort key raises ValueError ([isdigit]
    accepts the superscript, [int] does not) and [process] ends there,
    before any trajectory is looked at; the specification orders such a
    name after the numbered ones. *)
Theorem process_superscript_suffix_raises :
  let out := process Scenario.world "base" "opt" 1 None false
               Scenario.fs_superscript in
  listdir Scenario.world Scenario.fs_superscript "base" =
    Ok ["trajectory_1"; "trajectory_" ++ Scenario.superscript_two] /\
  isdigit Scenario.superscript_two = true /\
  int Scenario.superscript_two = None /\
  out_res out = Raise ValueError /\
  out_log out = [] /\
  out_fs out = Scenario.fs_superscript.
Proof. vm_compute. repeat split. Qed.

End OrderFacts.

(* ================================================================== *)
(** * What a computation logs *)
(* ================================================================== *)

Module LogFacts.
Import PyStr OsPath Fs Os Eff Script Spec.
Local Open Scope list_scope.

Section LogsOnly.
Variable P : event -> Prop.

Lemma logs_only_ret {A} (a : A) : logs_only P (ret a).
Proof. intros fs. constructor. Qed.

Lemma logs_only_gets {A} (f : node -> A) : logs_only P (gets f).
Proof. intros fs. constructor. Qed.

Lemma logs_only_reads {A} (f : node -> result A) : logs_only P (reads f).
Proof. intros fs. constructor. Qed.

Lemma logs_only_emit (ev : event) : P ev -> logs_only P (emit ev).
Proof. intros H fs. repeat constructor. exact H. Qed.

Lemma logs_only_writes (ev : event) (f : node -> result node) :
  P ev -> logs_only P (writes ev f).
Proof.
  intros H fs. unfold writes. destruct (f fs); repeat constructor; exact H.
Qed.

Lemma logs_only_bind {A B} (m : M A) (k : A -> M B) :
  logs_only P m -> (forall a, logs_only P (k a)) -> logs_only P (bind m k).
Proof.
  intros Hm Hk fs. unfold bind. specialize (Hm fs).
  destruct (out_res (m fs)) as [a|e]; simpl; [|exact Hm].
  apply Forall_app. split; [exact Hm | apply Hk].
Qed.

Lemma logs_only_except_FileNotFoundError {A} (m : M A) (h : string -> M A) :
  logs_only P m -> (forall msg, logs_only P (h msg)) ->
  logs_only P (except_FileNotFoundError m h).
Proof.
  intros Hm Hh fs. unfold except_FileNotFoundError. specialize (Hm fs).
  destruct (out_res (m fs)) as [a|[]]; simpl; try exact Hm.
  apply Forall_app. split; [exact Hm | apply Hh].
Qed.

Lemma logs_only_except_Exception {A} (m h : M A) :
  logs_only P m -> logs_only P h -> logs_only P (except_Exception m h).
Proof.
  intros Hm Hh fs. unfold except_Exception. specialize (Hm fs).
  destruct (out_res (m fs)) as [a|e]; simpl; [exact Hm|].
  apply Forall_app. split; [exact Hm | apply Hh].
Qed.

Lemma logs_only_for_each {A} (body : A -> M unit) (l : list A) :
  (forall x, logs_only P (body x)) -> logs_only P (for_each body l).
Proof.
  intros Hb. induction l as [|x l IH]; simpl.
  - apply logs_only_ret.
  - apply logs_only_bind; [apply Hb | intros _; exact IH].
Qed.

End LogsOnly.

(** Takes a computation of the script apart, leaving the events. *)
Ltac logs :=
  repeat first
    [ apply logs_only_ret | apply logs_only_gets | apply logs_only_reads
    | apply logs_only_bind; [|intros ?]
    | apply logs_only_except_FileNotFoundError; [|intros ?]
    | apply logs_only_except_Exception
    | apply logs_only_for_each; intros ?
    | apply logs_only_emit | apply logs_only_writes
    | match goal with
      | |- logs_only _ (if ?b then _ else _) => destruct b
      | |- logs_only _ (match ?x with _ => _ end) => destruct x
      end ].


Lemma logs_only_prepare (E : env) (P : event -> Prop)
  (src run traj : string) (hd : option string) (copy dry : bool) :
  (forall line, P (Print line)) ->
  (forall p, P (Makedirs p)) ->
  (forall p, P (WriteFile p (encode_utf8 (submit_contents (basename run))))) ->
  (forall a b, P (Copy2 a b)) ->
  (forall p m, P (Chmod p m)) ->
  (dry = false -> P (Sbatch traj)) ->
  logs_only P (prepare_and_submit_rerun E src run traj hd copy dry).
Proof.
  intros Hp Hm Hw Hc Hch Hs.
  unfold prepare_and_submit_rerun, os_makedirs, write_file, shutil_copy2,
    os_chmod, print.
  logs; auto.
Qed.

End LogFacts.

(* ================================================================== *)
(** * Dry runs, converged trajectories, the entry-point script *)
(* ================================================================== *)

Module BatchFacts.
Import PyStr OsPath Fs Os Eff Script Spec.
Import PyStrFacts OracleFacts LogFacts.
Local Open Scope list_scope.


Lemma is_converged_isfile (E : env) (fs : node) (path : string) :
  is_converged E path fs = true -> isfile E fs path = true.
Proof.
  intros H. apply is_converged_file in H as [b [p H]].
  unfold isfile. now rewrite H.
Qed.

(** C7. A trajectory whose OUTCAR the oracle finds converged costs one
    line of output and nothing else: the file system is as before, no
    directory is made, nothing is copied, written or submitted, and the
    loop goes on with the remaining directories from the same state. *)
Theorem converged_only_diagnostic (E : env) (base sub : string) (idx : Z)
  (hd : option string) (dry : bool) (folder : string) (rest : list string)
  (fs : node) :
  isdir E fs (join (join base folder) sub) = true ->
  is_converged E (join (join (join base folder) sub) "OUTCAR") fs = true ->
  process_folder E base sub idx hd dry folder fs =
    Out fs [Print ("Converged: " ++ folder ++ "/" ++ sub)%string] (Ok tt) /\
  for_each (process_folder E base sub idx hd dry) (folder :: rest) fs =
    let o := for_each (process_folder E base sub idx hd dry) rest fs in
    Out (out_fs o)
      (Print ("Converged: " ++ folder ++ "/" ++ sub)%string :: out_log o)
      (out_res o).
Proof.
  intros Hdir Hconv.
  assert (Hone : process_folder E base sub idx hd dry folder fs =
    Out fs [Print ("Converged: " ++ folder ++ "/" ++ sub)%string] (Ok tt)).
  { unfold process_folder, bind, gets, print, emit. simpl.
    rewrite Hdir. simpl. rewrite (is_converged_isfile _ _ _ Hconv). simpl.
    rewrite Hconv. reflexivity. }
  split; [exact Hone|].
  cbn [for_each]. unfold bind at 1. rewrite Hone. reflexivity.
Qed.

Lemma converged_only_diagnostic_witness :
  let E := Scenario.world in
  let fs := Scenario.fs_mixed in
  process_folder E "base" "opt" 1 None false "trajectory_10" fs =
    Out fs [Print "Converged: trajectory_10/opt"] (Ok tt) /\
  diagnostics (out_log (for_each (process_folder E "base" "opt" 1 None false)
                          ["trajectory_10"; "trajectory_x"] fs)) =
    ["Converged: trajectory_10/opt";
     "Skipping trajectory_x: missing subfolder 'opt'."].
Proof.
  destruct (converged_only_diagnostic Scenario.world "base" "opt" 1 None false
              "trajectory_10" ["trajectory_x"] Scenario.fs_mixed
              eq_refl eq_refl) as [H1 H2].
  split; [exact H1|]. rewrite H2. reflexivity.
Defined.

End BatchFacts.

(* ================================================================== *)
(** * Taking runs apart *)
(* ================================================================== *)

Module RunFacts.
Import Fs Eff.
Local Open Scope list_scope.

Lemma outcome_eta {A} (o : outcome A) :
  o = Out (out_fs o) (out_log o) (out_res o).
Proof. now destruct o. Qed.

Lemma bind_inv {A B} (m : M A) (k : A -> M B) fs fs' log (r : result B) :
  bind m k fs = Out fs' log r ->
  (exists a fs1 l1 l2,
      m fs = Out fs1 l1 (Ok a) /\ k a fs1 = Out fs' l2 r /\ log = l1 ++ l2)
  \/ (exists e, m fs = Out fs' log (Raise e) /\ r = Raise e).
Proof.
  unfold bind. destruct (m fs) as [fs1 l1 [a|e]]; simpl; intros H.
  - left. injection H as <- <- <-. exists a, fs1, l1, (out_log (k a fs1)).
    split; [reflexivity|]. split; [apply outcome_eta | reflexivity].
  - right. injection H as <- <- <-. now exists e.
Qed.

Lemma bind_ok {A B} (m : M A) (k : A -> M B) fs fs1 l1 a :
  m fs = Out fs1 l1 (Ok a) ->
  bind m k fs =
  Out (out_fs (k a fs1)) (l1 ++ out_log (k a fs1)) (out_res (k a fs1)).
Proof. intros H. unfold bind. now rewrite H. Qed.

Lemma bind_raise {A B} (m : M A) (k : A -> M B) fs fs1 l1 e :
  m fs = Out fs1 l1 (Raise e) -> bind m k fs = Out fs1 l1 (Raise e).
Proof. intros H. unfold bind. now rewrite H. Qed.

Lemma writes_inv ev f fs fs' log (r : result unit) :
  writes ev f fs = Out fs' log r ->
  log = [ev] /\
  ((f fs = Ok fs' /\ r = Ok tt) \/
   (exists e, f fs = Raise e /\ fs' = fs /\ r = Raise e)).
Proof.
  unfold writes. destruct (f fs) as [fs1|e]; intros H; injection H as <- <- <-.
  - split; [reflexivity|]. now left.
  - split; [reflexivity|]. right. now exists e.
Qed.

Lemma writes_ok ev f fs fs' :
  f fs = Ok fs' -> writes ev f fs = Out fs' [ev] (Ok tt).
Proof. intros H. unfold writes. now rewrite H. Qed.

Lemma writes_raise ev f fs e :
  f fs = Raise e -> writes ev f fs = Out fs [ev] (Raise e).
Proof. intros H. unfold writes. now rewrite H. Qed.

Lemma reads_inv {A} (f : node -> result A) fs fs' log r :
  reads f fs = Out fs' log r -> fs' = fs /\ log = [] /\ r = f fs.
Proof. unfold reads. intros H. injection H as <- <- <-. auto. Qed.

Lemma gets_inv {A} (f : node -> A) fs fs' log r :
  gets f fs = Out fs' log r -> fs' = fs /\ log = [] /\ r = Ok (f fs).
Proof. unfold gets. intros H. injection H as <- <- <-. auto. Qed.

Lemma emit_inv ev fs fs' log (r : result unit) :
  emit ev fs = Out fs' log r -> fs' = fs /\ log = [ev] /\ r = Ok tt.
Proof. unfold emit. intros H. injection H as <- <- <-. auto. Qed.


Lemma except_FileNotFoundError_inv {A} (m : M A) h fs fs' log r :
  except_FileNotFoundError m h fs = Out fs' log r ->
  (exists msg fs1 l1 l2,
      m fs = Out fs1 l1 (Raise (FileNotFoundError msg)) /\
      h msg fs1 = Out fs' l2 r /\ log = l1 ++ l2)
  \/ (m fs = Out fs' log r /\ forall msg, r <> Raise (FileNotFoundError msg)).
Proof.
  unfold except_FileNotFoundError.
  destruct (m fs) as [fs1 l1 [a|[msg| | | | |]]]; simpl; intros H;
    try (right; split; [exact H|]; injection H as <- <- <-;
         intros msg'; discriminate).
  left. injection H as <- <- <-.
  exists msg, fs1, l1, (out_log (h msg fs1)).
  split; [reflexivity|]. split; [apply outcome_eta | reflexivity].
Qed.

Lemma except_Exception_inv {A} (m h : M A) fs fs' log r :
  except_Exception m h fs = Out fs' log r ->
  (exists e fs1 l1 l2,
      m fs = Out fs1 l1 (Raise e) /\ h fs1 = Out fs' l2 r /\ log = l1 ++ l2)
  \/ (exists a, m fs = Out fs' log (Ok a) /\ r = Ok a).
Proof.
  unfold except_Exception.
  destruct (m fs) as [fs1 l1 [a|e]]; simpl; intros H.
  - right. injection H as <- <- <-. now exists a.
  - left. injection H as <- <- <-. exists e, fs1, l1, (out_log (h fs1)).
    split; [reflexivity|]. split; [apply outcome_eta | reflexivity].
Qed.

Lemma for_each_cons {A} (body : A -> M unit) x l fs :
  for_each body (x :: l) fs = bind (body x) (fun _ => for_each body l) fs.
Proof. reflexivity. Qed.

End RunFacts.

(* ================================================================== *)
(** * The entry-point script *)
(* ================================================================== *)

Module EntryScriptFacts.
Import PyStr OsPath Fs Os Eff Script Spec.
Import LogFacts RunFacts.
Local Open Scope list_scope.

(** Every write of a Rerun Preparer call carries the text made from the
    basename of its [run_dir]. *)
Lemma prepare_writes_script (E : env) (src run traj : string)
  (hd : option string) (copy dry : bool) :
  logs_only (writes_script (encode_utf8 (submit_contents (basename run))))
    (prepare_and_submit_rerun E src run traj hd copy dry).
Proof. apply logs_only_prepare; intros; exact I || reflexivity. Qed.

(** A call that returns with [copy_to_run_dir] has written both copies. *)
Lemma prepare_writes_both (E : env) (src run traj : string)
  (hd : option string) (dry : bool) (fs : node) :
  let out := prepare_and_submit_rerun E src run traj hd true dry fs in
  let bytes := encode_utf8 (submit_contents (basename run)) in
  out_res out = Ok tt ->
  In (WriteFile (join traj "01_submit_rerun.py") bytes) (out_log out) /\
  In (WriteFile (join run "01_submit_rerun.py") bytes) (out_log out).
Proof.
  cbv zeta.
  destruct (prepare_and_submit_rerun E src run traj hd true dry fs)
    as [fs' log r] eqn:H.
  cbn [out_res out_log]. intros ->.
  unfold prepare_and_submit_rerun, os_makedirs, write_file, shutil_copy2 in H.
  apply bind_inv in H as [(? & ? & ? & ? & Hm & H & ->) | (? & _ & ?)];
    [|discriminate].
  apply writes_inv in Hm as [-> _].
  apply bind_inv in H as [(? & ? & ? & ? & Hm & H & ->) | (? & _ & ?)];
    [|discriminate].
  apply writes_inv in Hm as [-> _].
  apply bind_inv in H as [(? & ? & ? & ? & Hm & H & ->) | (? & _ & ?)];
    [|discriminate].
  apply writes_inv in Hm as [-> _].
  apply bind_inv in H as [(? & ? & ? & ? & Hm & H & ->) | (? & _ & ?)];
    [|discriminate].
  apply reads_inv in Hm as (-> & -> & _).
  apply bind_inv in H as [(? & ? & ? & ? & Hm & H & ->) | (? & _ & ?)];
    [|discriminate].
  apply writes_inv in Hm as [-> _].
  apply bind_inv in H as [(? & ? & ? & ? & Hm & H & ->) | (? & _ & ?)];
    [|discriminate].
  apply bind_inv in Hm as [(? & ? & ? & ? & Hw & Hm & ->) | (? & _ & ?)];
    [|discriminate].
  apply writes_inv in Hw as [-> _].
  split.
  - right. right. left. reflexivity.
  - right. right. right. right. left. reflexivity.
Qed.

(** C8. The text of the entry-point script depends on the basename of
    [run_dir] and on nothing else: two calls of the Rerun Preparer with
    run directories of the same basename write the same bytes, whatever
    their other arguments, their environments and their states; and a
    call with [copy_to_run_dir] that returns has written these very
    bytes both into the staging directory and into [run_dir]. *)
Theorem entry_script_by_basename :
  (forall E1 E2 src1 src2 run1 run2 traj1 traj2 hd1 hd2 cp1 cp2 dry1 dry2
          fs1 fs2 path1 path2 bytes1 bytes2,
     basename run1 = basename run2 ->
     In (WriteFile path1 bytes1)
        (out_log (prepare_and_submit_rerun E1 src1 run1 traj1 hd1 cp1 dry1 fs1)) ->
     In (WriteFile path2 bytes2)
        (out_log (prepare_and_submit_rerun E2 src2 run2 traj2 hd2 cp2 dry2 fs2)) ->
     bytes1 = bytes2 /\
     bytes1 = encode_utf8 (submit_contents (basename run1))) /\
  (forall E src run traj hd dry fs,
     let out := prepare_and_submit_rerun E src run traj hd true dry fs in
     out_res out = Ok tt ->
     exists bytes,
       In (WriteFile (join traj "01_submit_rerun.py") bytes) (out_log out) /\
       In (WriteFile (join run "01_submit_rerun.py") bytes) (out_log out)).
Proof.
  split.
  - intros * Hb H1 H2.
    pose proof (prepare_writes_script E1 src1 run1 traj1 hd1 cp1 dry1 fs1) as P1.
    pose proof (prepare_writes_script E2 src2 run2 traj2 hd2 cp2 dry2 fs2) as P2.
    rewrite Forall_forall in P1, P2.
    apply P1 in H1. apply P2 in H2. unfold writes_script in H1, H2.
    rewrite <- Hb in H2. split; congruence.
  - intros * H. eexists. now apply prepare_writes_both.
Qed.

Lemma entry_script_by_basename_witness :
  let E := Scenario.world in
  let bytes := encode_utf8 (submit_contents "opt_run1") in
  basename "base/trajectory_0/opt_run1" = basename "/scratch/opt_run1" /\
  bytes = encode_utf8 (submit_contents (basename "base/trajectory_0/opt_run1")) /\
  exists b,
    In (WriteFile "/scratch/01_submit_rerun.py" b)
       (out_log (prepare_and_submit_rerun E "/old" "/scratch/opt_run1"
                   "/scratch" None true true Scenario.fs_one)) /\
    In (WriteFile "/scratch/opt_run1/01_submit_rerun.py" b)
       (out_log (prepare_and_submit_rerun E "/old" "/scratch/opt_run1"
                   "/scratch" None true true Scenario.fs_one)).
Proof.
  destruct entry_script_by_basename as [Hsame Hboth].
  split; [reflexivity|]. split.
  - apply (Hsame Scenario.world Scenario.world
             "base/trajectory_0/opt" "/old"
             "base/trajectory_0/opt_run1" "/scratch/opt_run1"
             "base/trajectory_0" "/scratch" None None false true false true
             Scenario.fs_one Scenario.fs_one
             "base/trajectory_0/01_submit_rerun.py"
             "/scratch/01_submit_rerun.py"
             (encode_utf8 (submit_contents "opt_run1"))
             (encode_utf8 (submit_contents "opt_run1"))).
    + reflexivity.
    + vm_compute. right. right. left. reflexivity.
    + vm_compute. right. right. left. reflexivity.
  - apply (Hboth Scenario.world "/old" "/scratch/opt_run1" "/scratch" None
             true Scenario.fs_one).
    reflexivity.
Defined.

End EntryScriptFacts.

(* ================================================================== *)
(** * Facts about the file-system tree *)
(* ================================================================== *)

Module FsFacts.
Import Fs.
Local Open Scope list_scope.

Lemma assoc_upsert_eq k v es : assoc k (upsert k v es) = Some v.
Proof.
  induction es as [|[k' v'] es IH]; simpl.
  - now rewrite String.eqb_refl.
  - destruct (String.eqb k k') eqn:E; simpl.
    + now rewrite String.eqb_refl.
    + now rewrite E.
Qed.

Lemma assoc_upsert_neq k k' v es :
  k' <> k -> assoc k' (upsert k v es) = assoc k' es.
Proof.
  intros Hne. induction es as [|[k2 v2] es IH]; simpl.
  - apply String.eqb_neq in Hne. now rewrite Hne.
  - destruct (String.eqb k k2) eqn:E; simpl.
    + apply String.eqb_eq in E. subst k2.
      apply String.eqb_neq in Hne. now rewrite Hne.
    + now rewrite IH.
Qed.

Lemma upsert_names k v v0 es :
  assoc k es = Some v0 -> map fst (upsert k v es) = map fst es.
Proof.
  induction es as [|[k2 v2] es IH]; simpl; [discriminate|].
  destruct (String.eqb k k2) eqn:E; simpl.
  - apply String.eqb_eq in E. now subst.
  - intros H. now rewrite IH.
Qed.

Lemma upsert_same k v es : assoc k es = Some v -> upsert k v es = es.
Proof.
  induction es as [|[k2 v2] es IH]; simpl; [discriminate|].
  destruct (String.eqb k k2) eqn:E.
  - apply String.eqb_eq in E. intros H. injection H as ->. now subst.
  - intros H. now rewrite IH.
Qed.

Lemma get_app p q n :
  get (p ++ q) n = match get p n with Some m => get q m | None => None end.
Proof.
  revert n. induction p as [|c p IH]; intros n; simpl; [reflexivity|].
  destruct n as [|es]; [reflexivity|].
  destruct (assoc c es); [apply IH | reflexivity].
Qed.

Lemma get_file_below d perm q :
  q <> [] -> get q (File d perm) = None.
Proof. destruct q; [congruence | reflexivity]. Qed.

Lemma prefix_of_nil q : prefix_of [] q.
Proof. now exists q. Qed.

Lemma prefix_of_cons c p q :
  prefix_of (c :: p) (c :: q) <-> prefix_of p q.
Proof.
  split; intros [r H]; exists r.
  - now injection H.
  - simpl. now rewrite H.
Qed.

Lemma prefix_of_cons_neq c c' p q : c <> c' -> ~ prefix_of (c :: p) (c' :: q).
Proof. intros Hne [r H]. injection H as H _. congruence. Qed.

Lemma prefix_of_refl p : prefix_of p p.
Proof. exists []. now rewrite app_nil_r. Qed.


Lemma prefix_of_trans p q r : prefix_of p q -> prefix_of q r -> prefix_of p r.
Proof. intros [a ->] [b ->]. exists (a ++ b). now rewrite app_assoc. Qed.

(** Two places above a third are one above the other. *)
Lemma prefix_of_chain p q r :
  prefix_of p r -> prefix_of q r -> prefix_of p q \/ prefix_of q p.
Proof.
  revert q r. induction p as [|c p IH]; intros q r Hp Hq.
  - left. apply prefix_of_nil.
  - destruct q as [|c' q]; [right; apply prefix_of_nil|].
    destruct r as [|c2 r]; [destruct Hp as [? Hp]; discriminate|].
    destruct Hp as [a Hp], Hq as [b Hq].
    injection Hp as -> Hp. injection Hq as -> Hq.
    destruct (IH q r) as [H|H]; [now exists a | now exists b | |].
    + left. now apply prefix_of_cons.
    + right. now apply prefix_of_cons.
Qed.

Lemma apart_cons c p q : apart (c :: p) (c :: q) <-> apart p q.
Proof. unfold apart. now rewrite !prefix_of_cons. Qed.

Lemma apart_sym p q : apart p q -> apart q p.
Proof. intros [H1 H2]. now split. Qed.

(** What is apart from a place is apart from everything below it. *)
Lemma apart_below q r p : apart q r -> prefix_of r p -> apart q p.
Proof.
  intros [H1 H2] Hrp. split; intros H.
  - destruct (prefix_of_chain q r p H Hrp); contradiction.
  - apply H2. eapply prefix_of_trans; eauto.
Qed.

Lemma grows_refl n : grows n n.
Proof. intros q. auto. Qed.

Lemma grows_trans a b c : grows a b -> grows b c -> grows a c.
Proof.
  intros H1 H2 q. destruct (H1 q), (H2 q). auto.
Qed.

(** ** [mkdirs] *)

Lemma mkdirs_inv c p es n' :
  mkdirs (c :: p) (Dir es) = Ok n' ->
  exists m', n' = Dir (upsert c m' es) /\
    mkdirs p (match assoc c es with Some m => m | None => Dir [] end) = Ok m'.
Proof.
  simpl. destruct (mkdirs p _) as [m'|e] eqn:Hm; [|discriminate].
  intros H. injection H as <-. now exists m'.
Qed.

Lemma mkdirs_dir p n n' : mkdirs p n = Ok n' -> is_dir n = true.
Proof. destruct p, n; simpl; try discriminate; reflexivity. Qed.

(** Making a directory that is there changes nothing. *)
Lemma mkdirs_id p n es : get p n = Some (Dir es) -> mkdirs p n = Ok n.
Proof.
  revert n. induction p as [|c p IH]; intros n; simpl.
  - intros H. injection H as ->. reflexivity.
  - destruct n as [|es']; [discriminate|].
    destruct (assoc c es') as [m|] eqn:Ha; [|discriminate].
    intros H. rewrite (IH _ H). now rewrite (upsert_same _ _ _ Ha).
Qed.

(** After it the place is a directory. *)
Lemma mkdirs_post p n n' :
  mkdirs p n = Ok n' -> is_dir_at p n' = true.
Proof.
  unfold is_dir_at. revert n n'. induction p as [|c p IH]; intros n n' H.
  - simpl in *. destruct n; [discriminate|]. now injection H as <-.
  - destruct n as [|es]; [discriminate|].
    apply mkdirs_inv in H as [m' [-> Hm]].
    simpl. rewrite assoc_upsert_eq. eapply IH; eauto.
Qed.

(** A directory it had to make is empty. *)
Lemma mkdirs_fresh p n n' :
  mkdirs p n = Ok n' -> get p n = None -> get p n' = Some (Dir []).
Proof.
  revert n n'. induction p as [|c p IH]; intros n n' H Hg; [discriminate|].
  destruct n as [|es]; [discriminate|].
  apply mkdirs_inv in H as [m' [-> Hm]].
  simpl in *. rewrite assoc_upsert_eq.
  destruct (assoc c es) as [m|].
  - eapply IH; eauto.
  - destruct p as [|c' p].
    + simpl in Hm. now injection Hm as <-.
    + eapply IH; eauto.
Qed.

Lemma mkdirs_frame p n n' q :
  mkdirs p n = Ok n' -> apart p q -> get q n' = get q n.
Proof.
  revert n n' q. induction p as [|c p IH]; intros n n' q H [Hpq Hqp].
  - exfalso. apply Hpq, prefix_of_nil.
  - destruct q as [|c' q]; [exfalso; apply Hqp, prefix_of_nil|].
    destruct n as [|es]; [discriminate|].
    apply mkdirs_inv in H as [m' [-> Hm]]. simpl.
    destruct (string_dec c' c) as [->|Hne].
    + rewrite assoc_upsert_eq.
      assert (Hap : apart p q) by (now apply (apart_cons c)).
      rewrite (IH _ _ _ Hm Hap).
      destruct (assoc c es); [reflexivity|].
      destruct q; [|reflexivity].
      exfalso. apply (proj2 Hap), prefix_of_nil.
    + now rewrite assoc_upsert_neq.
Qed.

Lemma mkdirs_grows p n n' : mkdirs p n = Ok n' -> grows n n'.
Proof.
  unfold grows, is_dir_at, is_file_at.
  revert n n'. induction p as [|c p IH]; intros n n' H q.
  - simpl in H. destruct n; [discriminate|]. injection H as <-. auto.
  - destruct n as [|es]; [discriminate|].
    apply mkdirs_inv in H as [m' [-> Hm]].
    destruct q as [|c' q]; [simpl; auto|]. simpl.
    destruct (string_dec c' c) as [->|Hne].
    + rewrite assoc_upsert_eq.
      destruct (assoc c es) as [m|]; [|split; discriminate].
      apply (IH _ _ Hm).
    + rewrite assoc_upsert_neq by exact Hne. auto.
Qed.

(** The names of a directory on the way stay when the next step is
    among them. *)
Lemma mkdirs_names a c r n n' m :
  mkdirs (a ++ c :: r) n = Ok n' -> get (a ++ [c]) n = Some m ->
  entry_names a n' = entry_names a n.
Proof.
  unfold entry_names.
  revert n n'. induction a as [|x a IH]; intros n n' H Hg.
  - simpl in *. destruct n as [|es]; [discriminate|].
    apply mkdirs_inv in H as [m' [-> Hm]].
    destruct (assoc c es) as [m0|] eqn:Ha; [|discriminate].
    now rewrite (upsert_names _ _ _ _ Ha).
  - simpl in Hg. destruct n as [|es]; [discriminate|].
    change ((x :: a) ++ c :: r) with (x :: (a ++ c :: r)) in H.
    apply mkdirs_inv in H as [m' [-> Hm]].
    simpl. rewrite assoc_upsert_eq.
    destruct (assoc x es) as [m0|] eqn:Ha; [|discriminate].
    eapply IH; eauto.
Qed.

(** ** [update] *)

Lemma update_inv miss f c p es n' :
  update miss f (c :: p) (Dir es) = Ok n' ->
  (exists m m', assoc c es = Some m /\ update miss f p m = Ok m' /\
                n' = Dir (upsert c m' es)) \/
  (assoc c es = None /\ p = [] /\
   exists m', f None = Ok m' /\ n' = Dir (upsert c m' es)).
Proof.
  simpl. destruct (assoc c es) as [m|] eqn:Ha.
  - destruct (update miss f p m) as [m'|] eqn:Hu; [|discriminate].
    intros H. injection H as <-. left. now exists m, m'.
  - destruct p; [|discriminate].
    destruct (f None) as [m'|] eqn:Hf; [|discriminate].
    intros H. injection H as <-. right. repeat split. now exists m'.
Qed.

(** The place holds what [f] made of what was there. *)
Lemma update_post miss f p n n' :
  update miss f p n = Ok n' ->
  exists v, f (get p n) = Ok v /\ get p n' = Some v.
Proof.
  revert n n'. induction p as [|c p IH]; intros n n' H.
  - simpl in *. now exists n'.
  - destruct n as [|es]; [discriminate|].
    apply update_inv in H as [(m & m' & Ha & Hu & ->) | (Ha & -> & m' & Hf & ->)].
    + simpl. rewrite Ha, assoc_upsert_eq. now apply IH.
    + simpl. rewrite Ha, assoc_upsert_eq. now exists m'.
Qed.

Lemma update_frame miss f p n n' q :
  update miss f p n = Ok n' -> apart p q -> get q n' = get q n.
Proof.
  revert n n' q. induction p as [|c p IH]; intros n n' q H [Hpq Hqp].
  - exfalso. apply Hpq, prefix_of_nil.
  - destruct q as [|c' q]; [exfalso; apply Hqp, prefix_of_nil|].
    destruct n as [|es]; [discriminate|].
    destruct (string_dec c' c) as [->|Hne].
    + assert (Hap : apart p q) by (now apply (apart_cons c)).
      apply update_inv in H as [(m & m' & Ha & Hu & ->) | (Ha & -> & m' & Hf & ->)].
      * simpl. rewrite Ha, assoc_upsert_eq. now apply (IH _ _ _ Hu).
      * exfalso. apply (proj1 Hap), prefix_of_nil.
    + apply update_inv in H as [(m & m' & Ha & Hu & ->) | (Ha & -> & m' & Hf & ->)];
        simpl; now rewrite assoc_upsert_neq.
Qed.

Lemma update_grows miss f p n n' :
  update miss f p n = Ok n' ->
  (forall old v, get p n = Some old -> f (Some old) = Ok v -> grows old v) ->
  grows n n'.
Proof.
  unfold grows at 2, is_dir_at, is_file_at.
  revert n n'. induction p as [|c p IH]; intros n n' H Hf q.
  - simpl in H. apply (Hf n n' eq_refl H).
  - destruct n as [|es]; [discriminate|].
    destruct q as [|c' q].
    { apply update_inv in H as [(m & m' & Ha & Hu & ->) | (Ha & -> & m' & Hf' & ->)];
        simpl; auto. }
    destruct (string_dec c' c) as [->|Hne].
    + apply update_inv in H as [(m & m' & Ha & Hu & ->) | (Ha & -> & m' & Hf' & ->)].
      * simpl. rewrite Ha, assoc_upsert_eq. apply (IH _ _ Hu).
        intros old v Hg. apply Hf. simpl. now rewrite Ha.
      * simpl. rewrite Ha. split; discriminate.
    + apply update_inv in H as [(m & m' & Ha & Hu & ->) | (Ha & -> & m' & Hf' & ->)];
        simpl; rewrite assoc_upsert_neq by exact Hne; auto.
Qed.

Lemma update_names miss f a c r n n' m :
  update miss f (a ++ c :: r) n = Ok n' -> get (a ++ [c]) n = Some m ->
  entry_names a n' = entry_names a n.
Proof.
  unfold entry_names.
  revert n n'. induction a as [|x a IH]; intros n n' H Hg.
  - simpl in Hg. change ([] ++ c :: r) with (c :: r) in H.
    destruct n as [|es]; [discriminate|].
    destruct (assoc c es) as [m0|] eqn:Ha; [|discriminate].
    apply update_inv in H as [(m1 & m' & Ha' & Hu & ->) | (Ha' & _)];
      [|congruence].
    simpl. now rewrite (upsert_names _ _ _ _ Ha).
  - simpl in Hg. destruct n as [|es]; [discriminate|].
    change ((x :: a) ++ c :: r) with (x :: (a ++ c :: r)) in H.
    destruct (assoc x es) as [m0|] eqn:Ha; [|discriminate].
    apply update_inv in H as [(m1 & m' & Ha' & Hu & ->) | (Ha' & _)];
      [|congruence].
    simpl. rewrite assoc_upsert_eq.
    assert (m1 = m0) as -> by congruence.
    rewrite Ha. eapply IH; eauto.
Qed.

(** Changing what is there succeeds when [f] does. *)
Lemma update_ok miss f p n old v :
  get p n = Some old -> f (Some old) = Ok v ->
  exists n', update miss f p n = Ok n'.
Proof.
  revert n. induction p as [|c p IH]; intros n Hg Hf.
  - simpl in *. injection Hg as ->. now exists v.
  - simpl in *. destruct n as [|es]; [discriminate|].
    destruct (assoc c es) as [m|]; [|discriminate].
    destruct (IH m Hg Hf) as [m' Hm]. rewrite Hm. now eexists.
Qed.

(** A file has nothing below it, so replacing it by a file lets the
    tree grow. *)
Lemma grows_file d perm d' perm' : grows (File d perm) (File d' perm').
Proof.
  intros q. unfold is_dir_at, is_file_at.
  destruct q; simpl; auto.
Qed.

Lemma grows_from_empty es : grows (Dir []) (Dir es).
Proof.
  intros q. unfold is_dir_at, is_file_at.
  destruct q; simpl; auto. split; discriminate.
Qed.

End FsFacts.

(* ================================================================== *)
(** * Facts about the system calls *)
(* ================================================================== *)

Module OsFacts.
Import PyStr OsPath Fs Os Eff Script Spec FsFacts.
Local Open Scope list_scope.

Section WithEnv.
Variable E : env.

Lemma isdir_at fs p :
  isdir E fs p = true <-> exists q, resolve E p = Some q /\ is_dir_at q fs = true.
Proof.
  unfold isdir, lookup, is_dir_at. destruct (resolve E p) as [q|].
  - split; [intros H; now exists q | intros [q' [Hq H]]; now injection Hq as ->].
  - split; [discriminate | intros [q' [Hq _]]; discriminate].
Qed.

Lemma isfile_at fs p :
  isfile E fs p = true <-> exists q, resolve E p = Some q /\ is_file_at q fs = true.
Proof.
  unfold isfile, lookup, is_file_at. destruct (resolve E p) as [q|].
  - split; [intros H; now exists q | intros [q' [Hq H]]; now injection Hq as ->].
  - split; [discriminate | intros [q' [Hq _]]; discriminate].
Qed.

Lemma exists_kind fs p :
  exists_ E fs p = isdir E fs p || isfile E fs p.
Proof.
  unfold exists_, isdir, isfile. destruct (lookup E fs p) as [[]|]; reflexivity.
Qed.

Lemma isdir_grows fs fs' p :
  grows fs fs' -> isdir E fs p = true -> isdir E fs' p = true.
Proof.
  intros Hg. rewrite !isdir_at. intros [q [Hq H]]. exists q.
  split; [exact Hq | now apply Hg].
Qed.

Lemma isfile_grows fs fs' p :
  grows fs fs' -> isfile E fs p = true -> isfile E fs' p = true.
Proof.
  intros Hg. rewrite !isfile_at. intros [q [Hq H]]. exists q.
  split; [exact Hq | now apply Hg].
Qed.

Lemma exists_grows fs fs' p :
  grows fs fs' -> exists_ E fs p = true -> exists_ E fs' p = true.
Proof.
  intros Hg. rewrite !exists_kind, !orb_true_iff.
  intros [H|H]; [left; eapply isdir_grows | right; eapply isfile_grows]; eauto.
Qed.

(** ** What the calls raise *)

Lemma enoent_os_error p : os_error (enoent p) = true.
Proof. reflexivity. Qed.

Lemma mkdirs_raise p n e :
  mkdirs p n = Raise e -> e = FileExistsError \/ e = NotADirectoryError.
Proof.
  revert n. induction p as [|c p IH]; intros n; simpl.
  - destruct n; [|discriminate]. intros H. injection H as <-. now left.
  - destruct n as [|es]; [intros H; injection H as <-; now right|].
    destruct (mkdirs p _) eqn:Hm; [discriminate|].
    intros H. injection H as <-. eapply IH; eauto.
Qed.

Lemma update_raise miss f p n e :
  update miss f p n = Raise e ->
  e = miss \/ e = NotADirectoryError \/ exists old, f old = Raise e.
Proof.
  revert n. induction p as [|c p IH]; intros n; simpl.
  - intros H. right. right. now exists (Some n).
  - destruct n as [|es]; [intros H; injection H as <-; auto|].
    destruct (assoc c es) as [m|].
    + destruct (update miss f p m) eqn:Hu; [discriminate|].
      intros H. injection H as <-. eapply IH; eauto.
    + destruct p; [|intros H; injection H as <-; auto].
      destruct (f None) eqn:Hf; [discriminate|].
      intros H. injection H as <-. right. right. now exists None.
Qed.

Lemma makedirs_raise fs p e : makedirs E fs p = Raise e -> os_error e = true.
Proof.
  unfold makedirs. destruct (resolve E p).
  - intros H. apply mkdirs_raise in H as [-> | ->]; reflexivity.
  - intros H. injection H as <-. reflexivity.
Qed.

Lemma store_raise data perm old e :
  store E data perm old = Raise e -> e = IsADirectoryError.
Proof. destruct old as [[]|]; simpl; congruence. Qed.

Lemma write_bytes_raise fs p data perm e :
  write_bytes E fs p data perm = Raise e -> os_error e = true.
Proof.
  unfold write_bytes. destruct (resolve E p).
  - intros H. apply update_raise in H as [-> | [-> | [old H]]];
      try reflexivity. apply store_raise in H. now subst.
  - intros H. injection H as <-. reflexivity.
Qed.

Lemma write_text_raise fs p text e :
  write_text E fs p text = Raise e -> os_error e = true.
Proof. apply write_bytes_raise. Qed.

Lemma copy2_raise fs src dst e :
  copy2 E fs src dst = Raise e -> os_error e = true.
Proof.
  unfold copy2. destruct (samefile _ _ _ _).
  - intros H. injection H as <-. reflexivity.
  - destruct (lookup E fs src) as [[data perm|]|].
    + apply write_bytes_raise.
    + intros H. injection H as <-. reflexivity.
    + intros H. injection H as <-. reflexivity.
Qed.

Lemma copytree_raise fs src dst e :
  copytree E fs src dst = Raise e -> os_error e = true.
Proof.
  unfold copytree. destruct (lookup E fs src) as [[|es]|];
    try (intros H; injection H as <-; reflexivity).
  destruct (resolve E dst) as [q|];
    [|intros H; injection H as <-; reflexivity].
  destruct (exists_ E fs dst); [intros H; injection H as <-; reflexivity|].
  destruct (mkdirs q fs) as [fs'|e'] eqn:Hm.
  - intros H. apply update_raise in H as [-> | [-> | [old H]]];
      try reflexivity. discriminate.
  - intros H. injection H as <-.
    apply mkdirs_raise in Hm as [-> | ->]; reflexivity.
Qed.

(** A copy of a directory to a named place that is not there never
    fails for a missing file. *)
Lemma copytree_not_missing fs src dst q msg :
  isdir E fs src = true -> resolve E dst = Some q ->
  copytree E fs src dst <> Raise (FileNotFoundError msg).
Proof.
  unfold copytree, isdir. intros Hs Hq.
  destruct (lookup E fs src) as [[|es]|]; try discriminate.
  rewrite Hq. destruct (exists_ E fs dst); [discriminate|].
  destruct (mkdirs q fs) as [fs'|e'] eqn:Hm.
  - pose proof (mkdirs_post _ _ _ Hm) as Hd. unfold is_dir_at in Hd.
    destruct (get q fs') as [[|es']|] eqn:Hg; try discriminate.
    destruct (update_ok (enoent dst) (fun _ => Ok (Dir es)) q fs' _ (Dir es)
                Hg eq_refl) as [n' Hn].
    rewrite Hn. discriminate.
  - apply mkdirs_raise in Hm as [-> | ->]; discriminate.
Qed.

(** ** What the calls leave behind *)

Lemma makedirs_post fs p fs' :
  makedirs E fs p = Ok fs' -> isdir E fs' p = true.
Proof.
  unfold makedirs. destruct (resolve E p) as [q|] eqn:Hq; [|discriminate].
  intros H. apply isdir_at. exists q. split; [exact Hq|].
  eapply mkdirs_post; eauto.
Qed.

Lemma makedirs_grows fs p fs' : makedirs E fs p = Ok fs' -> grows fs fs'.
Proof.
  unfold makedirs. destruct (resolve E p) as [q|]; [|discriminate].
  apply mkdirs_grows.
Qed.

Lemma makedirs_id fs p : isdir E fs p = true -> makedirs E fs p = Ok fs.
Proof.
  intros H. apply isdir_at in H as [q [Hq Hd]].
  unfold makedirs. rewrite Hq. unfold is_dir_at in Hd.
  destruct (get q fs) as [[|es]|] eqn:Hg; try discriminate.
  eapply mkdirs_id; eauto.
Qed.

Lemma store_grows data perm old v :
  store E data perm (Some old) = Ok v -> grows old v.
Proof.
  destruct old as [d m|es]; simpl; [|discriminate].
  intros H. injection H as <-. apply grows_file.
Qed.

Lemma write_bytes_grows fs p data perm fs' :
  write_bytes E fs p data perm = Ok fs' -> grows fs fs'.
Proof.
  unfold write_bytes. destruct (resolve E p) as [q|]; [|discriminate].
  intros H. eapply update_grows; [exact H|].
  intros old v _. apply store_grows.
Qed.

Lemma write_bytes_post fs p data perm fs' :
  write_bytes E fs p data perm = Ok fs' ->
  exists perm', lookup E fs' p = Some (File data perm').
Proof.
  unfold write_bytes, lookup. destruct (resolve E p) as [q|]; [|discriminate].
  intros H. apply update_post in H as [v [Hf Hg]]. rewrite Hg.
  destruct (get q fs) as [[d m|es]|]; simpl in Hf; try discriminate;
    injection Hf as <-; eexists; reflexivity.
Qed.

Lemma write_text_grows fs p text fs' :
  write_text E fs p text = Ok fs' -> grows fs fs'.
Proof. apply write_bytes_grows. Qed.

Lemma write_text_post fs p text fs' :
  write_text E fs p text = Ok fs' ->
  exists perm, lookup E fs' p = Some (File (encode_utf8 text) perm).
Proof. apply write_bytes_post. Qed.


Lemma copytree_grows fs src dst fs' :
  copytree E fs src dst = Ok fs' -> grows fs fs'.
Proof.
  unfold copytree. destruct (lookup E fs src) as [[|es]|]; try discriminate.
  destruct (resolve E dst) as [q|] eqn:Hq; [|discriminate].
  destruct (exists_ E fs dst) eqn:Hex; [discriminate|].
  destruct (mkdirs q fs) as [fs1|] eqn:Hm; [|discriminate].
  intros H. eapply grows_trans; [eapply mkdirs_grows; eauto|].
  eapply update_grows; [exact H|].
  intros old v Hg Hv. injection Hv as <-.
  assert (Hnone : get q fs = None).
  { unfold exists_, lookup in Hex. rewrite Hq in Hex.
    destruct (get q fs); [discriminate | reflexivity]. }
  rewrite (mkdirs_fresh _ _ _ Hm Hnone) in Hg. injection Hg as <-.
  apply grows_from_empty.
Qed.

Lemma copytree_post fs src dst fs' :
  copytree E fs src dst = Ok fs' ->
  isdir E fs src = true /\ isdir E fs' dst = true.
Proof.
  unfold copytree, isdir.
  destruct (lookup E fs src) as [[|es]|]; try discriminate.
  unfold lookup. destruct (resolve E dst) as [q|] eqn:Hq; [|discriminate].
  destruct (exists_ E fs dst); [discriminate|].
  destruct (mkdirs q fs) as [fs1|]; [|discriminate].
  intros H. apply update_post in H as [v [Hf Hg]].
  injection Hf as <-. now rewrite Hg.
Qed.

Lemma chmod_grows fs p mode fs' : chmod E fs p mode = Ok fs' -> grows fs fs'.
Proof.
  unfold chmod. destruct (lookup E fs p) as [[data perm|es]|] eqn:Hl;
    try discriminate.
  - destruct (resolve E p) as [q|] eqn:Hq; [|discriminate].
    intros H. eapply update_grows; [exact H|].
    intros old v Hg Hv. injection Hv as <-.
    unfold lookup in Hl. rewrite Hq, Hg in Hl. injection Hl as ->.
    apply grows_file.
  - intros H. injection H as <-. apply grows_refl.
Qed.

End WithEnv.
End OsFacts.

(* ================================================================== *)
(** * The parts of the loop body *)
(* ================================================================== *)

Module PartFacts.
Import PyStr OsPath Fs Os Eff Script Spec.
Import RunFacts FsFacts OsFacts LocatorFacts.
Local Open Scope list_scope.
Local Open Scope eff_scope.

Section WithEnv.
Variable E : env.

Lemma prepare_unfold src run traj hd copy dry :
  prepare_and_submit_rerun E src run traj hd copy dry =
  (os_makedirs E run ;;
   os_makedirs E traj ;;
   write_file E (join traj "01_submit_rerun.py")
     (submit_contents (basename run)) ;;
   src_script <- reads (find_helper_file E "script_rerun.sh" hd) ;;
   prepare_tail E run traj copy dry src_script).
Proof. reflexivity. Qed.

Lemma process_folder_unfold base sub idx hd dry folder fs :
  process_folder E base sub idx hd dry folder fs =
  let source_dir := join (join base folder) sub in
  if negb (isdir E fs source_dir) then
    print ("Skipping " ++ folder ++ ": missing subfolder '" ++ sub ++ "'.") fs
  else if negb (isfile E fs (join source_dir "OUTCAR")) then
    print ("Skipping " ++ folder ++ ": missing OUTCAR in '" ++ sub ++ "'.") fs
  else if is_converged E (join source_dir "OUTCAR") fs then
    print ("Converged: " ++ folder ++ "/" ++ sub) fs
  else
    (print ("Not converged: " ++ folder ++ "/" ++ sub
            ++ " -> creating rerun folder") ;;
     stage E base sub idx dry folder ;;
     attempt E base sub idx hd dry folder) fs.
Proof.
  cbv zeta.
  unfold process_folder, stage, attempt, skip_submission, rerun_dir_name.
  unfold bind, gets, print, emit. cbn [out_res out_fs out_log].
  destruct (isdir E fs _); cbn [negb out_res out_fs out_log];
    [|reflexivity].
  destruct (isfile E fs _); cbn [negb out_res out_fs out_log];
    [|reflexivity].
  destruct (is_converged E _ fs); cbn [out_res out_fs out_log];
    [reflexivity|].
  destruct (exists_ E fs _); cbn [out_res out_fs out_log]; [reflexivity|].
  destruct dry; reflexivity.
Qed.

(** ** Which exceptions can come out *)

Lemma raises_only_bind {A B} P (m : M A) (k : A -> M B) :
  raises_only P m -> (forall a, raises_only P (k a)) ->
  raises_only P (bind m k).
Proof.
  intros Hm Hk fs e. unfold bind.
  destruct (out_res (m fs)) as [a|e'] eqn:Hr; cbn [out_res].
  - apply Hk.
  - intros H. injection H as <-. eapply Hm; eauto.
Qed.

Lemma raises_only_writes P ev f :
  (forall fs e, f fs = Raise e -> P e) -> raises_only P (writes ev f).
Proof.
  intros Hf fs e. unfold writes. destruct (f fs) eqn:Hr; cbn [out_res].
  - discriminate.
  - intros H. injection H as <-. eauto.
Qed.

Lemma raises_only_emit P ev : raises_only P (emit ev).
Proof. intros fs e. discriminate. Qed.

Lemma raises_only_ret {A} P (a : A) : raises_only P (ret a).
Proof. intros fs e. discriminate. Qed.

Lemma raises_only_gets {A} P (f : node -> A) : raises_only P (gets f).
Proof. intros fs e. discriminate. Qed.

Lemma raises_only_except_Exception {A} P (m h : M A) :
  raises_only P h -> raises_only P (except_Exception m h).
Proof.
  intros Hh fs e. unfold except_Exception.
  destruct (out_res (m fs)) eqn:Hr; cbn [out_res].
  - rewrite Hr. discriminate.
  - apply Hh.
Qed.

Lemma raises_only_submit P dir : raises_only P (submit E dir).
Proof.
  unfold submit, print.
  apply raises_only_bind; [apply raises_only_emit | intros _].
  apply raises_only_bind; [apply raises_only_gets | intros [[[rc out] err]|]].
  - apply raises_only_bind; [apply raises_only_emit | intros _].
    apply raises_only_bind.
    + destruct out; [apply raises_only_ret | apply raises_only_emit].
    + intros _. destruct err; [apply raises_only_ret | apply raises_only_emit].
  - apply raises_only_emit.
Qed.

(** After the lookup, the Rerun Preparer fails only with an error of a
    system call. *)
Lemma raises_only_prepare_tail run traj copy dry helper :
  raises_only (fun e => os_error e = true)
    (prepare_tail E run traj copy dry helper).
Proof.
  unfold prepare_tail, shutil_copy2, write_file.
  apply raises_only_bind;
    [apply raises_only_writes; intros ? ?; apply copy2_raise | intros _].
  apply raises_only_bind.
  { destruct copy; [|apply raises_only_ret].
    apply raises_only_bind;
      [apply raises_only_writes; intros ? ?; apply write_text_raise | intros _].
    apply raises_only_writes; intros ? ?; apply copy2_raise. }
  intros _. apply raises_only_bind.
  { apply raises_only_except_Exception, raises_only_ret. }
  intros _. destruct dry;
    [apply raises_only_emit | apply raises_only_submit].
Qed.

(** The Rerun Preparer fails with the error of a system call or with the
    Helper Locator's [NotFound]. *)
Lemma raises_only_prepare src run traj hd copy dry :
  raises_only (fun e => os_error e = true \/ e = NotFound "script_rerun.sh")
    (prepare_and_submit_rerun E src run traj hd copy dry).
Proof.
  rewrite prepare_unfold. unfold os_makedirs, write_file.
  apply raises_only_bind;
    [apply raises_only_writes; intros ? ? H; left; eapply makedirs_raise; eauto
    | intros _].
  apply raises_only_bind;
    [apply raises_only_writes; intros ? ? H; left; eapply makedirs_raise; eauto
    | intros _].
  apply raises_only_bind;
    [apply raises_only_writes; intros ? ? H; left; eapply write_text_raise; eauto
    | intros _].
  apply raises_only_bind.
  - intros fs e H. right. unfold reads in H. cbn [out_res] in H.
    eapply find_helper_file_raise; eauto.
  - intros helper fs e H. left.
    eapply raises_only_prepare_tail; eauto.
Qed.

End WithEnv.
End PartFacts.

(* ================================================================== *)
(** * A missing scheduler script *)
(* ================================================================== *)

Module MissingHelperFacts.
Import PyStr OsPath Fs Os Eff Sorting Script Spec.
Import RunFacts FsFacts OsFacts LocatorFacts OrderFacts PartFacts.
Local Open Scope list_scope.
Local Open Scope eff_scope.

Lemma NotFound_not_os_error name : os_error (NotFound name) = false.
Proof. reflexivity. Qed.

(** C9. When the Rerun Preparer ends with the Helper Locator's NotFound
    for the scheduler script, its earlier steps stay done: [run_dir] and
    the staging directory are directories, the staging directory holds
    the freshly generated entry-point script, the log shows the three
    calls, and the lookup that failed ran in that final state. *)
Theorem missing_helper_leaves_changes (E : env) (src run traj : string)
  (hd : option string) (copy dry : bool) (fs : node) :
  let out := prepare_and_submit_rerun E src run traj hd copy dry fs in
  let script := join traj "01_submit_rerun.py" in
  let bytes := encode_utf8 (submit_contents (basename run)) in
  out_res out = Raise (NotFound "script_rerun.sh") ->
  isdir E (out_fs out) run = true /\
  isdir E (out_fs out) traj = true /\
  (exists perm, lookup E (out_fs out) script = Some (File bytes perm)) /\
  out_log out = [Makedirs run; Makedirs traj; WriteFile script bytes] /\
  find_helper_file E "script_rerun.sh" hd (out_fs out) =
    Raise (NotFound "script_rerun.sh").
Proof.
  cbv zeta.
  destruct (prepare_and_submit_rerun E src run traj hd copy dry fs)
    as [fs' log r] eqn:H.
  cbn [out_res out_fs out_log]. intros ->.
  rewrite prepare_unfold in H. unfold os_makedirs, write_file in H.
  apply bind_inv in H as [(a & fs1 & l1 & l2 & Hm & H & ->) | (e & Hm & He)].
  2:{ apply writes_inv in Hm as [_ [[_ ?] | (e' & Hm & _ & He')]];
        [discriminate|].
      apply makedirs_raise in Hm. injection He' as <-. injection He as <-.
      discriminate. }
  apply writes_inv in Hm as [-> [[H1 _] | (? & _ & _ & ?)]]; [|discriminate].
  apply bind_inv in H as [(a2 & fs2 & l1 & l3 & Hm & H & ->) | (e & Hm & He)].
  2:{ apply writes_inv in Hm as [_ [[_ ?] | (e' & Hm & _ & He')]];
        [discriminate|].
      apply makedirs_raise in Hm. injection He' as <-. injection He as <-.
      discriminate. }
  apply writes_inv in Hm as [-> [[H2 _] | (? & _ & _ & ?)]]; [|discriminate].
  apply bind_inv in H as [(a3 & fs3 & l1 & l4 & Hm & H & ->) | (e & Hm & He)].
  2:{ apply writes_inv in Hm as [_ [[_ ?] | (e' & Hm & _ & He')]];
        [discriminate|].
      apply write_text_raise in Hm. injection He' as <-. injection He as <-.
      discriminate. }
  apply writes_inv in Hm as [-> [[H3 _] | (? & _ & _ & ?)]]; [|discriminate].
  apply bind_inv in H as [(helper & fs4 & l1 & l5 & Hm & H & ->) | (e & Hm & He)].
  { exfalso.
    pose proof (raises_only_prepare_tail E run traj copy dry helper fs4
                  (NotFound "script_rerun.sh")) as Ht.
    rewrite H in Ht. specialize (Ht eq_refl). discriminate. }
  apply reads_inv in Hm as (-> & -> & Hm).
  pose proof (makedirs_post E _ _ _ H1) as D1.
  pose proof (makedirs_post E _ _ _ H2) as D2.
  pose proof (makedirs_grows E _ _ _ H2) as G2.
  pose proof (write_text_grows E _ _ _ _ H3) as G3.
  split; [|split; [|split; [|split]]].
  - eapply isdir_grows; [exact G3|]. eapply isdir_grows; eauto.
  - eapply isdir_grows; eauto.
  - eapply write_text_post; eauto.
  - reflexivity.
  - congruence.
Qed.

(** The same in a world without the scheduler script: the rerun
    directory and the entry-point script were not there before. *)
Lemma missing_helper_leaves_changes_witness :
  let E := Scenario.world in
  let fs := Scenario.fs_no_helper in
  let out := prepare_and_submit_rerun E "base/trajectory_0/opt"
               "base/trajectory_0/opt_run1" "base/trajectory_0" None
               false false fs in
  isdir E fs "base/trajectory_0/opt_run1" = false /\
  isfile E fs "base/trajectory_0/01_submit_rerun.py" = false /\
  isdir E (out_fs out) "base/trajectory_0/opt_run1" = true /\
  isfile E (out_fs out) "base/trajectory_0/01_submit_rerun.py" = true.
Proof.
  destruct (missing_helper_leaves_changes Scenario.world
              "base/trajectory_0/opt" "base/trajectory_0/opt_run1"
              "base/trajectory_0" None false false Scenario.fs_no_helper
              eq_refl) as (Hrun & _ & [perm Hscript] & _).
  cbv zeta in *.
  split; [reflexivity|]. split; [reflexivity|]. split; [exact Hrun|].
  unfold isfile.
  change "base/trajectory_0/01_submit_rerun.py"
    with (join "base/trajectory_0" "01_submit_rerun.py").
  now rewrite Hscript.
Defined.

Lemma append_cons_not_empty (a : string) (c : ascii) (b : string) :
  (a ++ String c b)%string <> EmptyString.
Proof. destruct a; discriminate. Qed.

Lemma join_not_empty (a b : string) :
  b <> EmptyString -> join a b <> EmptyString.
Proof.
  intros Hb. unfold join. destruct (startswith b "/"); [exact Hb|].
  destruct (_ || _).
  - destruct a; [exact Hb | discriminate].
  - apply append_cons_not_empty.
Qed.

Lemma resolve_not_empty (E : env) (p : string) :
  p <> EmptyString -> exists q, resolve E p = Some q.
Proof. destruct p; [congruence|]. intros _. simpl. eauto. Qed.

Lemma rerun_dir_name_not_empty sub idx :
  rerun_dir_name sub idx <> EmptyString.
Proof. apply append_cons_not_empty. Qed.

Section WithArgs.
Variables (E : env) (base sub : string) (idx : Z) (hd : option string)
  (dry : bool).

Lemma raises_only_stage folder fs e :
  isdir E fs (join (join base folder) sub) = true ->
  out_res (stage E base sub idx dry folder fs) = Raise e ->
  os_error e = true /\ forall msg, e <> FileNotFoundError msg.
Proof.
  intros Hsrc. unfold stage, bind, gets, print, emit, shutil_copytree, writes.
  cbn [out_res out_fs out_log].
  destruct (exists_ E fs _); cbn [out_res]; [discriminate|].
  destruct dry; cbn [out_res]; [discriminate|].
  destruct (copytree E fs _ _) as [fs'|e'] eqn:Hc; cbn [out_res];
    [discriminate|].
  intros H. injection H as <-. split; [eapply copytree_raise; eauto|].
  intros msg ->.
  destruct (resolve_not_empty E (join (join base folder) (rerun_dir_name sub idx)))
    as [q Hq]; [apply join_not_empty, rerun_dir_name_not_empty|].
  eapply copytree_not_missing; eauto.
Qed.

Lemma attempt_not_missing folder fs msg :
  out_res (attempt E base sub idx hd dry folder fs)
  <> Raise (FileNotFoundError msg).
Proof.
  destruct (attempt E base sub idx hd dry folder fs) as [fs' log r] eqn:H.
  cbn [out_res]. unfold attempt in H.
  apply except_FileNotFoundError_inv in H
    as [(m & fs1 & l1 & l2 & _ & Hh & _) | [_ Hr]]; [|apply Hr].
  unfold skip_submission, bind, print, emit in Hh.
  cbn [out_res out_fs out_log] in Hh. injection Hh as _ _ <-. discriminate.
Qed.

(** No FileNotFoundError comes out of the loop body. *)
Lemma process_folder_not_missing folder fs msg :
  out_res (process_folder E base sub idx hd dry folder fs)
  <> Raise (FileNotFoundError msg).
Proof.
  rewrite process_folder_unfold. cbv zeta.
  destruct (isdir E fs _) eqn:Hsrc; cbn [negb]; [|discriminate].
  destruct (isfile E fs _); cbn [negb]; [|discriminate].
  destruct (is_converged E _ fs); [discriminate|].
  match goal with |- out_res ?o <> _ => destruct o as [fs' log r] eqn:H end.
  cbn [out_res]. intros ->.
  apply bind_inv in H as [(a & fs1 & l1 & l2 & Hp & H & ->) | (e & Hp & He)].
  2:{ apply emit_inv in Hp as (_ & _ & Hp). discriminate. }
  apply emit_inv in Hp as (-> & -> & _).
  apply bind_inv in H as [(a' & fs2 & l3 & l4 & Hs & H & ->) | (e & Hs & He)].
  - apply (attempt_not_missing folder fs2 msg). now rewrite H.
  - injection He as <-.
    destruct (raises_only_stage folder fs (FileNotFoundError msg) Hsrc)
      as [_ Hn]; [now rewrite Hs|].
    now apply (Hn msg).
Qed.

Lemma for_each_not_missing folders fs msg :
  out_res (for_each (process_folder E base sub idx hd dry) folders fs)
  <> Raise (FileNotFoundError msg).
Proof.
  revert fs. induction folders as [|folder rest IH]; intros fs.
  - discriminate.
  - rewrite for_each_cons. unfold bind.
    destruct (out_res (process_folder E base sub idx hd dry folder fs))
      as [[]|e] eqn:Hb; cbn [out_res].
    + apply IH.
    + intros H. injection H as ->.
      now apply process_folder_not_missing in Hb.
Qed.

End WithArgs.

(** C6. A FileNotFoundError of the Rerun Preparer (the Helper Locator's
    is one) ends in the [except] branch: the message and the skip notice
    are printed and the body returns normally; the loop then goes on with
    the directories that remain; no FileNotFoundError ever comes out of
    the loop body, and [process] can end with one only when listing the
    base directory raised it. *)
Theorem missing_helper_never_aborts (E : env) (base sub : string) (idx : Z)
  (hd : option string) (dry : bool) :
  let body := process_folder E base sub idx hd dry in
  (forall folder fs msg,
     let traj := join base folder in
     let o := prepare_and_submit_rerun E (join traj sub)
                (join traj (rerun_dir_name sub idx)) traj hd false dry fs in
     out_res o = Raise (FileNotFoundError msg) ->
     attempt E base sub idx hd dry folder fs =
     Out (out_fs o)
       (out_log o ++
        [Print msg;
         Print ("Skipping submission for " ++ folder ++ "/"
                ++ rerun_dir_name sub idx
                ++ " due to missing helper file(s).")])
       (Ok tt)) /\
  (forall folder fs msg,
     out_res (body folder fs) <> Raise (FileNotFoundError msg)) /\
  (forall folder rest fs,
     out_res (body folder fs) = Ok tt ->
     for_each body (folder :: rest) fs =
     let o1 := body folder fs in
     let o2 := for_each body rest (out_fs o1) in
     Out (out_fs o2) (out_log o1 ++ out_log o2) (out_res o2)) /\
  (forall fs msg,
     out_res (process E base sub idx hd dry fs) = Raise (FileNotFoundError msg) ->
     listdir E fs base = Raise (FileNotFoundError msg)).
Proof.
  cbv zeta. split; [|split; [|split]].
  - intros folder fs msg Hr. unfold attempt, except_FileNotFoundError.
    rewrite Hr. reflexivity.
  - intros folder fs msg. apply process_folder_not_missing.
  - intros folder rest fs Hr. rewrite for_each_cons. unfold bind.
    now rewrite Hr.
  - intros fs msg. unfold process, bind, reads, gets.
    cbn [out_res out_fs out_log].
    destruct (listdir E fs base) as [names|e]; cbn [out_res out_fs out_log];
      [|intros H; now injection H as ->].
    destruct (sorted trajectory_key _) as [dirs|e] eqn:Hs;
      cbn [out_res out_fs out_log].
    + intros H. now apply for_each_not_missing in H.
    + intros H. apply trajectory_order_raise in Hs as [-> _]. discriminate.
Qed.

(** Two trajectories and no scheduler script anywhere: both are
    attempted, each one is skipped with its two lines, and [process]
    returns normally. *)
Lemma missing_helper_never_aborts_witness :
  let E := Scenario.world in
  let fs := Scenario.fs_no_helper in
  let o := prepare_and_submit_rerun E "base/trajectory_0/opt"
             "base/trajectory_0/opt_run1" "base/trajectory_0" None
             false true fs in
  attempt E "base" "opt" 1 None true "trajectory_0" fs =
    Out (out_fs o)
      (out_log o ++
       [Print "Could not find required file: script_rerun.sh";
        Print "Skipping submission for trajectory_0/opt_run1 due to missing helper file(s)."])
      (Ok tt) /\
  out_res (process E "base" "opt" 1 None false fs) = Ok tt /\
  diagnostics (out_log (process E "base" "opt" 1 None false fs)) =
    ["Not converged: trajectory_0/opt -> creating rerun folder";
     "Could not find required file: script_rerun.sh";
     "Skipping submission for trajectory_0/opt_run1 due to missing helper file(s).";
     "Not converged: trajectory_1/opt -> creating rerun folder";
     "Could not find required file: script_rerun.sh";
     "Skipping submission for trajectory_1/opt_run1 due to missing helper file(s)."].
Proof.
  destruct (missing_helper_never_aborts Scenario.world "base" "opt" 1 None true)
    as (Hskip & _).
  split; [|split; vm_compute; reflexivity].
  apply (Hskip "trajectory_0" Scenario.fs_no_helper
           "Could not find required file: script_rerun.sh").
  reflexivity.
Defined.

End MissingHelperFacts.

(* ================================================================== *)
(** * Paths built with [os.path.join] *)
(* ================================================================== *)

Module PathFacts.
Import PyStr OsPath Fs Os Spec PyStrFacts SplitFacts FsFacts.
Local Open Scope list_scope.

Lemma walk_step_simple q n : simple_name n = true -> walk_step q n = q ++ [n].
Proof.
  unfold simple_name, walk_step. rewrite !andb_true_iff, !negb_true_iff.
  intros [[[_ H1] H2] H3]. now rewrite H1, H2, H3.
Qed.

Lemma no_slash_not_abs b : no_slash b = true -> startswith b "/" = false.
Proof.
  destruct b as [|c b]; [reflexivity|]. unfold no_slash. simpl.
  rewrite andb_true_iff, negb_true_iff. intros [H _]. now rewrite H.
Qed.

(** A string that ends with the separator has an empty last component
    and at least one before it. *)
Lemma split_endswith sep a :
  endswith_char a sep = true ->
  exists l, l <> [] /\ split sep a = l ++ [EmptyString].
Proof.
  induction a as [|c a IH]; [discriminate|].
  destruct a as [|c' a'].
  - simpl. intros H. rewrite H. exists [EmptyString]. now split.
  - intros H. change (endswith_char (String c' a') sep = true) in H.
    destruct (IH H) as [l [Hne Hl]].
    change (split sep (String c (String c' a')))
      with (if Ascii.eqb c sep then EmptyString :: split sep (String c' a')
            else cons_head c (split sep (String c' a'))).
    rewrite Hl. destruct (Ascii.eqb c sep).
    + exists (EmptyString :: l). now split.
    + destruct l as [|x l]; [congruence|].
      exists (String c x :: l). now split.
Qed.

Lemma fold_walk_app l1 l2 init :
  fold_left walk_step (l1 ++ l2) init =
  fold_left walk_step l2 (fold_left walk_step l1 init).
Proof. apply fold_left_app. Qed.

(** The components of [join a b], for [b] without slash, are those of
    [a], as far as a walk is concerned, and then [b]. *)
Lemma walk_join a b init :
  a <> EmptyString -> no_slash b = true ->
  fold_left walk_step (split "/" (join a b)) init =
  walk_step (fold_left walk_step (split "/" a) init) b.
Proof.
  intros Ha Hb. unfold join. rewrite (no_slash_not_abs _ Hb).
  destruct (String.eqb a EmptyString) eqn:Hea;
    [apply String.eqb_eq in Hea; congruence|]. cbn [orb].
  destruct (endswith_char a "/") eqn:Hend.
  - destruct (split_endswith _ _ Hend) as [l [Hne Hl]].
    rewrite (split_app_no_sep "/" a b Hb), Hl.
    rewrite removelast_last, last_last. cbn [append].
    rewrite !fold_walk_app. reflexivity.
  - change (a ++ "/" ++ b)%string with (a ++ String "/" b)%string.
    rewrite split_app_sep, (split_no_sep "/" b Hb).
    rewrite fold_walk_app. reflexivity.
Qed.

Lemma isabs_join a b :
  a <> EmptyString -> no_slash b = true -> isabs (join a b) = isabs a.
Proof.
  intros Ha Hb. unfold join. rewrite (no_slash_not_abs _ Hb).
  destruct a as [|c a]; [congruence|]. cbn [String.eqb orb].
  destruct (endswith_char (String c a) "/"); reflexivity.
Qed.

Lemma join_nonempty_left a b : a <> EmptyString -> join a b <> EmptyString.
Proof.
  intros Ha. unfold join. destruct (startswith b "/") eqn:Hb.
  - destruct b; [discriminate | discriminate].
  - destruct a as [|c a]; [congruence|].
    cbn [String.eqb orb]. destruct (endswith_char _ _); discriminate.
Qed.

Lemma resolve_some_nonempty E p q : resolve E p = Some q -> p <> EmptyString.
Proof. destruct p; [discriminate | discriminate]. Qed.

(** Where [join p b] leads, for [b] without slash. *)
Theorem resolve_join E p b q :
  resolve E p = Some q -> no_slash b = true ->
  resolve E (join p b) = Some (walk_step q b).
Proof.
  intros Hp Hb. pose proof (resolve_some_nonempty _ _ _ Hp) as Hne.
  pose proof (join_nonempty_left p b Hne) as Hj.
  unfold resolve in *.
  destruct p as [|c p]; [congruence|].
  destruct (join (String c p) b) as [|c' j] eqn:Ej; [congruence|].
  rewrite <- Ej. rewrite (isabs_join _ _ Hne Hb), (walk_join _ _ _ Hne Hb).
  now injection Hp as <-.
Qed.

Lemma simple_no_slash n : simple_name n = true -> no_slash n = true.
Proof. unfold simple_name. rewrite !andb_true_iff. tauto. Qed.

Lemma resolve_join_simple E p n q :
  resolve E p = Some q -> simple_name n = true ->
  resolve E (join p n) = Some (q ++ [n]).
Proof.
  intros Hp Hn. rewrite (resolve_join _ _ _ _ Hp (simple_no_slash _ Hn)).
  now rewrite walk_step_simple.
Qed.

(** A name without slash is simple, or one of the empty name, [.] and
    [..]. *)
Lemma no_slash_cases b :
  no_slash b = true ->
  simple_name b = true \/ b = EmptyString \/ b = "." \/ b = "..".
Proof.
  intros Hb. unfold simple_name. rewrite Hb. cbn [andb].
  destruct (String.eqb b EmptyString) eqn:H1;
    [apply String.eqb_eq in H1; auto|].
  destruct (String.eqb b ".") eqn:H2; [apply String.eqb_eq in H2; auto|].
  destruct (String.eqb b "..") eqn:H3; [apply String.eqb_eq in H3; auto|].
  now left.
Qed.

Lemma split_no_sep_components sep s :
  Forall (fun x => all_chars (fun c => negb (Ascii.eqb c sep)) x = true)
    (split sep s).
Proof.
  induction s as [|c s IH]; simpl; [repeat constructor|].
  destruct (Ascii.eqb c sep) eqn:Hc.
  - constructor; [reflexivity | exact IH].
  - destruct (split sep s) as [|x l]; simpl.
    + repeat constructor. simpl. now rewrite Hc.
    + inversion IH; subst. constructor; [|assumption].
      simpl. rewrite Hc. assumption.
Qed.

Lemma basename_no_slash p : no_slash (basename p) = true.
Proof.
  unfold basename, no_slash.
  pose proof (split_no_sep_components "/" p) as H.
  pose proof (split_not_nil "/" p) as Hne.
  destruct (split "/" p) as [|x l] using rev_ind; [congruence|].
  rewrite last_last. apply Forall_app in H as [_ H]. now inversion H.
Qed.

Lemma all_chars_app f a b :
  all_chars f (a ++ b)%string = all_chars f a && all_chars f b.
Proof.
  induction a as [|c a IH]; simpl; [reflexivity|].
  now rewrite IH, andb_assoc.
Qed.

Lemma length_append (a b : string) :
  String.length (a ++ b)%string = String.length a + String.length b.
Proof. induction a; simpl; [reflexivity | now rewrite IHa]. Qed.

Lemma string_of_uint_no_slash d :
  no_slash (NilEmpty.string_of_uint d) = true.
Proof. induction d; simpl; auto. Qed.

Lemma str_of_Z_no_slash n : no_slash (str_of_Z n) = true.
Proof.
  unfold str_of_Z, NilZero.string_of_int, NilZero.string_of_uint.
  destruct (Z.to_int n) as [d|d]; destruct d; simpl;
    try reflexivity; apply string_of_uint_no_slash.
Qed.

Lemma rerun_dir_name_simple sub idx :
  simple_name sub = true -> simple_name (rerun_dir_name sub idx) = true.
Proof.
  intros Hs. pose proof (simple_no_slash _ Hs) as Hn.
  assert (Hlen : 4 <= String.length (rerun_dir_name sub idx)).
  { unfold rerun_dir_name. rewrite length_append. simpl. lia. }
  unfold simple_name. rewrite !andb_true_iff, !negb_true_iff, !String.eqb_neq.
  repeat split.
  - unfold rerun_dir_name, no_slash in *. rewrite !all_chars_app, Hn.
    cbn [all_chars Ascii.eqb Bool.eqb negb andb].
    fold (no_slash (str_of_Z idx)). now rewrite str_of_Z_no_slash.
  - intros H. rewrite H in Hlen. simpl in Hlen. lia.
  - intros H. rewrite H in Hlen. simpl in Hlen. lia.
  - intros H. rewrite H in Hlen. simpl in Hlen. lia.
Qed.

Lemma rerun_dir_name_not_sub sub idx : rerun_dir_name sub idx <> sub.
Proof.
  unfold rerun_dir_name. intros H.
  apply (f_equal String.length) in H.
  rewrite length_append in H. simpl in H. lia.
Qed.

(** ** Prefixes, decided *)



End PathFacts.

(* ================================================================== *)
(** * Changes confined to what the script generates *)
(* ================================================================== *)

Module FootprintFacts.
Import PyStr OsPath Fs Os Eff Script Spec.
Import FsFacts OsFacts PathFacts.
Local Open Scope list_scope.

Section Footprint.
Variables (B X : list string).

Lemma extends_refl s : extends B X s s.
Proof. split; [apply grows_refl | split; reflexivity]. Qed.

Lemma extends_trans s t u :
  extends B X s t -> extends B X t u -> extends B X s u.
Proof.
  intros (G1 & F1 & N1) (G2 & F2 & N2). split; [|split].
  - eapply grows_trans; eauto.
  - intros q Hq. rewrite (F2 q Hq). now apply F1.
  - congruence.
Qed.

Lemma extends_grows s t : extends B X s t -> grows s t.
Proof. now intros (G & _). Qed.

Lemma apart_generated T p q :
  below_generated B X T p ->
  (forall T' x, In x X -> apart (B ++ [T'; x]) q) -> apart p q.
Proof.
  intros (x & r & Hx & ->) Hq. apply apart_sym.
  eapply apart_below; [apply apart_sym, (Hq T x Hx)|].
  exists r. now rewrite <- app_assoc.
Qed.

Lemma extends_update miss f p s s' T m :
  update miss f p s = Ok s' ->
  below_generated B X T p ->
  get (B ++ [T]) s = Some m ->
  (forall old v, get p s = Some old -> f (Some old) = Ok v -> grows old v) ->
  extends B X s s'.
Proof.
  intros Hu Hp HT Hf. split; [|split].
  - eapply update_grows; eauto.
  - intros q Hq. eapply update_frame; [exact Hu|].
    eapply apart_generated; eauto.
  - destruct Hp as (x & r & _ & ->).
    eapply (update_names miss f B T (x :: r)); eauto.
Qed.

Lemma extends_mkdirs p s s' T m :
  mkdirs p s = Ok s' ->
  below_generated B X T p ->
  get (B ++ [T]) s = Some m ->
  extends B X s s'.
Proof.
  intros Hu Hp HT. split; [|split].
  - eapply mkdirs_grows; eauto.
  - intros q Hq. eapply mkdirs_frame; [exact Hu|].
    eapply apart_generated; eauto.
  - destruct Hp as (x & r & _ & ->).
    eapply (mkdirs_names B T (x :: r)); eauto.
Qed.

End Footprint.
(** ** Relating the state before and after a computation *)

Section Steps.
Variable R : node -> node -> Prop.
Hypothesis R_refl : forall s, R s s.
Hypothesis R_trans : forall s t u, R s t -> R t u -> R s u.

Lemma steps_ret {A} (a : A) : steps R (ret a).
Proof. intros fs. apply R_refl. Qed.

Lemma steps_gets {A} (f : node -> A) : steps R (gets f).
Proof. intros fs. apply R_refl. Qed.

Lemma steps_reads {A} (f : node -> result A) : steps R (reads f).
Proof. intros fs. apply R_refl. Qed.

Lemma steps_emit ev : steps R (emit ev).
Proof. intros fs. apply R_refl. Qed.

Lemma steps_writes ev f :
  (forall fs fs', f fs = Ok fs' -> R fs fs') -> steps R (writes ev f).
Proof.
  intros Hf fs. unfold writes. destruct (f fs) eqn:H; cbn [out_fs]; auto.
Qed.

Lemma steps_bind {A C} (m : M A) (k : A -> M C) :
  steps R m -> (forall a, steps R (k a)) -> steps R (bind m k).
Proof.
  intros Hm Hk fs. unfold bind. specialize (Hm fs).
  destruct (out_res (m fs)); cbn [out_fs]; [|exact Hm].
  eapply R_trans; [exact Hm | apply Hk].
Qed.

Lemma steps_except_FileNotFoundError {A} (m : M A) h :
  steps R m -> (forall msg, steps R (h msg)) ->
  steps R (except_FileNotFoundError m h).
Proof.
  intros Hm Hh fs. unfold except_FileNotFoundError. specialize (Hm fs).
  destruct (out_res (m fs)) as [a|[]]; cbn [out_fs]; try exact Hm.
  eapply R_trans; [exact Hm | apply Hh].
Qed.

Lemma steps_except_Exception {A} (m h : M A) :
  steps R m -> steps R h -> steps R (except_Exception m h).
Proof.
  intros Hm Hh fs. unfold except_Exception. specialize (Hm fs).
  destruct (out_res (m fs)); cbn [out_fs]; [exact Hm|].
  eapply R_trans; [exact Hm | apply Hh].
Qed.

Lemma steps_for_each {A} (body : A -> M unit) l :
  (forall x, In x l -> steps R (body x)) -> steps R (for_each body l).
Proof.
  induction l as [|x l IH]; intros Hb; simpl.
  - apply steps_ret.
  - apply steps_bind; [apply Hb; now left | intros _].
    apply IH. intros y Hy. apply Hb. now right.
Qed.

Lemma steps_submit E dir : steps R (submit E dir).
Proof.
  unfold submit, print.
  apply steps_bind; [apply steps_emit | intros _].
  apply steps_bind; [apply steps_gets | intros [[[rc out] err]|]].
  - apply steps_bind; [apply steps_emit | intros _].
    apply steps_bind.
    + destruct out; [apply steps_ret | apply steps_emit].
    + intros _. destruct err; [apply steps_ret | apply steps_emit].
  - apply steps_emit.
Qed.

End Steps.

End FootprintFacts.

(* ================================================================== *)
(** * The calls of the script stay within what it generates *)
(* ================================================================== *)

Module StagingFacts.
Import PyStr OsPath Fs Os Eff Script Spec.
Import RunFacts FsFacts OsFacts PathFacts FootprintFacts LocatorFacts.
Local Open Scope list_scope.

Lemma copy2_inv E s src dst s' :
  copy2 E s src dst = Ok s' ->
  exists data perm,
    let dst' := if isdir E s dst then join dst (basename src) else dst in
    samefile E s src dst' = false /\
    lookup E s src = Some (File data perm) /\
    write_bytes E s dst' data (Some perm) = Ok s'.
Proof.
  unfold copy2. destruct (samefile _ _ _ _) eqn:Hs; [discriminate|].
  destruct (lookup E s src) as [[data perm|]|]; try discriminate.
  intros H. now exists data, perm.
Qed.

Lemma write_bytes_inv E s p data perm s' :
  write_bytes E s p data perm = Ok s' ->
  exists q, resolve E p = Some q /\
            update (enoent p) (store E data perm) q s = Ok s'.
Proof.
  unfold write_bytes. destruct (resolve E p) as [q|]; [|discriminate].
  intros H. now exists q.
Qed.

(** Nothing can be written where a directory is. *)
Lemma store_at_dir E miss data perm q s s' :
  update miss (store E data perm) q s = Ok s' -> is_dir_at q s = false.
Proof.
  intros H. apply update_post in H as [v [Hv _]]. unfold is_dir_at.
  destruct (get q s) as [[|es]|]; try reflexivity. discriminate.
Qed.


Lemma is_dir_at_parent q c s :
  (exists m, get (q ++ [c]) s = Some m) -> is_dir_at q s = true.
Proof.
  intros [m H]. rewrite get_app in H. unfold is_dir_at.
  destruct (get q s) as [[|es]|]; try discriminate; reflexivity.
Qed.

Lemma is_dir_at_get q s :
  is_dir_at q s = true -> exists es, get q s = Some (Dir es).
Proof.
  unfold is_dir_at. destruct (get q s) as [[|es]|]; try discriminate.
  intros _. now exists es.
Qed.


Section Staging.
Variables (E : env) (base : string) (B : list string) (sub : string)
  (idx : Z) (T : string).
Hypothesis HB : resolve E base = Some B.
Hypothesis Hsub : simple_name sub = true.
Hypothesis HT : simple_name T = true.

Let X := generated_names sub idx.
Let traj := join base T.
Let rn := rerun_dir_name sub idx.

Lemma resolve_traj : resolve E traj = Some (B ++ [T]).
Proof. now apply resolve_join_simple. Qed.

Lemma resolve_in_traj n :
  simple_name n = true -> resolve E (join traj n) = Some (B ++ [T; n]).
Proof.
  intros Hn. rewrite (resolve_join_simple _ _ _ _ resolve_traj Hn).
  now rewrite <- app_assoc.
Qed.

Lemma resolve_rerun : resolve E (join traj rn) = Some (B ++ [T; rn]).
Proof. apply resolve_in_traj, rerun_dir_name_simple, Hsub. Qed.

Lemma resolve_script :
  resolve E (join traj "01_submit_rerun.py")
  = Some (B ++ [T; "01_submit_rerun.py"]).
Proof. now apply resolve_in_traj. Qed.

Lemma resolve_sh :
  resolve E (join traj "script_rerun.sh") = Some (B ++ [T; "script_rerun.sh"]).
Proof. now apply resolve_in_traj. Qed.

Lemma resolve_source : resolve E (join traj sub) = Some (B ++ [T; sub]).
Proof. now apply resolve_in_traj. Qed.

Lemma resolve_outcar :
  resolve E (join (join traj sub) "OUTCAR") = Some (B ++ [T; sub; "OUTCAR"]).
Proof.
  rewrite (resolve_join_simple E _ "OUTCAR" _ resolve_source eq_refl).
  now rewrite <- app_assoc.
Qed.

Lemma below_rerun r : below_generated B X T (B ++ [T; rn] ++ r).
Proof. exists rn, r. split; [now left | reflexivity]. Qed.

Lemma below_script r :
  below_generated B X T (B ++ [T; "01_submit_rerun.py"] ++ r).
Proof. eexists _, r. split; [right; now left | reflexivity]. Qed.

Lemma below_sh r :
  below_generated B X T (B ++ [T; "script_rerun.sh"] ++ r).
Proof. eexists _, r. split; [right; right; now left | reflexivity]. Qed.

Lemma later_refl s : later B X T s s.
Proof. intros _. apply extends_refl. Qed.

Lemma later_trans s t u :
  later B X T s t -> later B X T t u -> later B X T s u.
Proof.
  intros H1 H2 Hs. specialize (H1 Hs).
  eapply extends_trans; [exact H1|]. apply H2.
  now apply (extends_grows _ _ _ _ H1).
Qed.

Lemma traj_node s :
  is_dir_at (B ++ [T]) s = true -> exists m, get (B ++ [T]) s = Some m.
Proof. intros H. apply is_dir_at_get in H as [es H]. eauto. Qed.

Lemma later_makedirs_rerun s s' :
  makedirs E s (join traj rn) = Ok s' -> later B X T s s'.
Proof.
  unfold makedirs. rewrite resolve_rerun. intros H Hs.
  destruct (traj_node _ Hs) as [m Hm].
  eapply extends_mkdirs; [exact H | apply (below_rerun []) | exact Hm].
Qed.

Lemma later_makedirs_traj s s' :
  makedirs E s traj = Ok s' -> later B X T s s'.
Proof.
  unfold makedirs. rewrite resolve_traj. intros H Hs.
  apply is_dir_at_get in Hs as [es Hg].
  rewrite (mkdirs_id _ _ _ Hg) in H. injection H as <-. apply extends_refl.
Qed.

Lemma later_write_bytes s s' p q data perm :
  write_bytes E s p data perm = Ok s' ->
  resolve E p = Some q -> below_generated B X T q ->
  later B X T s s'.
Proof.
  intros H Hq Hb Hs. apply write_bytes_inv in H as [q' [Hq' H]].
  assert (q' = q) as -> by congruence.
  destruct (traj_node _ Hs) as [m Hm].
  eapply extends_update; [exact H | exact Hb | exact Hm|].
  intros old v _. apply store_grows.
Qed.

Lemma later_write_script s s' text :
  write_text E s (join traj "01_submit_rerun.py") text = Ok s' ->
  later B X T s s'.
Proof.
  intros H. eapply later_write_bytes;
    [exact H | apply resolve_script | apply (below_script [])].
Qed.

Lemma later_copytree s s' src :
  copytree E s src (join traj rn) = Ok s' -> later B X T s s'.
Proof.
  unfold copytree. destruct (lookup E s src) as [[|es]|]; try discriminate.
  rewrite resolve_rerun. destruct (exists_ E s _) eqn:Hex; [discriminate|].
  destruct (mkdirs _ s) as [s1|] eqn:Hm; [|discriminate].
  intros H Hs. destruct (traj_node _ Hs) as [m Hg].
  assert (E1 : extends B X s s1).
  { eapply extends_mkdirs; [exact Hm | apply (below_rerun []) | exact Hg]. }
  eapply extends_trans; [exact E1|].
  assert (Hs1 : is_dir_at (B ++ [T]) s1 = true)
    by now apply (extends_grows _ _ _ _ E1).
  destruct (traj_node _ Hs1) as [m1 Hg1].
  eapply extends_update; [exact H | apply (below_rerun []) | exact Hg1|].
  intros old v Hold Hv. injection Hv as <-.
  assert (Hnone : get (B ++ [T; rn]) s = None).
  { unfold exists_, lookup in Hex. rewrite resolve_rerun in Hex.
    destruct (get _ s); [discriminate | reflexivity]. }
  rewrite (mkdirs_fresh _ _ _ Hm Hnone) in Hold. injection Hold as <-.
  apply grows_from_empty.
Qed.

(** Where [copy2] puts the scheduler script: at the staging place, or
    right below it when a directory is there. *)
Lemma copy2_target s s' helper :
  copy2 E s helper (join traj "script_rerun.sh") = Ok s' ->
  is_dir_at (B ++ [T]) s = true ->
  exists data perm dst' q,
    dst' = (if isdir E s (join traj "script_rerun.sh")
            then join (join traj "script_rerun.sh") (basename helper)
            else join traj "script_rerun.sh") /\
    resolve E dst' = Some q /\
    (q = B ++ [T; "script_rerun.sh"] \/
     q = B ++ [T; "script_rerun.sh"; basename helper]) /\
    lookup E s helper = Some (File data perm) /\
    update (enoent dst') (store E data (Some perm)) q s = Ok s'.
Proof.
  intros H Hs. apply copy2_inv in H as (data & perm & Hsame & Hl & Hw).
  cbv zeta in *.
  apply write_bytes_inv in Hw as (q & Hq & Hu).
  eexists data, perm, _, q. split; [reflexivity|].
  split; [exact Hq|]. split; [|split; [exact Hl | exact Hu]].
  destruct (isdir E s (join traj "script_rerun.sh")) eqn:Hd.
  - rewrite (resolve_join _ _ _ _ resolve_sh (basename_no_slash helper)) in Hq.
    injection Hq as <-.
    apply isdir_at in Hd as [q' [Hq' Hd]]. rewrite resolve_sh in Hq'.
    injection Hq' as <-.
    destruct (no_slash_cases _ (basename_no_slash helper))
      as [Hb | [Hb | [Hb | Hb]]].
    + right. rewrite (walk_step_simple _ _ Hb). now rewrite <- app_assoc.
    + exfalso. rewrite Hb in Hu. cbn [walk_step String.eqb orb] in Hu.
      apply store_at_dir in Hu. congruence.
    + exfalso. rewrite Hb in Hu. apply store_at_dir in Hu.
      change (walk_step (B ++ [T; "script_rerun.sh"]) ".")
        with (B ++ [T; "script_rerun.sh"]) in Hu. congruence.
    + exfalso. rewrite Hb in Hu. apply store_at_dir in Hu.
      change (walk_step (B ++ [T; "script_rerun.sh"]) "..")
        with (removelast (B ++ [T; "script_rerun.sh"])) in Hu.
      change [T; "script_rerun.sh"] with ([T] ++ ["script_rerun.sh"]) in Hu.
      rewrite app_assoc, removelast_last in Hu. congruence.
  - left. rewrite resolve_sh in Hq. now injection Hq.
Qed.

Lemma later_copy2 s s' helper :
  copy2 E s helper (join traj "script_rerun.sh") = Ok s' -> later B X T s s'.
Proof.
  intros H Hs.
  destruct (copy2_target _ _ _ H Hs)
    as (data & perm & dst' & q & _ & Hq & Hcase & _ & Hu).
  destruct (traj_node _ Hs) as [m Hm].
  eapply extends_update; [exact Hu | | exact Hm |].
  - destruct Hcase as [-> | ->];
      [apply (below_sh []) | apply (below_sh [basename helper])].
  - intros old v _. apply store_grows.
Qed.

Lemma later_chmod s s' mode :
  chmod E s (join traj "script_rerun.sh") mode = Ok s' -> later B X T s s'.
Proof.
  unfold chmod, lookup. rewrite resolve_sh.
  destruct (get _ s) as [[data perm|es]|] eqn:Hg; try discriminate.
  - intros H Hs. destruct (traj_node _ Hs) as [m Hm].
    eapply extends_update; [exact H | apply (below_sh []) | exact Hm|].
    intros old v Hold Hv. injection Hv as <-.
    rewrite Hg in Hold. injection Hold as <-. apply grows_file.
  - intros H. injection H as <-. apply later_refl.
Qed.

(** ** The Rerun Preparer, the staging and the loop body *)

Variables (hd : option string) (dry : bool).

Lemma steps_prepare :
  steps (later B X T)
    (prepare_and_submit_rerun E (join traj sub) (join traj rn) traj hd
       false dry).
Proof.
  pose proof later_refl as Rr. pose proof later_trans as Rt.
  rewrite PartFacts.prepare_unfold.
  unfold os_makedirs, write_file, prepare_tail, shutil_copy2, os_chmod.
  apply (steps_bind _ Rt);
    [apply (steps_writes _ Rr); intros ? ?; apply later_makedirs_rerun
    | intros _].
  apply (steps_bind _ Rt);
    [apply (steps_writes _ Rr); intros ? ?; apply later_makedirs_traj
    | intros _].
  apply (steps_bind _ Rt);
    [apply (steps_writes _ Rr); intros ? ?; apply later_write_script
    | intros _].
  apply (steps_bind _ Rt); [apply (steps_reads _ Rr) | intros helper].
  apply (steps_bind _ Rt);
    [apply (steps_writes _ Rr); intros ? ?; apply later_copy2 | intros _].
  apply (steps_bind _ Rt); [apply (steps_ret _ Rr) | intros _].
  apply (steps_bind _ Rt).
  - apply (steps_except_Exception _ Rt); [|apply (steps_ret _ Rr)].
    apply (steps_bind _ Rt); [apply (steps_reads _ Rr) | intros mode].
    apply (steps_writes _ Rr); intros ? ?; apply later_chmod.
  - intros _. destruct dry;
      [apply (steps_emit _ Rr) | apply (steps_submit _ Rr Rt)].
Qed.

Lemma steps_stage : steps (later B X T) (stage E base sub idx dry T).
Proof.
  pose proof later_refl as Rr. pose proof later_trans as Rt.
  unfold stage, print, shutil_copytree.
  apply (steps_bind _ Rt); [apply (steps_gets _ Rr) | intros ex].
  destruct ex; [apply (steps_emit _ Rr)|].
  destruct dry; [apply (steps_emit _ Rr)|].
  apply (steps_writes _ Rr); intros ? ?; apply later_copytree.
Qed.

Lemma steps_attempt : steps (later B X T) (attempt E base sub idx hd dry T).
Proof.
  pose proof later_refl as Rr. pose proof later_trans as Rt.
  unfold attempt. apply (steps_except_FileNotFoundError _ Rt).
  - apply steps_prepare.
  - intros msg. unfold skip_submission, print.
    apply (steps_bind _ Rt); [apply (steps_emit _ Rr) | intros _].
    apply (steps_emit _ Rr).
Qed.

(** The loop body changes nothing but what it generates. *)
Lemma process_folder_extends s :
  extends B X s (out_fs (process_folder E base sub idx hd dry T s)).
Proof.
  rewrite PartFacts.process_folder_unfold. cbv zeta.
  destruct (isdir E s _) eqn:Hsrc; cbn [negb]; [|apply extends_refl].
  destruct (isfile E s _); cbn [negb]; [|apply extends_refl].
  destruct (is_converged E _ s); [apply extends_refl|].
  assert (Hs : is_dir_at (B ++ [T]) s = true).
  { apply isdir_at in Hsrc as [q [Hq Hd]]. fold traj in Hq.
    rewrite resolve_source in Hq. injection Hq as <-.
    apply is_dir_at_get in Hd as [es Hd].
    apply (is_dir_at_parent _ sub). exists (Dir es).
    now rewrite <- app_assoc. }
  pose proof later_refl as Rr. pose proof later_trans as Rt.
  assert (St : steps (later B X T)
            (bind (print ("Not converged: " ++ T ++ "/" ++ sub
                          ++ " -> creating rerun folder"))
               (fun _ => bind (stage E base sub idx dry T)
                         (fun _ => attempt E base sub idx hd dry T)))).
  { apply (steps_bind _ Rt); [apply (steps_emit _ Rr) | intros _].
    apply (steps_bind _ Rt); [apply steps_stage | intros _].
    apply steps_attempt. }
  apply (St s Hs).
Qed.

End Staging.
End StagingFacts.

(* ================================================================== *)
(** * Running the loop body once more *)
(* ================================================================== *)

Module ReplayFacts.
Import PyStr OsPath Fs Os Eff Script Spec.
Import RunFacts FsFacts OsFacts PathFacts FootprintFacts LocatorFacts.
Import LogFacts PartFacts StagingFacts.
Local Open Scope list_scope.

Section Finish.
Variables (E : env) (traj : string) (dry : bool).






End Finish.

Section Eval.
Variables (E : env) (src run traj : string) (hd : option string)
  (dry : bool).

Let script := join traj "01_submit_rerun.py".
Let bytes := encode_utf8 (submit_contents (basename run)).


End Eval.
(** ** Calls that cannot fail for a missing file *)



Lemma makedirs_not_missing E s p q msg :
  resolve E p = Some q -> makedirs E s p <> Raise (FileNotFoundError msg).
Proof.
  intros Hp H. unfold makedirs in H. rewrite Hp in H.
  apply mkdirs_raise in H as [H|H]; discriminate.
Qed.



Section Replay.
Variables (E : env) (base : string) (B : list string) (sub : string)
  (idx : Z) (hd : option string) (dry : bool).
Hypothesis HB : resolve E base = Some B.
Hypothesis Hsub : simple_name sub = true.
Hypothesis Hsub1 : sub <> "01_submit_rerun.py".
Hypothesis Hsub2 : sub <> "script_rerun.sh".
Hypothesis Hout : helpers_outside E base "script_rerun.sh" hd = true.

Let X := generated_names sub idx.
Let rn := rerun_dir_name sub idx.

Lemma generated_not_sub x : In x X -> x <> sub.
Proof.
  intros [<- | [<- | [<- | []]]]; auto. apply rerun_dir_name_not_sub.
Qed.

(** A source directory and what it holds are apart from everything
    generated. *)
Lemma apart_source T T' x r :
  In x X -> apart (B ++ [T'; x]) (B ++ [T; sub] ++ r).
Proof.
  intros Hx. pose proof (generated_not_sub _ Hx) as Hne.
  split; intros [r' H].
  - rewrite <- !app_assoc in H. apply app_inv_head in H.
    simpl in H. congruence.
  - rewrite <- !app_assoc in H. apply app_inv_head in H.
    simpl in H. congruence.
Qed.







Variable T : string.
Hypothesis HT : simple_name T = true.

Let traj := join base T.
Let src := join traj sub.
Let outcar := join src "OUTCAR".
Let rerun := join traj rn.
Let script := join traj "01_submit_rerun.py".
Let bytes := encode_utf8 (submit_contents (basename rerun)).

Lemma lookup_source_extends s t :
  extends B X s t ->
  lookup E t src = lookup E s src /\ lookup E t outcar = lookup E s outcar.
Proof.
  intros (_ & F & _). unfold lookup, outcar, src, traj.
  rewrite (resolve_source E base B sub T HB Hsub HT).
  rewrite (resolve_outcar E base B sub T HB Hsub HT).
  split; apply F; intros T' x Hx.
  - apply (apart_source T T' x [] Hx).
  - apply (apart_source T T' x ["OUTCAR"] Hx).
Qed.

(** What decides the fate of a trajectory is the same in a state and
    in a later one. *)
Lemma triage_extends s t :
  extends B X s t ->
  isdir E t src = isdir E s src /\
  isfile E t outcar = isfile E s outcar /\
  is_converged E outcar t = is_converged E outcar s.
Proof.
  intros Hext. destruct (lookup_source_extends s t Hext) as [H1 H2].
  unfold isdir, isfile, is_converged, read_text. now rewrite H1, H2.
Qed.




















End Replay.

Section Batch.
Variables (E : env) (base : string) (B : list string) (sub : string)
  (idx : Z) (hd : option string) (dry : bool).
Hypothesis HB : resolve E base = Some B.
Hypothesis Hsub : simple_name sub = true.
Hypothesis Hsub1 : sub <> "01_submit_rerun.py".
Hypothesis Hsub2 : sub <> "script_rerun.sh".
Hypothesis Hout : helpers_outside E base "script_rerun.sh" hd = true.

Let X := generated_names sub idx.
Let body := process_folder E base sub idx hd dry.

Lemma for_each_extends l s :
  Forall (fun d => simple_name d = true) l ->
  extends B X s (out_fs (for_each body l s)).
Proof.
  intros Hl. revert s.
  change (steps (extends B X) (for_each body l)).
  apply steps_for_each.
  - apply extends_refl.
  - apply extends_trans.
  - intros T HT s. rewrite Forall_forall in Hl.
    apply (process_folder_extends E base B sub idx T HB Hsub (Hl T HT)).
Qed.



Lemma listdir_names s names :
  listdir E s base = Ok names <-> entry_names B s = Some names.
Proof.
  unfold listdir, lookup, entry_names. rewrite HB.
  destruct (get B s) as [[|es]|]; split; intros H;
    try discriminate; now injection H as <-.
Qed.


End Batch.
Lemma process_eval E base sub idx hd dry fs :
  process E base sub idx hd dry fs =
  match listdir E fs base with
  | Raise e => Out fs [] (Raise e)
  | Ok names =>
      match Sorting.sorted trajectory_key
              (trajectory_candidates E base fs names) with
      | Raise e => Out fs [] (Raise e)
      | Ok dirs => for_each (process_folder E base sub idx hd dry) dirs fs
      end
  end.
Proof.
  unfold process, bind, reads, gets. cbn [out_res out_fs out_log].
  destruct (listdir E fs base) as [names|e]; cbn [out_res out_fs out_log];
    [|reflexivity].
  destruct (Sorting.sorted _ _) as [dirs|e]; cbn [out_res out_fs out_log app];
    [|reflexivity].
  now destruct (for_each _ dirs fs).
Qed.



(** What happens there, call by call. *)
Lemma inside_trajectory_call_by_call :
  let E := Scenario.world_inside in
  let first := process E "/work/base" "opt" 1 None false Scenario.fs_one in
  let second := process E "/work/base" "opt" 1 None false (out_fs first) in
  out_res first = Ok tt /\
  In (Sbatch "/work/base/trajectory_0") (out_log first) /\
  helpers_outside E "/work/base" "script_rerun.sh" None = false /\
  out_res second = Raise SameFileError /\
  out_log second =
    [Print "Not converged: trajectory_0/opt -> creating rerun folder";
     Print "Rerun folder already exists: trajectory_0/opt_run1. Will reuse it.";
     Makedirs "/work/base/trajectory_0/opt_run1";
     Makedirs "/work/base/trajectory_0";
     WriteFile "/work/base/trajectory_0/01_submit_rerun.py"
       (encode_utf8 (submit_contents "opt_run1"));
     Copy2 "/work/base/trajectory_0/script_rerun.sh"
       "/work/base/trajectory_0/script_rerun.sh"].
Proof. vm_compute. repeat split. do 7 right. now left. Qed.


End ReplayFacts.

(* ================================================================== *)
(** * Dry runs *)
(* ================================================================== *)

Module DryRunFacts.
Import PyStr OsPath Fs Os Eff Script Spec.
Import RunFacts LogFacts BatchFacts PartFacts.
Local Open Scope list_scope.





(** The two ways in which it fails, in the same world. *)
Lemma dry_run_makes_directory_and_prints_otherwise :
  let dry := process Scenario.world "base" "opt" 1 None true Scenario.fs_one in
  let live := process Scenario.world "base" "opt" 1 None false Scenario.fs_one in
  isdir Scenario.world Scenario.fs_one "base/trajectory_0/opt_run1" = false /\
  isdir Scenario.world (out_fs dry) "base/trajectory_0/opt_run1" = true /\
  isfile Scenario.world Scenario.fs_one "base/trajectory_0/01_submit_rerun.py" = false /\
  isfile Scenario.world (out_fs dry) "base/trajectory_0/01_submit_rerun.py" = true /\
  diagnostics (out_log dry) =
    ["Not converged: trajectory_0/opt -> creating rerun folder";
     "[DRY-RUN] Would copy folder: base/trajectory_0/opt -> base/trajectory_0/opt_run1";
     "[DRY-RUN] Would submit: sbatch script_rerun.sh (cwd=base/trajectory_0)"] /\
  diagnostics (out_log live) =
    ["Not converged: trajectory_0/opt -> creating rerun folder";
     "Submitted sbatch in base/trajectory_0 -> returncode=0";
     "Submitted batch job 1"].
Proof. vm_compute. repeat split. Qed.

End DryRunFacts.

(* ================================================================== *)
(** * More on runs *)
(* ================================================================== *)

Module RunMoreFacts.
Import Fs Eff.
Local Open Scope list_scope.

Lemma bind_log_prefix {A B} (m : M A) (k : A -> M B) fs :
  exists l, out_log (bind m k fs) = out_log (m fs) ++ l.
Proof.
  unfold bind. destruct (out_res (m fs)); cbn [out_log].
  - eexists; reflexivity.
  - exists []. now rewrite app_nil_r.
Qed.

End RunMoreFacts.

Module DeprecatedFacts.
Import Fs Eff Deprecated.

(** The deprecated editor of the entry script edits nothing. *)
Lemma update_submit_io_read_only_prints (trajectory_dir target_subpath : string)
  (fs : node) :
  update_submit_io_read trajectory_dir target_subpath fs =
  Out fs
    [Print ("Info: Skipping regex edit; 01_submit_rerun.py is rewritten to use "
            ++ target_subpath ++ ".")]
    (Ok tt).
Proof. reflexivity. Qed.

End DeprecatedFacts.

(* ================================================================== *)
(** * The triage of a trajectory *)
(* ================================================================== *)

Module TriageFacts.
Import PyStr OsPath Fs Os Eff Sorting Script Spec.
Import RunFacts RunMoreFacts FsFacts OsFacts PartFacts BatchFacts.
Local Open Scope list_scope.

Lemma mkdirs_at_file q n data perm :
  get q n = Some (File data perm) -> mkdirs q n = Raise FileExistsError.
Proof.
  revert n; induction q as [|c q IH]; intros n; simpl.
  - intros H. injection H as ->. reflexivity.
  - destruct n as [|es]; [discriminate|].
    destruct (assoc c es) as [m|]; [|discriminate].
    intros H. now rewrite (IH _ H).
Qed.

Lemma makedirs_at_file E fs p :
  isfile E fs p = true -> makedirs E fs p = Raise FileExistsError.
Proof.
  unfold isfile, lookup, makedirs.
  destruct (resolve E p) as [q|]; [|discriminate].
  destruct (get q fs) as [[data perm|]|] eqn:Hg; try discriminate.
  intros _. eapply mkdirs_at_file; eauto.
Qed.

Lemma stage_one_event E base sub idx dry folder fs :
  exists ev,
    (out_log (stage E base sub idx dry folder fs) = [ev]) /\
    (exists_ E fs (join (join base folder) (rerun_dir_name sub idx)) = true ->
     stage E base sub idx dry folder fs =
     Out fs [Print ("Rerun folder already exists: " ++ folder ++ "/"
                    ++ rerun_dir_name sub idx ++ ". Will reuse it.")%string]
       (Ok tt)).
Proof.
  unfold stage, bind, gets, print, emit, shutil_copytree, writes.
  cbn [out_res out_fs out_log].
  destruct (exists_ E fs _); cbn [out_res out_fs out_log app].
  - eexists; split; [reflexivity|]. intros _. reflexivity.
  - destruct dry; cbn [out_res out_fs out_log app].
    + eexists; split; [reflexivity|]. discriminate.
    + destruct (copytree E fs _ _); cbn [out_res out_fs out_log app];
        eexists; (split; [reflexivity|discriminate]).
Qed.

(** X1. The loop body first sorts the trajectory out. Without the subfolder,
    or without a regular file [OUTCAR] in it, the trajectory costs one
    line and nothing else; these two cases and the converged one are the
    only ones in which the body ends after one event. *)
Theorem process_folder_triage (E : env) (base sub : string) (idx : Z)
  (hd : option string) (dry : bool) (folder : string) (fs : node) :
  let src := join (join base folder) sub in
  let outcar := join src "OUTCAR" in
  let o := process_folder E base sub idx hd dry folder fs in
  (isdir E fs src = false ->
   o = Out fs [Print ("Skipping " ++ folder ++ ": missing subfolder '"
                      ++ sub ++ "'.")%string] (Ok tt)) /\
  (isdir E fs src = true -> isfile E fs outcar = false ->
   o = Out fs [Print ("Skipping " ++ folder ++ ": missing OUTCAR in '"
                      ++ sub ++ "'.")%string] (Ok tt)) /\
  ((exists line, out_log o = [Print line]) <->
   isdir E fs src && isfile E fs outcar && negb (is_converged E outcar fs)
   = false).
Proof.
  cbv zeta. rewrite process_folder_unfold. cbv zeta.
  destruct (isdir E fs _) eqn:Hd; cbn [negb andb].
  2:{ split; [reflexivity|]. split; [discriminate|].
      split; [reflexivity|]. intros _. eexists. reflexivity. }
  split; [discriminate|].
  destruct (isfile E fs _) eqn:Hf; cbn [negb andb].
  2:{ split; [reflexivity|]. split; [reflexivity|].
      intros _. eexists. reflexivity. }
  split; [discriminate|].
  destruct (is_converged E _ fs) eqn:Hc; cbn [negb].
  { split; [reflexivity|]. intros _. eexists. reflexivity. }
  split; [|discriminate].
  intros [line Hlog]. exfalso. revert Hlog.
  erewrite bind_ok by reflexivity. cbn [out_log].
  destruct (bind_log_prefix (stage E base sub idx dry folder)
              (fun _ => attempt E base sub idx hd dry folder) fs) as [l ->].
  destruct (stage_one_event E base sub idx dry folder fs) as [ev [-> _]].
  discriminate.
Qed.

Lemma process_folder_triage_witness :
  process_folder Scenario.world "base" "opt" 1 None false "trajectory_x"
    Scenario.fs_mixed =
  Out Scenario.fs_mixed
    [Print "Skipping trajectory_x: missing subfolder 'opt'."] (Ok tt).
Proof.
  destruct (process_folder_triage Scenario.world "base" "opt" 1 None false
              "trajectory_x" Scenario.fs_mixed) as (H & _).
  apply H. reflexivity.
Defined.

(** X11. When the place of the rerun directory is taken by a regular file,
    [os.path.exists] is true, the file is taken for a rerun directory to
    reuse, and [os.makedirs] fails on it with FileExistsError. No handler
    catches it: the batch ends there, the remaining trajectories are not
    looked at. *)
Theorem rerun_path_taken_by_file (E : env) (base sub : string) (idx : Z)
  (hd : option string) (dry : bool) (folder : string) (rest : list string)
  (fs : node) :
  let src := join (join base folder) sub in
  let rerun := join (join base folder) (rerun_dir_name sub idx) in
  isdir E fs src = true ->
  isfile E fs (join src "OUTCAR") = true ->
  is_converged E (join src "OUTCAR") fs = false ->
  isfile E fs rerun = true ->
  for_each (process_folder E base sub idx hd dry) (folder :: rest) fs =
  Out fs
    [Print ("Not converged: " ++ folder ++ "/" ++ sub
            ++ " -> creating rerun folder")%string;
     Print ("Rerun folder already exists: " ++ folder ++ "/"
            ++ rerun_dir_name sub idx ++ ". Will reuse it.")%string;
     Makedirs rerun]
    (Raise FileExistsError).
Proof.
  cbv zeta. intros Hd Hf Hc Hr.
  rewrite for_each_cons. apply bind_raise.
  rewrite process_folder_unfold. cbv zeta. rewrite Hd, Hf, Hc. cbn [negb].
  destruct (stage_one_event E base sub idx dry folder fs) as [ev [_ Hst]].
  assert (Hex : exists_ E fs (join (join base folder) (rerun_dir_name sub idx))
                = true).
  { rewrite exists_kind, Hr. apply orb_true_r. }
  specialize (Hst Hex).
  erewrite bind_ok by reflexivity.
  erewrite bind_ok by exact Hst.
  unfold attempt, except_FileNotFoundError.
  rewrite prepare_unfold.
  erewrite bind_raise
    by (unfold os_makedirs; apply writes_raise, makedirs_at_file; exact Hr).
  reflexivity.
Qed.

Lemma rerun_path_taken_by_file_witness :
  for_each (process_folder Scenario.world "base" "opt" 1 None false)
    ["trajectory_0"; "trajectory_1"] Cases.fs_stray =
  Out Cases.fs_stray
    [Print "Not converged: trajectory_0/opt -> creating rerun folder";
     Print "Rerun folder already exists: trajectory_0/opt_run1. Will reuse it.";
     Makedirs "base/trajectory_0/opt_run1"]
    (Raise FileExistsError).
Proof.
  apply (rerun_path_taken_by_file Scenario.world "base" "opt" 1 None false
           "trajectory_0" ["trajectory_1"] Cases.fs_stray); reflexivity.
Defined.

End TriageFacts.

(* ================================================================== *)
(** * The loop over the trajectories *)
(* ================================================================== *)

Module LoopFacts.
Import PyStr OsPath Fs Os Eff Sorting Script Spec Trace.
Import RunFacts RunMoreFacts FsFacts OsFacts PartFacts LogFacts SortingFacts OrderFacts.
Local Open Scope list_scope.
Local Open Scope Z_scope.

Lemma lor_land_73 (m : Z) : Z.land (Z.lor m 73) 73 = 73.
Proof.
  rewrite Z.land_lor_distr_l. change (Z.land 73 73) with 73.
  apply Z.bits_inj'. intros n Hn.
  rewrite Z.lor_spec, Z.land_spec.
  destruct (Z.testbit 73 n); [apply orb_true_r | now rewrite andb_false_r].
Qed.

Lemma logs_only_body (E : env) (base sub : string) (idx : Z)
  (hd : option string) (dry : bool) (folder : string) :
  logs_only (in_trajectory base sub idx folder)
    (process_folder E base sub idx hd dry folder).
Proof.
  unfold process_folder, prepare_and_submit_rerun, submit, shutil_copytree,
    os_makedirs, write_file, shutil_copy2, os_chmod, print.
  logs; unfold in_trajectory; cbv zeta;
    try exact I; try reflexivity;
    try (left; reflexivity); try (right; reflexivity);
    try (split; reflexivity).
  split; [reflexivity | apply lor_land_73].
Qed.

Lemma for_each_log_in {A} (P : A -> event -> Prop) (body : A -> M unit)
  (l : list A) :
  (forall x, In x l -> logs_only (P x) (body x)) ->
  logs_only (fun ev => exists x, In x l /\ P x ev) (for_each body l).
Proof.
  induction l as [|x l IH]; intros Hb; cbn [for_each].
  - apply logs_only_ret.
  - apply logs_only_bind.
    + intros fs. eapply Forall_impl; [|apply (Hb x); now left].
      intros ev Hev. exists x. split; [now left | exact Hev].
    + intros _ fs. eapply Forall_impl; [|apply IH].
      * intros ev [y [Hy Hev]]. exists y. split; [now right | exact Hev].
      * intros y Hy. apply Hb. now right.
Qed.

Lemma for_each_ok_in {A} (body : A -> M unit) (l : list A) (x : A) fs :
  out_res (for_each body l fs) = Ok tt -> In x l ->
  exists s, incl (out_log (body x s)) (out_log (for_each body l fs)).
Proof.
  revert fs; induction l as [|y l IH]; intros fs Hok [].
  - subst y. exists fs. rewrite for_each_cons.
    destruct (bind_log_prefix (body x) (fun _ => for_each body l) fs)
      as [l' ->].
    apply incl_appl, incl_refl.
  - rewrite for_each_cons in *. unfold bind in *.
    destruct (body y fs) as [s1 l1 [[]|e]]; cbn [out_res out_fs out_log] in *;
      [|discriminate].
    destruct (IH s1 Hok H) as [s Hs]. exists s.
    apply incl_appr. exact Hs.
Qed.

Lemma process_folder_first_line E base sub idx hd dry folder fs :
  exists line rest,
    out_log (process_folder E base sub idx hd dry folder fs)
    = Print line :: rest /\ verdict folder sub line.
Proof.
  rewrite process_folder_unfold. cbv zeta. unfold verdict.
  destruct (isdir E fs _); cbn [negb];
    [|eexists; eexists; split; [reflexivity | auto]].
  destruct (isfile E fs _); cbn [negb];
    [|eexists; eexists; split; [reflexivity | auto]].
  destruct (is_converged E _ fs);
    [eexists; eexists; split; [reflexivity | auto 6]|].
  erewrite bind_ok by reflexivity. cbn [out_log app].
  eexists; eexists; split; [reflexivity | auto 6].
Qed.

Lemma candidates_in E base fs names d :
  In d (trajectory_candidates E base fs names) <->
  In d names /\ isdir E fs (join base d) = true /\
  startswith d "trajectory_" = true.
Proof.
  unfold trajectory_candidates. rewrite filter_In, andb_true_iff. tauto.
Qed.

(** X2. A base directory without trajectory directories (an empty one among
    them): the batch does nothing, prints nothing and returns. *)
Theorem process_without_trajectories (E : env) (base sub : string) (idx : Z)
  (hd : option string) (dry : bool) (fs : node) (names : list string) :
  listdir E fs base = Ok names ->
  (forall d, In d names ->
     isdir E fs (join base d) && startswith d "trajectory_" = false) ->
  process E base sub idx hd dry fs = Out fs [] (Ok tt).
Proof.
  intros Hl Hn. rewrite ReplayFacts.process_eval, Hl.
  assert (Hc : trajectory_candidates E base fs names = []).
  { unfold trajectory_candidates. clear Hl.
    induction names as [|d names IH]; [reflexivity|]. cbn [filter].
    rewrite (Hn d) by now left. apply IH. intros d' Hd'. apply Hn. now right. }
  rewrite Hc. reflexivity.
Qed.

Lemma process_without_trajectories_witness :
  process Scenario.world "base" "opt" 1 None false Cases.fs_plain =
  Out Cases.fs_plain [] (Ok tt).
Proof.
  apply (process_without_trajectories _ _ _ _ _ _ _ ["notes.txt"]);
    [reflexivity|].
  intros d [<-|[]]. reflexivity.
Defined.

(** X3. The listing of the base directory is outside every handler:
    when the base directory is not a directory, [process] ends with the
    exception of [os.listdir], and nothing has been printed or changed by
    then. The exception is NotADirectoryError when the base path is a
    regular file, and the ENOENT FileNotFoundError when its last
    component is missing from a directory that is there. *)
Theorem process_base_not_listed (E : env) (base sub : string) (idx : Z)
  (hd : option string) (dry : bool) (fs : node) :
  (isdir E fs base = false ->
   exists e, process E base sub idx hd dry fs = Out fs [] (Raise e)) /\
  (isfile E fs base = true ->
   process E base sub idx hd dry fs = Out fs [] (Raise NotADirectoryError)) /\
  (forall q c,
     resolve E base = Some (q ++ [c]) -> is_dir_at q fs = true ->
     get (q ++ [c]) fs = None ->
     process E base sub idx hd dry fs =
     Out fs [] (Raise (FileNotFoundError
                         ("[Errno 2] No such file or directory: '" ++ base
                          ++ "'")%string))).
Proof.
  split; [|split].
  - intros H. rewrite ReplayFacts.process_eval. unfold listdir.
    unfold isdir in H. destruct (lookup E fs base) as [[|]|];
      try discriminate; eexists; reflexivity.
  - intros H. rewrite ReplayFacts.process_eval. unfold listdir.
    unfold isfile in H. destruct (lookup E fs base) as [[|]|];
      try discriminate. reflexivity.
  - intros q c Hq _ Hg. rewrite ReplayFacts.process_eval.
    unfold listdir, lookup. rewrite Hq, Hg. reflexivity.
Qed.

Lemma process_base_not_listed_witness :
  process Scenario.world "elsewhere" "opt" 1 None false Scenario.fs_one =
  Out Scenario.fs_one []
    (Raise (FileNotFoundError
              "[Errno 2] No such file or directory: 'elsewhere'")).
Proof.
  destruct (process_base_not_listed Scenario.world "elsewhere" "opt" 1 None
              false Scenario.fs_one) as (_ & _ & H).
  apply (H ["work"] "elsewhere"); reflexivity.
Defined.

Lemma int_acc_value (s : string) : forall acc,
  all_chars is_decimal s = true -> 0 <= acc ->
  exists n, int_acc acc s = Some n /\ acc <= n.
Proof.
  induction s as [|c s IH]; intros acc Hs Hacc; cbn [int_acc].
  - exists acc. split; [reflexivity | lia].
  - cbn [all_chars] in Hs. apply andb_true_iff in Hs as [Hc Hs].
    rewrite Hc.
    assert (Hv : 0 <= digit_value c).
    { unfold is_decimal in Hc. apply andb_true_iff in Hc as [Hc _].
      apply Nat.leb_le in Hc. unfold digit_value. lia. }
    destruct (IH (10 * acc + digit_value c) Hs ltac:(lia)) as [n [Hn Hle]].
    exists n. split; [exact Hn | lia].
Qed.

Lemma decimal_isdigit (s : string) :
  all_chars is_decimal s = true -> all_chars char_isdigit s = true.
Proof.
  apply all_chars_impl. intros c Hc. unfold char_isdigit. now rewrite Hc.
Qed.

Lemma int_acc_none (s : string) : forall acc,
  all_chars is_decimal s = false -> int_acc acc s = None.
Proof.
  induction s as [|c s IH]; intros acc Hs; cbn [int_acc all_chars] in *.
  - discriminate.
  - destruct (is_decimal c); [apply IH; exact Hs | reflexivity].
Qed.

(** X4. The sort key of a name, by its last [_]-separated component.
    In a name of at most 255 characters (a directory entry), a non-empty
    run of decimal digits gives its value, which is never negative. A
    component that [isdigit] refuses (an empty one, letters, a sign) gives
    infinity, so that [trajectory_-3] goes to the end. A component that
    [isdigit] accepts and that is not all decimal makes the key raise
    ValueError. No key is a negative number. *)
Theorem trajectory_key_cases (x : string) :
  let suffix := last (split "_" x) EmptyString in
  ((String.length x <= 255)%nat ->
   suffix <> EmptyString -> all_chars is_decimal suffix = true ->
   exists n, trajectory_key x = Ok (KInt n) /\ 0 <= n /\ int suffix = Some n) /\
  (isdigit suffix = false -> trajectory_key x = Ok KInf) /\
  (isdigit suffix = true -> all_chars is_decimal suffix = false ->
   trajectory_key x = Raise ValueError) /\
  (forall n, trajectory_key x = Ok (KInt n) -> 0 <= n).
Proof.
  cbv zeta. unfold trajectory_key.
  set (suffix := last (split "_" x) EmptyString).
  assert (Hint : forall n, int suffix = Some n -> 0 <= n).
  { intros n Hn. destruct (int_decimal _ _ Hn) as [Hne Hdec].
    destruct (int_acc_value suffix 0 Hdec ltac:(lia)) as [m [Hm Hle]].
    unfold int in Hn. destruct suffix; [congruence|].
    rewrite Hm in Hn. injection Hn as <-. exact Hle. }
  split; [|split; [|split]].
  - intros _ Hne Hdec.
    destruct (int_acc_value suffix 0 Hdec ltac:(lia)) as [n [Hn Hle]].
    assert (Hi : int suffix = Some n).
    { unfold int. destruct suffix; [congruence | exact Hn]. }
    assert (Hd : isdigit suffix = true).
    { unfold isdigit. destruct suffix; [congruence|].
      now apply decimal_isdigit. }
    rewrite Hd, Hi. exists n. auto.
  - intros ->. reflexivity.
  - intros -> Hdec.
    assert (Hi : int suffix = None).
    { unfold int. destruct suffix; [reflexivity|]. now apply int_acc_none. }
    now rewrite Hi.
  - intros n. destruct (isdigit suffix); [|discriminate].
    destruct (int suffix) as [m|] eqn:Hi; [|discriminate].
    intros H. injection H as <-. now apply Hint.
Qed.

Lemma trajectory_key_cases_witness :
  trajectory_key "trajectory_-3" = Ok KInf /\
  trajectory_key "trajectory_" = Ok KInf /\
  (exists n, trajectory_key "trajectory_007" = Ok (KInt n) /\ 0 <= n /\
             int "007" = Some n) /\
  trajectory_key ("trajectory_" ++ Scenario.superscript_two)
  = Raise ValueError.
Proof.
  split; [|split; [|split]].
  - apply (trajectory_key_cases "trajectory_-3"). reflexivity.
  - apply (trajectory_key_cases "trajectory_"). reflexivity.
  - apply (trajectory_key_cases "trajectory_007");
      [cbn; lia | discriminate | reflexivity].
  - apply (trajectory_key_cases ("trajectory_" ++ Scenario.superscript_two));
      reflexivity.
Defined.

(** X5. When every listed name has a key, [process] runs its loop body over
    the selected directories, each once, in an order that does not
    decrease by key; directories with equal keys (all those without a
    number among them) stay in the order of the listing. *)
Theorem process_in_key_order (E : env) (base sub : string) (idx : Z)
  (hd : option string) (dry : bool) (fs : node) (names : list string) :
  listdir E fs base = Ok names ->
  Forall (fun d => exists k, trajectory_key d = Ok k) names ->
  exists dirs,
    process E base sub idx hd dry fs =
    for_each (process_folder E base sub idx hd dry) dirs fs /\
    Permutation (trajectory_candidates E base fs names) dirs /\
    StronglySorted (key_order trajectory_key) dirs /\
    forall k, filter (has_key trajectory_key k) dirs =
              filter (has_key trajectory_key k)
                (trajectory_candidates E base fs names).
Proof.
  intros Hl Hk.
  assert (Hc : Forall (fun d => exists k, trajectory_key d = Ok k)
                 (trajectory_candidates E base fs names)).
  { rewrite Forall_forall in *. intros d Hd. apply Hk.
    now apply candidates_in in Hd. }
  destruct (sorted_total trajectory_key _ Hc) as [dirs Hs].
  exists dirs. rewrite ReplayFacts.process_eval, Hl, Hs.
  split; [reflexivity|]. now apply sorted_spec.
Qed.

Lemma process_in_key_order_witness :
  exists dirs,
    process Scenario.world "base" "opt" 1 None false Scenario.fs_mixed =
    for_each (process_folder Scenario.world "base" "opt" 1 None false) dirs
      Scenario.fs_mixed /\
    Permutation ["trajectory_10"; "trajectory_2"; "trajectory_x"] dirs /\
    StronglySorted (key_order trajectory_key) dirs.
Proof.
  destruct (process_in_key_order Scenario.world "base" "opt" 1 None false
              Scenario.fs_mixed
              ["trajectory_10"; "notes.txt"; "trajectory_2"; "trajectory_x"])
    as (dirs & H1 & H2 & H3 & _).
  - reflexivity.
  - repeat constructor; eexists; reflexivity.
  - exists dirs. auto.
Defined.

(** X7. Every call the batch makes goes to a selected trajectory directory:
    directories are made, the entry script is written, the scheduler
    script is copied to and made executable, and the job is submitted
    only in [base/d] for a listed directory [d] whose name starts with
    [trajectory_]; nothing is written, copied to or submitted from
    anywhere else. *)
Theorem process_calls_in_trajectories (E : env) (base sub : string) (idx : Z)
  (hd : option string) (dry : bool) (fs : node) (names : list string) :
  listdir E fs base = Ok names ->
  Forall (in_trajectories base sub idx (trajectory_candidates E base fs names))
    (out_log (process E base sub idx hd dry fs)).
Proof.
  intros Hl. rewrite ReplayFacts.process_eval, Hl.
  destruct (Sorting.sorted _ _) as [dirs|e] eqn:Hs; [|constructor].
  apply sorted_spec in Hs as (Hp & _).
  eapply Forall_impl;
    [|apply (for_each_log_in (in_trajectory base sub idx));
      intros x _; apply logs_only_body].
  intros ev [d [Hd Hev]]. unfold in_trajectories.
  assert (Hin : In d (trajectory_candidates E base fs names))
    by (eapply Permutation_in; [symmetry; exact Hp | exact Hd]).
  destruct ev; try exact I; exists d; auto.
Qed.

Lemma process_calls_in_trajectories_witness :
  Forall (in_trajectories "base" "opt" 1 ["trajectory_0"])
    (out_log (process Scenario.world "base" "opt" 1 None false
                Scenario.fs_one)).
Proof.
  apply (process_calls_in_trajectories Scenario.world "base" "opt" 1 None
           false Scenario.fs_one ["trajectory_0"]).
  reflexivity.
Defined.

(** X6. A batch that returns has reported on every selected directory: for
    each of them one of the four lines of the loop is in the output. *)
Theorem process_reports_every_trajectory (E : env) (base sub : string)
  (idx : Z) (hd : option string) (dry : bool) (fs : node)
  (names : list string) (d : string) :
  listdir E fs base = Ok names ->
  out_res (process E base sub idx hd dry fs) = Ok tt ->
  In d names -> isdir E fs (join base d) = true ->
  startswith d "trajectory_" = true ->
  exists line,
    verdict d sub line /\
    In (Print line) (out_log (process E base sub idx hd dry fs)).
Proof.
  intros Hl Hok Hd Hdir Hpre.
  rewrite ReplayFacts.process_eval, Hl in *.
  destruct (Sorting.sorted _ _) as [dirs|e] eqn:Hs; [|discriminate].
  apply sorted_spec in Hs as (Hp & _).
  assert (Hin : In d dirs).
  { eapply Permutation_in; [exact Hp|]. apply candidates_in. auto. }
  destruct (for_each_ok_in _ _ _ _ Hok Hin) as [s Hs].
  destruct (process_folder_first_line E base sub idx hd dry d s)
    as (line & rest & Hlog & Hv).
  exists line. split; [exact Hv|]. apply Hs. rewrite Hlog. now left.
Qed.

Lemma process_reports_every_trajectory_witness :
  exists line,
    verdict "trajectory_x" "opt" line /\
    In (Print line)
      (out_log (process Scenario.world "base" "opt" 1 None false
                  Scenario.fs_mixed)).
Proof.
  apply (process_reports_every_trajectory Scenario.world "base" "opt" 1 None
           false Scenario.fs_mixed
           ["trajectory_10"; "notes.txt"; "trajectory_2"; "trajectory_x"]);
    try reflexivity.
  do 3 right. now left.
Defined.

End LoopFacts.

(* ================================================================== *)
(** * What the Rerun Preparer leaves behind *)
(* ================================================================== *)

Module StagedFacts.
Import PyStr OsPath Fs Os Eff Sorting Script Spec Trace Worlds.
Import RunFacts RunMoreFacts FsFacts OsFacts PartFacts LogFacts.
Import FootprintFacts StagingFacts LoopFacts.
Local Open Scope list_scope.
Local Open Scope Z_scope.










Lemma process_folder_settled (E : env) (base sub : string) (idx : Z)
  (hd : option string) (dry : bool) (folder : string) (fs : node) :
  isdir E fs (join (join base folder) sub)
  && isfile E fs (join (join (join base folder) sub) "OUTCAR")
  && negb (is_converged E (join (join (join base folder) sub) "OUTCAR") fs)
  = false ->
  exists line,
    process_folder E base sub idx hd dry folder fs = Out fs [Print line] (Ok tt).
Proof.
  rewrite process_folder_unfold. cbv zeta.
  destruct (isdir E fs _); cbn [negb andb]; [|eexists; reflexivity].
  destruct (isfile E fs _); cbn [negb andb]; [|eexists; reflexivity].
  destruct (is_converged E _ fs); cbn [negb]; [eexists; reflexivity|].
  discriminate.
Qed.

(** X8. A batch over trajectories that are all converged or incomplete
    (without the subfolder or without OUTCAR) only reads and prints: the
    file system is left as it was, and no call is made. *)
Theorem process_settled_batch_reads_only (E : env) (base sub : string)
  (idx : Z) (hd : option string) (dry : bool) (fs : node)
  (names : list string) :
  listdir E fs base = Ok names ->
  (forall d, In d names ->
     isdir E fs (join base d) = true -> startswith d "trajectory_" = true ->
     isdir E fs (join (join base d) sub)
     && isfile E fs (join (join (join base d) sub) "OUTCAR")
     && negb (is_converged E (join (join (join base d) sub) "OUTCAR") fs)
     = false) ->
  let o := process E base sub idx hd dry fs in
  out_fs o = fs /\
  Forall (fun ev => exists line, ev = Print line) (out_log o) /\
  (out_res o = Ok tt \/ out_res o = Raise ValueError).
Proof.
  intros Hl Hset. cbv zeta. rewrite ReplayFacts.process_eval, Hl.
  destruct (Sorting.sorted _ _) as [dirs|e] eqn:Hs.
  2:{ apply OrderFacts.trajectory_order_raise in Hs as [-> _].
      cbn [out_fs out_log out_res]. auto. }
  apply SortingFacts.sorted_spec in Hs as (Hp & _).
  assert (Hd : forall d, In d dirs ->
            exists line,
              process_folder E base sub idx hd dry d fs
              = Out fs [Print line] (Ok tt)).
  { intros d Hd. apply process_folder_settled.
    apply (Permutation_in _ (Permutation_sym Hp)) in Hd.
    apply candidates_in in Hd as (Hn & Hdir & Hpre). now apply Hset. }
  clear Hp. induction dirs as [|d dirs IH].
  - cbn. auto.
  - rewrite for_each_cons.
    destruct (Hd d (or_introl eq_refl)) as [line Hline].
    rewrite (bind_ok _ _ _ _ _ _ Hline).
    cbn [out_fs out_log out_res app].
    destruct IH as (H1 & H2 & H3); [intros d' Hd'; apply Hd; now right|].
    split; [exact H1|]. split; [|exact H3].
    constructor; [now exists line | exact H2].
Qed.

Lemma process_settled_batch_reads_only_witness :
  let o := process Scenario.world "base" "opt" 1 None false
             Cases.fs_settled in
  out_fs o = Cases.fs_settled /\
  Forall (fun ev => exists line, ev = Print line) (out_log o) /\
  (out_res o = Ok tt \/ out_res o = Raise ValueError).
Proof.
  cbv zeta.
  apply (process_settled_batch_reads_only Scenario.world "base" "opt" 1 None
           false Cases.fs_settled ["trajectory_10"; "trajectory_x"]);
    [reflexivity|].
  intros d [<-|[<-|[]]] _ _; reflexivity.
Defined.

End StagedFacts.

(* ================================================================== *)
(** * The rerun directory and the original folders *)
(* ================================================================== *)

Module CopyFacts.
Import PyStr OsPath Fs Os Eff Sorting Script Spec Trace.
Import PyStrFacts RunFacts RunMoreFacts FsFacts OsFacts PartFacts PathFacts.
Import FootprintFacts StagingFacts LoopFacts.
Local Open Scope list_scope.

Lemma apart_siblings (B : list string) (T a b : string) (r : list string) :
  a <> b -> apart (B ++ T :: a :: r) (B ++ [T; b]).
Proof.
  intros Hab. induction B as [|c B IH]; cbn [app].
  - apply apart_cons. split; apply prefix_of_cons_neq; congruence.
  - now apply apart_cons.
Qed.

Lemma rerun_dir_name_has_run (sub : string) (idx : Z) :
  str_in "_run" (rerun_dir_name sub idx) = true.
Proof.
  apply str_in_spec. exists sub, (str_of_Z idx). reflexivity.
Qed.

Lemma rerun_dir_name_not_script (sub : string) (idx : Z) :
  rerun_dir_name sub idx <> "01_submit_rerun.py" /\
  rerun_dir_name sub idx <> "script_rerun.sh".
Proof.
  pose proof (rerun_dir_name_has_run sub idx) as H.
  split; intros Heq; rewrite Heq in H; discriminate.
Qed.

Lemma copytree_copy (E : env) (s s1 : node) (src dst : string)
  (q : list string) :
  copytree E s src dst = Ok s1 -> resolve E dst = Some q ->
  exists es, lookup E s src = Some (Dir es) /\ get q s1 = Some (Dir es).
Proof.
  unfold copytree. destruct (lookup E s src) as [[|es]|]; try discriminate.
  intros H Hq. rewrite Hq in H.
  destruct (exists_ E s dst); [discriminate|].
  destruct (mkdirs q s) as [s0|]; [|discriminate].
  apply update_post in H as [v [Hv Hg]]. injection Hv as <-.
  exists es. auto.
Qed.

Lemma stage_copies (E : env) (base sub : string) (idx : Z) (T : string)
  (s : node) :
  exists_ E s (join (join base T) (rerun_dir_name sub idx)) = false ->
  stage E base sub idx false T s =
  shutil_copytree E (join (join base T) sub)
    (join (join base T) (rerun_dir_name sub idx)) s.
Proof.
  intros Hex. unfold stage, bind, gets. cbn [out_res out_fs out_log].
  rewrite Hex. cbn [app]. symmetry. apply outcome_eta.
Qed.

Section Copy.
Variables (E : env) (base : string) (B : list string) (sub : string)
  (idx : Z) (hd : option string) (T : string).
Hypothesis HB : resolve E base = Some B.
Hypothesis Hsub : simple_name sub = true.
Hypothesis HT : simple_name T = true.

Let traj := join base T.
Let rn := rerun_dir_name sub idx.
Let Q := B ++ [T; rn].

(** The rerun directory, once it is there, stays as it is. *)
Let kept (s t : node) : Prop :=
  forall es, get Q s = Some (Dir es) -> get Q t = Some (Dir es).

Lemma kept_refl s : kept s s.
Proof. intros es H. exact H. Qed.

Lemma kept_trans s t u : kept s t -> kept t u -> kept s u.
Proof. intros H1 H2 es H. apply H2, H1, H. Qed.

Lemma rerun_in_traj s es :
  get Q s = Some (Dir es) -> is_dir_at (B ++ [T]) s = true.
Proof.
  intros H. apply (is_dir_at_parent _ rn). exists (Dir es).
  now rewrite <- app_assoc.
Qed.

Lemma kept_makedirs_rerun s s' :
  makedirs E s (join traj rn) = Ok s' -> kept s s'.
Proof.
  unfold makedirs. unfold traj, rn.
  rewrite (resolve_rerun E base B sub idx T HB Hsub HT).
  intros H es Hg. fold rn in H. fold Q in H.
  rewrite (mkdirs_id _ _ _ Hg) in H. injection H as <-. exact Hg.
Qed.

Lemma kept_makedirs_traj s s' : makedirs E s traj = Ok s' -> kept s s'.
Proof.
  unfold makedirs. unfold traj. rewrite (resolve_traj E base B T HB HT).
  intros H es Hg. pose proof (rerun_in_traj _ _ Hg) as Hd.
  apply is_dir_at_get in Hd as [es' Hd].
  rewrite (mkdirs_id _ _ _ Hd) in H. injection H as <-. exact Hg.
Qed.

Lemma kept_update miss f s s' n r :
  update miss f (B ++ T :: n :: r) s = Ok s' -> n <> rn -> kept s s'.
Proof.
  intros H Hn es Hg. rewrite <- Hg.
  eapply update_frame; [exact H|]. now apply apart_siblings.
Qed.

Lemma kept_write_script s s' text :
  write_text E s (join traj "01_submit_rerun.py") text = Ok s' -> kept s s'.
Proof.
  unfold write_text. intros H. apply write_bytes_inv in H as (q & Hq & Hu).
  unfold traj in Hq. rewrite (resolve_script E base B T HB HT) in Hq.
  injection Hq as <-. eapply (kept_update _ _ _ _ _ []); [exact Hu|].
  intros Heq. symmetry in Heq.
  now apply (proj1 (rerun_dir_name_not_script sub idx)).
Qed.

Lemma kept_copy2 s s' helper :
  copy2 E s helper (join traj "script_rerun.sh") = Ok s' -> kept s s'.
Proof.
  intros H es Hg. pose proof (rerun_in_traj _ _ Hg) as Hd.
  destruct (copy2_target E base B T HB HT _ _ _ H Hd)
    as (data & perm & dst' & q & _ & _ & Hcase & _ & Hu).
  assert (Hn : "script_rerun.sh" <> rn).
  { intros Heq. symmetry in Heq.
    now apply (proj2 (rerun_dir_name_not_script sub idx)). }
  destruct Hcase as [-> | ->].
  - exact (kept_update _ _ _ _ _ [] Hu Hn es Hg).
  - exact (kept_update _ _ _ _ _ [basename helper] Hu Hn es Hg).
Qed.

Lemma kept_chmod s s' mode :
  chmod E s (join traj "script_rerun.sh") mode = Ok s' -> kept s s'.
Proof.
  unfold chmod, lookup. unfold traj.
  rewrite (resolve_sh E base B T HB HT).
  destruct (get _ s) as [[data perm|es']|]; try discriminate.
  - intros H. eapply (kept_update _ _ _ _ _ []); [exact H|].
    intros Heq. symmetry in Heq.
    now apply (proj2 (rerun_dir_name_not_script sub idx)).
  - intros H. injection H as <-. apply kept_refl.
Qed.

Lemma kept_attempt (dry : bool) :
  steps kept (attempt E base sub idx hd dry T).
Proof.
  pose proof kept_refl as Rr. pose proof kept_trans as Rt.
  unfold attempt. apply (steps_except_FileNotFoundError _ Rt).
  - rewrite prepare_unfold.
    unfold os_makedirs, write_file, prepare_tail, prepare_finish,
      shutil_copy2, os_chmod.
    apply (steps_bind _ Rt);
      [apply (steps_writes _ Rr); intros ? ?; apply kept_makedirs_rerun
      | intros _].
    apply (steps_bind _ Rt);
      [apply (steps_writes _ Rr); intros ? ?; apply kept_makedirs_traj
      | intros _].
    apply (steps_bind _ Rt);
      [apply (steps_writes _ Rr); intros ? ?; apply kept_write_script
      | intros _].
    apply (steps_bind _ Rt); [apply (steps_reads _ Rr) | intros helper].
    apply (steps_bind _ Rt);
      [apply (steps_writes _ Rr); intros ? ?; apply kept_copy2 | intros _].
    apply (steps_bind _ Rt); [apply (steps_ret _ Rr) | intros _].
    apply (steps_bind _ Rt).
    + apply (steps_except_Exception _ Rt); [|apply (steps_ret _ Rr)].
      apply (steps_bind _ Rt); [apply (steps_reads _ Rr) | intros mode].
      apply (steps_writes _ Rr); intros ? ?; apply kept_chmod.
    + intros _. destruct dry;
        [apply (steps_emit _ Rr) | apply (steps_submit _ Rr Rt)].
  - intros msg. unfold skip_submission, print.
    apply (steps_bind _ Rt); [apply (steps_emit _ Rr) | intros _].
    apply (steps_emit _ Rr).
Qed.

Lemma copy_then_attempt s :
  isdir E s (join traj sub) = true ->
  isfile E s (join (join traj sub) "OUTCAR") = true ->
  is_converged E (join (join traj sub) "OUTCAR") s = false ->
  exists_ E s (join traj rn) = false ->
  out_res (process_folder E base sub idx hd false T s) = Ok tt ->
  exists es,
    lookup E s (join traj sub) = Some (Dir es) /\
    get Q (out_fs (process_folder E base sub idx hd false T s))
    = Some (Dir es).
Proof.
  intros Hd Hf Hc Hex. rewrite process_folder_unfold. cbv zeta.
  fold traj. rewrite Hd, Hf, Hc. cbn [negb].
  erewrite bind_ok by reflexivity. cbn [out_res out_fs].
  destruct (copytree E s (join traj sub) (join traj rn)) as [s1|e] eqn:Hcp.
  2:{ erewrite bind_raise; [discriminate|].
      unfold traj, rn in Hex. rewrite (stage_copies E base sub idx T s Hex).
      apply writes_raise. exact Hcp. }
  erewrite bind_ok
    by (unfold traj, rn in Hex; rewrite (stage_copies E base sub idx T s Hex);
        apply writes_ok; exact Hcp).
  cbn [out_res out_fs]. intros _.
  destruct (copytree_copy E _ _ _ _ Q Hcp
              (resolve_rerun E base B sub idx T HB Hsub HT))
    as (es & Hsrc & Hg).
  exists es. split; [exact Hsrc|].
  exact (kept_attempt false s1 es Hg).
Qed.

End Copy.

(** X10. A live run on a trajectory that is not converged and has no rerun
    directory yet makes the rerun directory a copy of the calculation
    folder as it was: whatever the folder held (the last CONTCAR among
    it) is in the rerun directory when the loop body returns, and the
    folder itself is as before. *)
Theorem rerun_directory_is_copy (E : env) (base sub : string) (idx : Z)
  (hd : option string) (T : string) (s : node) :
  let src := join (join base T) sub in
  let rerun := join (join base T) (rerun_dir_name sub idx) in
  let o := process_folder E base sub idx hd false T s in
  base <> EmptyString -> simple_name sub = true -> simple_name T = true ->
  sub <> "01_submit_rerun.py" -> sub <> "script_rerun.sh" ->
  isdir E s src = true ->
  isfile E s (join src "OUTCAR") = true ->
  is_converged E (join src "OUTCAR") s = false ->
  exists_ E s rerun = false ->
  out_res o = Ok tt ->
  lookup E (out_fs o) rerun = lookup E s src /\
  lookup E (out_fs o) src = lookup E s src.
Proof.
  cbv zeta. intros Hbase Hsub HT Hsub1 Hsub2 Hd Hf Hc Hex Hok.
  assert (HB : exists B, resolve E base = Some B).
  { unfold resolve. destruct base; [congruence | eauto]. }
  destruct HB as [B HB].
  destruct (copy_then_attempt E base B sub idx hd T HB Hsub HT s Hd Hf Hc
              Hex Hok) as (es & Hsrc & Hg).
  split.
  - rewrite Hsrc. unfold lookup.
    now rewrite (resolve_rerun E base B sub idx T HB Hsub HT).
  - pose proof (process_folder_extends E base B sub idx T HB Hsub HT hd false s)
      as (_ & Hframe & _).
    unfold lookup. rewrite (resolve_source E base B sub T HB Hsub HT).
    apply Hframe. intros T' x Hx.
    pose proof (ReplayFacts.apart_source B sub idx Hsub1 Hsub2 T T' x [] Hx)
      as Ha.
    now rewrite app_nil_r in Ha.
Qed.

Lemma rerun_directory_is_copy_witness :
  let o := process_folder Scenario.world "base" "opt" 1 None false
             "trajectory_0" Scenario.fs_one in
  lookup Scenario.world (out_fs o) "base/trajectory_0/opt_run1" =
  lookup Scenario.world Scenario.fs_one "base/trajectory_0/opt" /\
  lookup Scenario.world (out_fs o) "base/trajectory_0/opt" =
  lookup Scenario.world Scenario.fs_one "base/trajectory_0/opt".
Proof.
  apply (rerun_directory_is_copy Scenario.world "base" "opt" 1 None
           "trajectory_0" Scenario.fs_one);
    try reflexivity; discriminate.
Defined.

(** X9. Apart from what it generates in the trajectory directories (the
    rerun directory and the two scripts), the batch leaves the base
    directory as it finds it, however it ends: the listing of the base
    directory is the same, every calculation folder is as it was, and no
    directory or regular file anywhere goes away. *)
Theorem process_keeps_originals (E : env) (base sub : string) (idx : Z)
  (hd : option string) (dry : bool) (fs : node) (names : list string) :
  let fs' := out_fs (process E base sub idx hd dry fs) in
  base <> EmptyString -> simple_name sub = true ->
  sub <> "01_submit_rerun.py" -> sub <> "script_rerun.sh" ->
  listdir E fs base = Ok names ->
  Forall (fun d => simple_name d = true) names ->
  listdir E fs' base = Ok names /\
  (forall d, In d names ->
     lookup E fs' (join (join base d) sub)
     = lookup E fs (join (join base d) sub)) /\
  (forall p, isdir E fs p = true -> isdir E fs' p = true) /\
  (forall p, isfile E fs p = true -> isfile E fs' p = true).
Proof.
  cbv zeta. intros Hbase Hsub Hsub1 Hsub2 Hl Hn.
  assert (HB : exists B, resolve E base = Some B).
  { unfold resolve. destruct base; [congruence | eauto]. }
  destruct HB as [B HB].
  assert (Hext : extends B (generated_names sub idx) fs
                   (out_fs (process E base sub idx hd dry fs))).
  { rewrite ReplayFacts.process_eval, Hl.
    destruct (Sorting.sorted _ _) as [dirs|e] eqn:Hs;
      [|apply extends_refl].
    apply ReplayFacts.for_each_extends; [exact HB | exact Hsub|].
    apply SortingFacts.sorted_spec in Hs as (Hp & _).
    eapply Permutation_Forall; [exact Hp|].
    rewrite Forall_forall in *. intros d Hd. apply Hn.
    now apply candidates_in in Hd. }
  destruct Hext as (Hg & Hframe & Hlist).
  split; [|split; [|split]].
  - apply (ReplayFacts.listdir_names E base B HB). rewrite Hlist.
    now apply (ReplayFacts.listdir_names E base B HB).
  - intros d Hd. rewrite Forall_forall in Hn.
    unfold lookup. rewrite (resolve_source E base B sub d HB Hsub (Hn d Hd)).
    apply Hframe. intros T' x Hx.
    pose proof (ReplayFacts.apart_source B sub idx Hsub1 Hsub2 d T' x [] Hx)
      as Ha.
    now rewrite app_nil_r in Ha.
  - intros p. now apply isdir_grows.
  - intros p. now apply isfile_grows.
Qed.

Lemma process_keeps_originals_witness :
  let fs' := out_fs (process Scenario.world "base" "opt" 1 None false
                       Scenario.fs_one) in
  listdir Scenario.world fs' "base" = Ok ["trajectory_0"] /\
  (forall d, In d ["trajectory_0"] ->
     lookup Scenario.world fs' (join (join "base" d) "opt")
     = lookup Scenario.world Scenario.fs_one (join (join "base" d) "opt")) /\
  (forall p, isdir Scenario.world Scenario.fs_one p = true ->
             isdir Scenario.world fs' p = true) /\
  (forall p, isfile Scenario.world Scenario.fs_one p = true ->
             isfile Scenario.world fs' p = true).
Proof.
  apply (process_keeps_originals Scenario.world "base" "opt" 1 None false
           Scenario.fs_one ["trajectory_0"]);
    try reflexivity; try discriminate.
  repeat constructor.
Defined.

End CopyFacts.

(* ================================================================== *)
(** * The located script and the generated one *)
(* ================================================================== *)

Module LocatedFacts.
Import PyStr OsPath Fs Os Eff Sorting Script Spec.
Import PyStrFacts SplitFacts LocatorFacts PathFacts.
Local Open Scope list_scope.

Lemma isabs_cons (p : string) :
  isabs p = true -> exists t, p = String "/" t.
Proof.
  destruct p as [|c t]; [discriminate|]. unfold isabs. cbn [startswith].
  rewrite andb_true_r. intros H. apply Ascii.eqb_eq in H. subst c. now exists t.
Qed.

Lemma normpath_isabs (p : string) :
  isabs p = true -> isabs (normpath p) = true.
Proof.
  intros H. destruct (isabs_cons p H) as [t ->]. unfold normpath.
  destruct (startswith (String "/" t) "//" && _); [reflexivity|].
  change (startswith (String "/" t) "/") with true. reflexivity.
Qed.

Lemma abspath_isabs (E : env) (p : string) : isabs (abspath E p) = true.
Proof.
  unfold abspath. apply normpath_isabs.
  destruct (isabs p) eqn:H; [exact H | apply join_getcwd_isabs].
Qed.

Lemma rstrip_slash_empty (s : string) :
  rstrip_slash s = EmptyString -> all_chars (Ascii.eqb "/") s = true.
Proof.
  induction s as [|c s IH]; [reflexivity|]. cbn [rstrip_slash all_chars].
  destruct (rstrip_slash s); [|discriminate].
  destruct (Ascii.eqb c "/") eqn:Hc; [|discriminate].
  intros _. rewrite Ascii.eqb_sym, Hc. now apply IH.
Qed.

Lemma dirname_isabs (p : string) :
  isabs p = true -> isabs (dirname p) = true.
Proof.
  intros H. destruct (isabs_cons p H) as [t ->]. unfold dirname.
  change (split "/" (String "/" t)) with (EmptyString :: split "/" t).
  pose proof (split_not_nil "/" t) as Hne.
  destruct (split "/" t) as [|x l]; [congruence|].
  change (removelast (EmptyString :: x :: l))
    with (EmptyString :: removelast (x :: l)).
  cbv beta iota zeta.
  set (head := (join_with "/" (EmptyString :: removelast (x :: l)) ++ "/")%string).
  assert (Hh : exists u, head = String "/" u).
  { unfold head. cbn [join_with].
    destruct (removelast (x :: l)); eexists; reflexivity. }
  destruct Hh as [u Hu]. rewrite Hu.
  destruct (all_chars _ (String "/" u)) eqn:Ha; [reflexivity|].
  cbn [rstrip_slash]. destruct (rstrip_slash u) eqn:Hr; [|reflexivity].
  apply rstrip_slash_empty in Hr. cbn [all_chars] in Ha.
  rewrite Hr in Ha. discriminate.
Qed.

Lemma join_isabs (a b : string) : isabs a = true -> isabs (join a b) = true.
Proof.
  intros H. unfold join. destruct (startswith b "/") eqn:Hb; [exact Hb|].
  destruct (isabs_cons a H) as [t ->].
  destruct (_ || _); reflexivity.
Qed.

(** X17. What the Helper Locator returns is, as its docstring says, an
    absolute path, and a regular file is there. *)
Theorem find_helper_file_absolute (E : env) (name : string)
  (helpers_dir : option string) (fs : node) (path : string) :
  find_helper_file E name helpers_dir fs = Ok path ->
  isabs path = true /\ isfile E fs path = true.
Proof.
  intros H. split; [|eapply find_helper_file_isfile; exact H].
  rewrite find_helper_file_find in H.
  destruct (find _ _) as [found|] eqn:Hf; [|discriminate].
  injection H as <-. apply find_some in Hf as [Hin _].
  unfold helper_locations in Hin. apply in_app_or in Hin as [Hin|Hin].
  - destruct helpers_dir as [d|]; [|contradiction].
    destruct Hin as [<-|[]]. apply abspath_isabs.
  - destruct Hin as [<-|[<-|[]]]; [apply abspath_isabs|].
    apply join_isabs, dirname_isabs, abspath_isabs.
Qed.

Lemma find_helper_file_absolute_witness :
  isabs "/opt/tools/script_rerun.sh" = true /\
  isfile Scenario.world Scenario.fs_one "/opt/tools/script_rerun.sh" = true.
Proof.
  apply (find_helper_file_absolute Scenario.world "script_rerun.sh" None
           Scenario.fs_one).
  reflexivity.
Defined.

Lemma append_inj_l (p a b : string) :
  (p ++ a = p ++ b)%string -> a = b.
Proof.
  induction p as [|c p IH]; cbn [append]; intros H; [exact H|].
  injection H as H. now apply IH.
Qed.

Lemma append_inj_r (s : string) : forall a b : string,
  (a ++ s = b ++ s)%string -> a = b.
Proof.
  assert (Hlen : forall c (a : string),
            s <> (String c a ++ s)%string).
  { intros c a H. apply (f_equal String.length) in H.
    change (String c a ++ s)%string with (String c (a ++ s)) in H.
    cbn [String.length] in H. rewrite length_append in H. lia. }
  induction a as [|c a IH]; intros [|d b]; cbn [append]; intros H.
  - reflexivity.
  - exfalso. exact (Hlen d b H).
  - exfalso. symmetry in H. exact (Hlen c a H).
  - injection H as -> H. f_equal. now apply IH.
Qed.

Lemma append_assoc (a b c : string) :
  ((a ++ b) ++ c = a ++ b ++ c)%string.
Proof.
  induction a as [|x a IH]; cbn [append]; [reflexivity | now rewrite IH].
Qed.

Lemma occurs_between (P t1 x t2 text : string) :
  (exists S, text = P ++ t1 ++ x ++ t2 ++ S)%string ->
  occurs (t1 ++ x ++ t2) text.
Proof.
  intros [S ->]. exists P, S. now rewrite !append_assoc.
Qed.

Lemma submit_contents_shape :
  exists P S : string,
    forall x, submit_contents x = (P ++ x ++ S)%string.
Proof.
  exists ("import os, sys" ++ nl ++
          "print(os.getcwd())" ++ nl ++
          "from ase import io" ++ nl ++
          "from src.kul_tools import KulTools as KT" ++ nl ++ nl ++
          "def main():" ++ nl ++
          "    target = '")%string.
  eexists. intros x. unfold submit_contents. reflexivity.
Qed.

(** X18. The entry script names the run folder and nothing else of the call:
    its text holds the line that sets [target] to
    [<run folder>/CONTCAR], and two run folders with different names
    never get the same text. *)
Theorem submit_contents_names_run_folder :
  (forall a b, submit_contents a = submit_contents b -> a = b) /\
  (forall a, occurs ("    target = '" ++ a ++ "/CONTCAR'" ++ nl)
               (submit_contents a)).
Proof.
  split.
  - intros a b H. destruct submit_contents_shape as (P & S & Hs).
    rewrite !Hs in H. apply append_inj_l in H. now apply append_inj_r in H.
  - intros a.
    apply (occurs_between
             ("import os, sys" ++ nl ++
              "print(os.getcwd())" ++ nl ++
              "from ase import io" ++ nl ++
              "from src.kul_tools import KulTools as KT" ++ nl ++ nl ++
              "def main():" ++ nl)%string
             "    target = '" a ("/CONTCAR'" ++ nl)%string
             (submit_contents a)).
    eexists. unfold submit_contents. reflexivity.
Qed.

End LocatedFacts.

(* ================================================================== *)
(** * Dry runs and schedulers *)
(* ================================================================== *)

Module ModeFacts.
Import PyStr OsPath Fs Os Eff Sorting Script Spec Trace Worlds.
Import RunFacts RunMoreFacts FsFacts OsFacts PartFacts PathFacts.
Import FootprintFacts StagingFacts LoopFacts StagedFacts CopyFacts.
Local Open Scope list_scope.

Lemma except_same_effect {A} (m1 m2 : M A) (h1 h2 : string -> M A)
  (s1 s2 : node) :
  out_fs (m1 s1) = out_fs (m2 s2) -> out_res (m1 s1) = out_res (m2 s2) ->
  (forall msg t, out_fs (h1 msg t) = out_fs (h2 msg t) /\
                 out_res (h1 msg t) = out_res (h2 msg t)) ->
  out_fs (except_FileNotFoundError m1 h1 s1)
  = out_fs (except_FileNotFoundError m2 h2 s2) /\
  out_res (except_FileNotFoundError m1 h1 s1)
  = out_res (except_FileNotFoundError m2 h2 s2).
Proof.
  intros Hf Hr Hh. unfold except_FileNotFoundError. rewrite Hr.
  destruct (out_res (m2 s2)) as [a|[msg| | | | |]] eqn:H2;
    cbn [out_fs out_res]; rewrite ?Hf, ?Hr, ?H2; auto.
Qed.


Lemma prepare_after_makedirs (E : env) (src run traj : string)
  (hd : option string) (copy dry : bool) (s s1 : node) :
  makedirs E s run = Ok s1 ->
  out_fs (prepare_and_submit_rerun E src run traj hd copy dry s)
  = out_fs (prepare_and_submit_rerun E src run traj hd copy dry s1) /\
  out_res (prepare_and_submit_rerun E src run traj hd copy dry s)
  = out_res (prepare_and_submit_rerun E src run traj hd copy dry s1).
Proof.
  intros H. rewrite prepare_unfold.
  rewrite (bind_ok (os_makedirs E run) _ s s1 [Makedirs run] tt)
    by (apply writes_ok; exact H).
  rewrite (bind_ok (os_makedirs E run) _ s1 s1 [Makedirs run] tt)
    by (apply writes_ok, makedirs_id; eapply makedirs_post; exact H).
  split; reflexivity.
Qed.

(** X12. A dry run on a trajectory that is not converged and has no rerun
    directory yet reports the copy it would make and then calls the Rerun
    Preparer, whose [os.makedirs(run_dir)] makes the rerun directory:
    when the loop body returns, the rerun directory is there and empty
    (a later live run finds it and copies nothing into it). *)
Theorem dry_run_makes_empty_rerun_directory (E : env) (base sub : string)
  (idx : Z) (hd : option string) (T : string) (s : node) :
  let src := join (join base T) sub in
  let rerun := join (join base T) (rerun_dir_name sub idx) in
  let o := process_folder E base sub idx hd true T s in
  base <> EmptyString -> simple_name sub = true -> simple_name T = true ->
  isdir E s src = true ->
  isfile E s (join src "OUTCAR") = true ->
  is_converged E (join src "OUTCAR") s = false ->
  exists_ E s rerun = false ->
  out_res o = Ok tt ->
  lookup E (out_fs o) rerun = Some (Dir []) /\
  exists_ E (out_fs o) rerun = true.
Proof.
  cbv zeta. intros Hbase Hsub HT Hd Hf Hc Hex.
  assert (HB : exists B, resolve E base = Some B).
  { unfold resolve. destruct base; [congruence | eauto]. }
  destruct HB as [B HB].
  pose proof (resolve_rerun E base B sub idx T HB Hsub HT) as HQ.
  rewrite process_folder_unfold. cbv zeta. rewrite Hd, Hf, Hc. cbn [negb].
  erewrite bind_ok by reflexivity. cbn [out_res out_fs].
  erewrite bind_ok
    by (unfold stage, bind, gets, print, emit; cbn [out_res out_fs out_log];
        rewrite Hex; reflexivity).
  cbn [out_res out_fs].
  set (rerun := join (join base T) (rerun_dir_name sub idx)) in *.
  destruct (makedirs E s rerun) as [s1|e] eqn:Hmk.
  - intros _.
    assert (Hg : get (B ++ [T; rerun_dir_name sub idx]) s1 = Some (Dir [])).
    { unfold makedirs in Hmk. rewrite HQ in Hmk.
      apply (mkdirs_fresh _ _ _ Hmk).
      unfold exists_, lookup in Hex. rewrite HQ in Hex.
      now destruct (get _ s). }
    assert (Heq : out_fs (attempt E base sub idx hd true T s)
                  = out_fs (attempt E base sub idx hd true T s1)).
    { unfold attempt. refine (proj1 (except_same_effect _ _ _ _ s s1 _ _ _)).
      - apply prepare_after_makedirs. exact Hmk.
      - apply prepare_after_makedirs. exact Hmk.
      - intros msg t. split; reflexivity. }
    rewrite Heq.
    pose proof (kept_attempt E base B sub idx hd T HB Hsub HT true s1 [] Hg)
      as Hk.
    unfold exists_, lookup. rewrite HQ, Hk. split; reflexivity.
  - intros Hok. exfalso. revert Hok.
    unfold attempt, except_FileNotFoundError. rewrite prepare_unfold.
    erewrite bind_raise by (apply writes_raise; exact Hmk).
    cbn [out_res out_fs out_log].
    destruct e as [msg| | | | |]; cbn [out_res]; try discriminate.
    exfalso. exact (ReplayFacts.makedirs_not_missing E s rerun _ msg HQ Hmk).
Qed.

Lemma dry_run_makes_empty_rerun_directory_witness :
  let o := process_folder Scenario.world "base" "opt" 1 None true
             "trajectory_0" Scenario.fs_one in
  lookup Scenario.world (out_fs o) "base/trajectory_0/opt_run1"
  = Some (Dir []) /\
  exists_ Scenario.world (out_fs o) "base/trajectory_0/opt_run1" = true.
Proof.
  apply (dry_run_makes_empty_rerun_directory Scenario.world "base" "opt" 1
           None "trajectory_0" Scenario.fs_one);
    try reflexivity; discriminate.
Defined.



End ModeFacts.

(* ================================================================== *)
(** * The staged copy of the scheduler script *)
(* ================================================================== *)

Module HelperCopyFacts.
Import PyStr OsPath Fs Os Eff Sorting Script Spec.
Import RunFacts RunMoreFacts FsFacts OsFacts PartFacts PathFacts.
Import StagingFacts LoopFacts StagedFacts.
Local Open Scope list_scope.
Local Open Scope Z_scope.







End HelperCopyFacts.

(* ================================================================== *)
(** * Counting calls *)
(* ================================================================== *)

Module CountFacts.
Import PyStr OsPath Fs Os Eff Sorting Script Spec Counting.
Import RunFacts RunMoreFacts FsFacts OsFacts PartFacts SortingFacts.
Import FootprintFacts StagingFacts LoopFacts.
Local Open Scope list_scope.

Section AtMost.
Variable p : event -> bool.

Lemma count_app l1 l2 : count p (l1 ++ l2) = (count p l1 + count p l2)%nat.
Proof. unfold count. now rewrite filter_app, List.length_app. Qed.

Lemma at_most_ret {A} (a : A) : at_most p 0 (ret a).
Proof. intros fs. apply Nat.le_refl. Qed.

Lemma at_most_gets {A} (f : node -> A) : at_most p 0 (gets f).
Proof. intros fs. apply Nat.le_refl. Qed.

Lemma at_most_reads {A} (f : node -> result A) : at_most p 0 (reads f).
Proof. intros fs. apply Nat.le_refl. Qed.

Lemma at_most_emit ev : p ev = false -> at_most p 0 (emit ev).
Proof. intros H fs. unfold count. cbn. rewrite H. apply Nat.le_refl. Qed.

Lemma at_most_emit_one ev : at_most p 1 (emit ev).
Proof. intros fs. unfold count. cbn. destruct (p ev); cbn; lia. Qed.

Lemma at_most_writes ev f : p ev = false -> at_most p 0 (writes ev f).
Proof.
  intros H fs. unfold writes, count. destruct (f fs); cbn; rewrite H;
    apply Nat.le_refl.
Qed.

Lemma at_most_writes_one ev f : at_most p 1 (writes ev f).
Proof.
  intros fs. unfold writes, count.
  destruct (f fs); cbn; destruct (p ev); cbn; lia.
Qed.

Lemma at_most_bind {A B} (m : M A) (k : A -> M B) a b :
  at_most p a m -> (forall x, at_most p b (k x)) ->
  at_most p (a + b) (bind m k).
Proof.
  intros Hm Hk fs. unfold bind. specialize (Hm fs).
  destruct (out_res (m fs)) as [x|e]; cbn [out_log].
  - rewrite count_app. specialize (Hk x (out_fs (m fs))). lia.
  - lia.
Qed.

Lemma at_most_except_FileNotFoundError {A} (m : M A) h a b :
  at_most p a m -> (forall msg, at_most p b (h msg)) ->
  at_most p (a + b) (except_FileNotFoundError m h).
Proof.
  intros Hm Hh fs. unfold except_FileNotFoundError. specialize (Hm fs).
  destruct (out_res (m fs)) as [x|[msg| | | | |]]; cbn [out_log]; try lia.
  rewrite count_app. specialize (Hh msg (out_fs (m fs))). lia.
Qed.

Lemma at_most_except_Exception {A} (m h : M A) a b :
  at_most p a m -> at_most p b h -> at_most p (a + b) (except_Exception m h).
Proof.
  intros Hm Hh fs. unfold except_Exception. specialize (Hm fs).
  destruct (out_res (m fs)) as [x|e]; cbn [out_log]; try lia.
  rewrite count_app. specialize (Hh (out_fs (m fs))). lia.
Qed.

Lemma at_most_for_each {A} (body : A -> M unit) (l : list A) n :
  (forall x, at_most p n (body x)) ->
  at_most p (n * List.length l) (for_each body l).
Proof.
  intros Hb. induction l as [|x l IH]; cbn [for_each List.length].
  - rewrite Nat.mul_0_r. apply at_most_ret.
  - replace (n * S (List.length l))%nat with (n + n * List.length l)%nat by lia.
    apply at_most_bind; [apply Hb | intros _; exact IH].
Qed.

Lemma at_most_le {A} (m : M A) a b :
  (a <= b)%nat -> at_most p a m -> at_most p b m.
Proof. intros Hab H fs. specialize (H fs). lia. Qed.

End AtMost.

Lemma submit_once (E : env) (dir : string) :
  at_most is_submission 1 (submit E dir).
Proof.
  unfold submit, print.
  apply (at_most_bind _ _ _ 1 0); [apply at_most_emit_one | intros _].
  apply (at_most_bind _ _ _ 0 0); [apply at_most_gets | intros r].
  destruct r as [[[rc out] err]|]; [|now apply at_most_emit].
  apply (at_most_bind _ _ _ 0 0); [now apply at_most_emit | intros _].
  apply (at_most_bind _ _ _ 0 0).
  - destruct out; [apply at_most_ret | now apply at_most_emit].
  - intros _. destruct err; [apply at_most_ret | now apply at_most_emit].
Qed.

Lemma submit_no_tree_copy (E : env) (dir : string) :
  at_most is_tree_copy 0 (submit E dir).
Proof.
  unfold submit, print.
  apply (at_most_bind _ _ _ 0 0); [now apply at_most_emit | intros _].
  apply (at_most_bind _ _ _ 0 0); [apply at_most_gets | intros r].
  destruct r as [[[rc out] err]|]; [|now apply at_most_emit].
  apply (at_most_bind _ _ _ 0 0); [now apply at_most_emit | intros _].
  apply (at_most_bind _ _ _ 0 0).
  - destruct out; [apply at_most_ret | now apply at_most_emit].
  - intros _. destruct err; [apply at_most_ret | now apply at_most_emit].
Qed.

Lemma prepare_counts (E : env) (src run traj : string) (hd : option string)
  (copy dry : bool) :
  at_most is_submission 1
    (prepare_and_submit_rerun E src run traj hd copy dry) /\
  at_most is_tree_copy 0
    (prepare_and_submit_rerun E src run traj hd copy dry).
Proof.
  split; unfold prepare_and_submit_rerun, os_makedirs, write_file,
    shutil_copy2, os_chmod, print.
  - apply (at_most_bind _ _ _ 0 1); [now apply at_most_writes | intros _].
    apply (at_most_bind _ _ _ 0 1); [now apply at_most_writes | intros _].
    apply (at_most_bind _ _ _ 0 1); [now apply at_most_writes | intros _].
    apply (at_most_bind _ _ _ 0 1); [apply at_most_reads | intros helper].
    apply (at_most_bind _ _ _ 0 1); [now apply at_most_writes | intros _].
    apply (at_most_bind _ _ _ 0 1).
    { destruct copy; [|apply at_most_ret].
      apply (at_most_bind _ _ _ 0 0); [now apply at_most_writes | intros _].
      now apply at_most_writes. }
    intros _. apply (at_most_bind _ _ _ 0 1).
    { apply (at_most_except_Exception _ _ _ 0 0); [|apply at_most_ret].
      apply (at_most_bind _ _ _ 0 0); [apply at_most_reads | intros mode].
      now apply at_most_writes. }
    intros _. destruct dry; [apply at_most_emit_one | apply submit_once].
  - apply (at_most_bind _ _ _ 0 0); [now apply at_most_writes | intros _].
    apply (at_most_bind _ _ _ 0 0); [now apply at_most_writes | intros _].
    apply (at_most_bind _ _ _ 0 0); [now apply at_most_writes | intros _].
    apply (at_most_bind _ _ _ 0 0); [apply at_most_reads | intros helper].
    apply (at_most_bind _ _ _ 0 0); [now apply at_most_writes | intros _].
    apply (at_most_bind _ _ _ 0 0).
    { destruct copy; [|apply at_most_ret].
      apply (at_most_bind _ _ _ 0 0); [now apply at_most_writes | intros _].
      now apply at_most_writes. }
    intros _. apply (at_most_bind _ _ _ 0 0).
    { apply (at_most_except_Exception _ _ _ 0 0); [|apply at_most_ret].
      apply (at_most_bind _ _ _ 0 0); [apply at_most_reads | intros mode].
      now apply at_most_writes. }
    intros _. destruct dry;
      [now apply at_most_emit | apply submit_no_tree_copy].
Qed.

Lemma process_folder_counts (E : env) (base sub : string) (idx : Z)
  (hd : option string) (dry : bool) (folder : string) :
  at_most is_submission 1 (process_folder E base sub idx hd dry folder) /\
  at_most is_tree_copy 1 (process_folder E base sub idx hd dry folder).
Proof.
  split; unfold process_folder, print, shutil_copytree.
  - apply (at_most_bind _ _ _ 0 1); [apply at_most_gets | intros b1].
    destruct b1; cbn [negb];
      [|eapply at_most_le; [|now apply at_most_emit]; lia].
    apply (at_most_bind _ _ _ 0 1); [apply at_most_gets | intros b2].
    destruct b2; cbn [negb];
      [|eapply at_most_le; [|now apply at_most_emit]; lia].
    apply (at_most_bind _ _ _ 0 1); [apply at_most_gets | intros b3].
    destruct b3; [eapply at_most_le; [|now apply at_most_emit]; lia|].
    apply (at_most_bind _ _ _ 0 1); [now apply at_most_emit | intros _].
    apply (at_most_bind _ _ _ 0 1); [apply at_most_gets | intros b4].
    apply (at_most_bind _ _ _ 0 1).
    { destruct b4; [now apply at_most_emit|].
      destruct dry; [now apply at_most_emit | now apply at_most_writes]. }
    intros _. apply (at_most_except_FileNotFoundError _ _ _ 1 0).
    + apply prepare_counts.
    + intros msg.
      apply (at_most_bind _ _ _ 0 0); [now apply at_most_emit | intros _].
      now apply at_most_emit.
  - apply (at_most_bind _ _ _ 0 1); [apply at_most_gets | intros b1].
    destruct b1; cbn [negb];
      [|eapply at_most_le; [|now apply at_most_emit]; lia].
    apply (at_most_bind _ _ _ 0 1); [apply at_most_gets | intros b2].
    destruct b2; cbn [negb];
      [|eapply at_most_le; [|now apply at_most_emit]; lia].
    apply (at_most_bind _ _ _ 0 1); [apply at_most_gets | intros b3].
    destruct b3; [eapply at_most_le; [|now apply at_most_emit]; lia|].
    apply (at_most_bind _ _ _ 0 1); [now apply at_most_emit | intros _].
    apply (at_most_bind _ _ _ 0 1); [apply at_most_gets | intros b4].
    apply (at_most_bind _ _ _ 1 0).
    { destruct b4; [eapply at_most_le; [|now apply at_most_emit]; lia|].
      destruct dry; [eapply at_most_le; [|now apply at_most_emit]; lia|].
      apply at_most_writes_one. }
    intros _. apply (at_most_except_FileNotFoundError _ _ _ 0 0).
    + apply prepare_counts.
    + intros msg.
      apply (at_most_bind _ _ _ 0 0); [now apply at_most_emit | intros _].
      now apply at_most_emit.
Qed.

(** X19. A batch submits at most once and copies a calculation folder at
    most once for each selected trajectory directory: the numbers of
    [sbatch] calls and of [copytree] calls are bounded by the number of
    directories the listing selects. *)
Theorem process_once_per_trajectory (E : env) (base sub : string) (idx : Z)
  (hd : option string) (dry : bool) (fs : node) (names : list string) :
  listdir E fs base = Ok names ->
  let log := out_log (process E base sub idx hd dry fs) in
  let selected := List.length (trajectory_candidates E base fs names) in
  (count is_submission log <= selected)%nat /\
  (count is_tree_copy log <= selected)%nat.
Proof.
  intros Hl. cbv zeta. rewrite ReplayFacts.process_eval, Hl.
  destruct (Sorting.sorted _ _) as [dirs|e] eqn:Hs;
    [|split; apply Nat.le_0_l].
  apply sorted_spec in Hs as (Hp & _).
  rewrite (Permutation_length Hp).
  split.
  - pose proof (at_most_for_each is_submission
                  (process_folder E base sub idx hd dry) dirs 1
                  (fun x => proj1 (process_folder_counts E base sub idx hd
                                     dry x)) fs) as H.
    lia.
  - pose proof (at_most_for_each is_tree_copy
                  (process_folder E base sub idx hd dry) dirs 1
                  (fun x => proj2 (process_folder_counts E base sub idx hd
                                     dry x)) fs) as H.
    lia.
Qed.

Lemma process_once_per_trajectory_witness :
  let log := out_log (process Scenario.world "base" "opt" 1 None false
                        Scenario.fs_mixed) in
  (count is_submission log <= 3)%nat /\ (count is_tree_copy log <= 3)%nat.
Proof.
  apply (process_once_per_trajectory Scenario.world "base" "opt" 1 None false
           Scenario.fs_mixed
           ["trajectory_10"; "notes.txt"; "trajectory_2"; "trajectory_x"]).
  reflexivity.
Defined.

End CountFacts.

(* ================================================================== *)
(** * The entry script in place, and the verdicts *)
(* ================================================================== *)

Module EntryFacts.
Import PyStr OsPath Fs Os Eff Sorting Script Spec Counting.
Import SplitFacts RunFacts RunMoreFacts FsFacts OsFacts PartFacts PathFacts.
Import LocatorFacts SortingFacts FootprintFacts StagingFacts LoopFacts.
Import StagedFacts.
Local Open Scope list_scope.






Lemma for_each_ok_in_rel {A} (R : node -> node -> Prop) (body : A -> M unit)
  (l : list A) (x : A) :
  (forall s, R s s) -> (forall s t u, R s t -> R t u -> R s u) ->
  (forall y, In y l -> steps R (body y)) ->
  forall fs,
    out_res (for_each body l fs) = Ok tt -> In x l ->
    exists s, R fs s /\
              incl (out_log (body x s)) (out_log (for_each body l fs)).
Proof.
  intros Rr Rt. induction l as [|y l IH]; intros Hb fs Hok [].
  - subst y. exists fs. split; [apply Rr|]. rewrite for_each_cons.
    destruct (bind_log_prefix (body x) (fun _ => for_each body l) fs)
      as [l' ->].
    apply incl_appl, incl_refl.
  - rewrite for_each_cons in *. unfold bind in *.
    pose proof (Hb y (or_introl eq_refl) fs) as Hstep.
    destruct (body y fs) as [s1 l1 [[]|e]]; cbn [out_res out_fs out_log] in *;
      [|discriminate].
    destruct (IH (fun z Hz => Hb z (or_intror Hz)) s1 Hok H) as [s [Hs Hi]].
    exists s. split; [eapply Rt; eauto|]. apply incl_appr. exact Hi.
Qed.

Lemma process_folder_first_verdict (E : env) (base sub : string) (idx : Z)
  (hd : option string) (dry : bool) (folder : string) (fs : node) :
  exists rest,
    out_log (process_folder E base sub idx hd dry folder fs)
    = Print (expected_verdict E fs base sub folder) :: rest.
Proof.
  rewrite process_folder_unfold. unfold expected_verdict. cbv zeta.
  destruct (isdir E fs _); cbn [negb]; [|eexists; reflexivity].
  destruct (isfile E fs _); cbn [negb]; [|eexists; reflexivity].
  destruct (is_converged E _ fs); [eexists; reflexivity|].
  erewrite bind_ok by reflexivity. cbn [out_log app].
  eexists; reflexivity.
Qed.

(** X21. The verdict on a trajectory is the one of the state in which
    the batch starts: what the batch does for the trajectories before it
    changes neither its subfolder nor its OUTCAR, so that a batch that
    returns has printed, for every selected directory, the line that the
    state at the start calls for. *)
Theorem process_verdicts_of_initial_state (E : env) (base sub : string)
  (idx : Z) (hd : option string) (dry : bool) (fs : node)
  (names : list string) (d : string) :
  base <> EmptyString -> simple_name sub = true ->
  sub <> "01_submit_rerun.py" -> sub <> "script_rerun.sh" ->
  listdir E fs base = Ok names ->
  Forall (fun n => simple_name n = true) names ->
  out_res (process E base sub idx hd dry fs) = Ok tt ->
  In d (trajectory_candidates E base fs names) ->
  In (Print (expected_verdict E fs base sub d))
    (out_log (process E base sub idx hd dry fs)).
Proof.
  intros Hbase Hsub Hsub1 Hsub2 Hl Hn Hok Hd.
  assert (HB : exists B, resolve E base = Some B).
  { unfold resolve. destruct base; [congruence | eauto]. }
  destruct HB as [B HB].
  rewrite ReplayFacts.process_eval, Hl in *.
  destruct (Sorting.sorted _ _) as [dirs|e] eqn:Hs; [|discriminate].
  apply sorted_spec in Hs as (Hp & _).
  assert (Hsimple : forall y, In y dirs -> simple_name y = true).
  { intros y Hy. rewrite Forall_forall in Hn. apply Hn.
    apply (Permutation_in _ (Permutation_sym Hp)) in Hy.
    now apply candidates_in in Hy. }
  destruct (for_each_ok_in_rel (extends B (generated_names sub idx))
              (process_folder E base sub idx hd dry) dirs d
              (extends_refl B _) (extends_trans B _)
              (fun y Hy s =>
                 process_folder_extends E base B sub idx y HB Hsub
                   (Hsimple y Hy) hd dry s)
              fs Hok (Permutation_in _ Hp Hd)) as (s & Hext & Hincl).
  destruct (process_folder_first_verdict E base sub idx hd dry d s)
    as [rest Hlog].
  apply Hincl. rewrite Hlog. left. f_equal.
  unfold expected_verdict. cbv zeta.
  destruct (ReplayFacts.triage_extends E base B sub idx HB Hsub Hsub1 Hsub2 d
              (Hsimple d (Permutation_in _ Hp Hd)) fs s Hext)
    as (-> & -> & ->).
  reflexivity.
Qed.

Lemma process_verdicts_of_initial_state_witness :
  In (Print (expected_verdict Scenario.world Scenario.fs_mixed "base" "opt"
               "trajectory_10"))
    (out_log (process Scenario.world "base" "opt" 1 None false
                Scenario.fs_mixed)).
Proof.
  apply (process_verdicts_of_initial_state Scenario.world "base" "opt" 1 None
           false Scenario.fs_mixed
           ["trajectory_10"; "notes.txt"; "trajectory_2"; "trajectory_x"]);
    try reflexivity; try discriminate.
  - repeat constructor.
  - now left.
Defined.

End EntryFacts.

(* ================================================================== *)
(** * The order of the calls *)
(* ================================================================== *)

Module TraceFacts.
Import PyStr OsPath Fs Os Eff Sorting Script Spec.
Import RunFacts RunMoreFacts FsFacts OsFacts PartFacts StagingFacts.
Local Open Scope list_scope.







End TraceFacts.
